(** * Apartments listing service: a shallow embedding and its properties

    The development follows [apartments.service.ts] (class
    [ApartmentsService]), [apartments.controller.ts] (class
    [ApartmentsController]), the [Apartment] entity and the request DTOs.

    Conventions of the embedding:
    - JavaScript integers (ids, counts, bedrooms, timestamps in ms) are [Z];
      the values of decimal columns ([price], [area]) are exact rationals
      [Q], read by the code as numbers, as the entity declares them; a
      number the code only passes on (a price, the [MIN] or [MAX] of the
      prices read by [parseFloat]) is held as the decimal it stands for;
      where the code computes with such a value in JavaScript the result of
      each operation is rounded to the nearest double
      ([JsNumber.toDouble]); the average the store computes is passed
      through a parameter [avgNumber], the number that [parseFloat] reads
      from the store's [AVG] for an exact mean ([mysqlAvg] is the one of
      MySQL 8);
    - a string is held as its UTF-8 bytes ([string] over [ascii]);
      [undefined]/[null] is [None];
    - the TypeORM repository is a table of rows ([list Apartment]) together
      with the next generated primary key; its primitives ([find],
      [findAndCount], [findOne], [count], [update], [increment], [save]) are
      modelled at the level at which the service calls them;
    - [new Date()] is an explicit clock argument [now], the store's
      [CURRENT_TIMESTAMP] an explicit argument [stamp];
    - the store's collation (how two characters compare in [LIKE], in
      [GROUP BY] and in the unique index) is a parameter [collate] on bytes,
      so [LIKE] and the collation work character by character on ASCII
      text.

    Limits of the embedding: integers and the values written to decimal
    columns stay within the range of their columns, and decimals are written
    with at most two places, so the store keeps them as they are; doubles
    stay within the normal range (no overflow, no subnormal numbers); the
    store runs in strict mode, as MySQL 8 does by default, and rejects a
    text that is longer than its column; [Repo.update] carries an update
    statement out without consulting the unique index on [unitNumber] or the
    column lengths, so the properties of updates are stated for statements
    the store accepts ([updateAccepted]); a negative [take] is left to the
    store and not covered; a number sent to the store as a bound is compared
    by its exact value; a time is stored as it is written (the store's
    rounding of a time to the precision of its column is not modelled); the
    white space [trim] removes is the white space of ASCII; a query is a
    function of the table, so rows that tie under the requested order come
    out in one fixed order. *)

From Stdlib Require Import ZArith QArith Qround Qminmax Qabs Qpower Lqa Bool Ascii String Lia.
From stdpp Require Import base list sorting strings.

Open Scope Z_scope.

(** ** JavaScript string primitives used by [generateSlug] *)

Module JsString.

Definition code (c : ascii) : N := N_of_ascii c.

Definition isUpper (c : ascii) : bool := ((65 <=? code c) && (code c <=? 90))%N.
Definition isLower (c : ascii) : bool := ((97 <=? code c) && (code c <=? 122))%N.
Definition isDigit (c : ascii) : bool := ((48 <=? code c) && (code c <=? 57))%N.

(** The lower-case form of an ASCII letter; every other byte stays. *)
Definition lowerChar (c : ascii) : ascii :=
  if isUpper c then ascii_of_N (code c + 32) else c.

(** [String.prototype.toLowerCase] on UTF-8 text, as far as it bears on the
    bytes of ASCII letters: [A]-[Z] become [a]-[z]; the Kelvin sign U+212A
    (bytes E2 84 AA) becomes [k]; the dotted capital I U+0130 (bytes C4 B0)
    becomes [i] followed by the combining dot U+0307 (bytes CC 87).  No
    other character has an ASCII letter or digit in its lower-case form, and
    no ASCII byte changes otherwise; the bytes of the other characters
    outside ASCII are kept as they are. *)
Fixpoint toLowerCase (s : string) : string :=
  match s with
  | EmptyString => EmptyString
  | String c s1 =>
      match s1 with
      | String d s2 =>
          if ((code c =? 196) && (code d =? 176))%N then
            String "i" (String (ascii_of_N 204) (String (ascii_of_N 135) (toLowerCase s2)))
          else
            match s2 with
            | String e s3 =>
                if ((code c =? 226) && (code d =? 132) && (code e =? 170))%N then
                  String "k" (toLowerCase s3)
                else String (lowerChar c) (toLowerCase s1)
            | EmptyString => String (lowerChar c) (toLowerCase s1)
            end
      | EmptyString => String (lowerChar c) (toLowerCase s1)
      end
  end.

(** The character class [[a-z0-9]] of the regular expressions. *)
Definition in_a_z_0_9 (c : ascii) : bool := isLower c || isDigit c.

Definition dash : ascii := "-"%char.

(** [.replace(/[^a-z0-9]+/g, '-')]: every maximal run of characters outside
    the class is replaced by one dash.  [inRun] records that the previous
    character already belonged to the run being replaced. *)
Fixpoint replaceRuns (inRun : bool) (s : string) : string :=
  match s with
  | EmptyString => EmptyString
  | String c s' =>
      if in_a_z_0_9 c then String c (replaceRuns false s')
      else if inRun then replaceRuns true s'
      else String dash (replaceRuns true s')
  end.

(** [.replace(/(^-|-$)/g, '')]: one dash at the start and one dash at the
    end are removed. *)
Definition dropLeadingDash (s : string) : string :=
  match s with
  | String c s' => if Ascii.eqb c dash then s' else s
  | EmptyString => EmptyString
  end.

Fixpoint dropTrailingDash (s : string) : string :=
  match s with
  | EmptyString => EmptyString
  | String c s' =>
      match s' with
      | EmptyString => if Ascii.eqb c dash then EmptyString else s
      | String _ _ => String c (dropTrailingDash s')
      end
  end.

Definition trimDashes (s : string) : string :=
  dropTrailingDash (dropLeadingDash s).

End JsString.

(** [ApartmentsService.generateSlug]. *)
Definition generateSlug (unitName unitNumber : string) : string :=
  let combined := (unitName +:+ "-" +:+ unitNumber)%string in
  JsString.trimDashes (JsString.replaceRuns false (JsString.toLowerCase combined)).

(** The slug as the specification words it: the lower-cased text is cut at
    its non-alphanumeric characters, and the non-empty alphanumeric pieces
    are joined by single dashes. *)
Module SlugSpec.

Definition isAlnum (c : ascii) : bool :=
  JsString.isUpper c || JsString.isLower c || JsString.isDigit c.

Definition flush (word : string) : list string :=
  match word with EmptyString => [] | _ => [word] end.

(** [word] is the alphanumeric piece read so far. *)
Fixpoint pieces (word : string) (s : string) : list string :=
  match s with
  | EmptyString => flush word
  | String c s' =>
      if isAlnum c then pieces (word +:+ String c EmptyString) s'
      else flush word ++ pieces EmptyString s'
  end.

(** No character of the text is an upper-case letter. *)
Fixpoint noUpper (s : string) : bool :=
  match s with
  | EmptyString => true
  | String c s' => negb (JsString.isUpper c) && noUpper s'
  end.

(** A piece that has been read: non-empty and not ending in a dash. *)
Definition closedWord (word : string) : Prop :=
  word <> EmptyString /\ JsString.dropTrailingDash word = word.

Definition slug_spec (unitName unitNumber : string) : string :=
  String.concat "-"
    (pieces EmptyString (JsString.toLowerCase (unitName +:+ "-" +:+ unitNumber))).

End SlugSpec.

(** ** JavaScript numbers *)

Module JsNumber.

(** IEEE 754 binary64 rounding on exact values: the double nearest to a
    rational, ties to the even mantissa. *)

(** [floor(log2 a)] for a positive rational. *)
Definition binade (a : Q) : Z :=
  let e := Z.log2 (Qnum a) - Z.log2 (Zpos (Qden a)) in
  if Qle_bool (2 ^ e) a then e else e - 1.

(** The integer nearest to [x], ties to the even one. *)
Definition roundNearestEven (x : Q) : Z :=
  let f := Qfloor x in
  match (x - inject_Z f ?= 1 # 2)%Q with
  | Lt => f
  | Gt => f + 1
  | Eq => if Z.even f then f else f + 1
  end.

(** The double nearest to [q], as an exact value: [parseFloat] of a decimal
    and the result of an arithmetic operation whose exact value is [q]. *)
Definition toDouble (q : Q) : Q :=
  if Qeq_bool q 0 then 0%Q
  else
    let a := Qabs q in
    let ulp := (2 ^ (binade a - 52))%Q in
    let nearest := (inject_Z (roundNearestEven (a / ulp)) * ulp)%Q in
    if Qle_bool 0 q then nearest else (- nearest)%Q.

End JsNumber.

(** ** SQL text comparison under the store's collation *)

Section Collation.

Variable collate : ascii -> ascii -> bool.

(** Equality of two texts as the store sees it (unique index, GROUP BY). *)
Fixpoint textEq (a b : string) : bool :=
  match a, b with
  | EmptyString, EmptyString => true
  | String c a', String d b' => collate c d && textEq a' b'
  | _, _ => false
  end.

(** [subject LIKE pattern]: [%] stands for any run of characters, [_] for
    any single character, and a backslash makes the next pattern character
    literal.  TypeORM's [Like] passes the pattern through unchanged. *)
Fixpoint like (pattern : string) : string -> bool :=
  match pattern with
  | EmptyString =>
      fun subject => match subject with EmptyString => true | String _ _ => false end
  | String c rest =>
      if Ascii.eqb c "%" then
        fix anyRun (subject : string) : bool :=
          like rest subject
          || match subject with
             | EmptyString => false
             | String _ subject' => anyRun subject'
             end
      else if Ascii.eqb c "_" then
        fun subject =>
          match subject with
          | EmptyString => false
          | String _ subject' => like rest subject'
          end
      else if Ascii.eqb c "\" then
        match rest with
        | EmptyString =>
            fun subject =>
              match subject with
              | String d EmptyString => collate c d
              | _ => false
              end
        | String e rest' =>
            fun subject =>
              match subject with
              | EmptyString => false
              | String d subject' => collate e d && like rest' subject'
              end
        end
      else
        fun subject =>
          match subject with
          | EmptyString => false
          | String d subject' => collate c d && like rest subject'
          end
  end.

(** [needle] is a prefix of [subject], character by character under the
    collation. *)
Fixpoint startsWith (needle subject : string) : bool :=
  match needle, subject with
  | EmptyString, _ => true
  | String c needle', String d subject' => collate c d && startsWith needle' subject'
  | String _ _, EmptyString => false
  end.

(** [subject] contains [needle] as a substring. *)
Fixpoint contains (needle subject : string) : bool :=
  startsWith needle subject
  || match subject with
     | EmptyString => false
     | String _ subject' => contains needle subject'
     end.

End Collation.

(** A text without the characters that [LIKE] treats specially. *)
Fixpoint plainText (s : string) : bool :=
  match s with
  | EmptyString => true
  | String c s' =>
      negb (Ascii.eqb c "%") && negb (Ascii.eqb c "_") && negb (Ascii.eqb c "\")
      && plainText s'
  end.

(** ** The [Apartment] entity *)

Record Apartment := {
  id : Z;
  unitName : string;
  unitNumber : string;
  project : string;
  description : option string;
  price : Q;
  bedrooms : Z;
  bathrooms : Z;
  area : Q;
  location : option string;
  images : option (list string);
  amenities : option (list string);
  isAvailable : bool;
  slug : option string;
  viewCount : Z;
  isFeatured : bool;
  contactPhone : option string;
  contactEmail : option string;
  availableFrom : option Z;
  leaseDuration : option Z;
  securityDeposit : option Q;
  createdAt : Z;
  updatedAt : Z;
  deletedAt : option Z
}.

(** The row with its [viewCount] column replaced. *)
Definition withViewCount (v : Z) (r : Apartment) : Apartment :=
  {| id := id r; unitName := unitName r; unitNumber := unitNumber r;
     project := project r; description := description r; price := price r;
     bedrooms := bedrooms r; bathrooms := bathrooms r; area := area r;
     location := location r; images := images r; amenities := amenities r;
     isAvailable := isAvailable r; slug := slug r; viewCount := v;
     isFeatured := isFeatured r; contactPhone := contactPhone r;
     contactEmail := contactEmail r; availableFrom := availableFrom r;
     leaseDuration := leaseDuration r; securityDeposit := securityDeposit r;
     createdAt := createdAt r; updatedAt := updatedAt r;
     deletedAt := deletedAt r |}.

(** The row with its [updatedAt] column replaced. *)
Definition withUpdatedAt (t : Z) (r : Apartment) : Apartment :=
  {| id := id r; unitName := unitName r; unitNumber := unitNumber r;
     project := project r; description := description r; price := price r;
     bedrooms := bedrooms r; bathrooms := bathrooms r; area := area r;
     location := location r; images := images r; amenities := amenities r;
     isAvailable := isAvailable r; slug := slug r; viewCount := viewCount r;
     isFeatured := isFeatured r; contactPhone := contactPhone r;
     contactEmail := contactEmail r; availableFrom := availableFrom r;
     leaseDuration := leaseDuration r; securityDeposit := securityDeposit r;
     createdAt := createdAt r; updatedAt := t;
     deletedAt := deletedAt r |}.

(** The relations the entity declares: none. *)
Definition declaredRelations : list string := [].

(** The number of characters of a UTF-8 text: the bytes that do not continue
    a character. *)
Fixpoint charLength (s : string) : nat :=
  match s with
  | EmptyString => 0%nat
  | String c s' =>
      ((if ((128 <=? JsString.code c) && (JsString.code c <=? 191))%N then 0 else 1)
       + charLength s')%nat
  end.

(** A text fits a column declared with [length: n]. *)
Definition fits (n : nat) (s : string) : bool := (charLength s <=? n)%nat.

Definition fitsNullable (n : nat) (o : option string) : bool :=
  match o with Some s => fits n s | None => true end.

(** Every text of the row fits its column: the lengths of the [@Column]
    declarations, and 65535 bytes for the [text] column. *)
Definition fitsColumns (r : Apartment) : bool :=
  fits 255 (unitName r) && fits 100 (unitNumber r) && fits 255 (project r)
  && match description r with
     | Some d => (N.of_nat (String.length d) <=? 65535)%N
     | None => true
     end
  && fitsNullable 255 (location r) && fitsNullable 300 (slug r)
  && fitsNullable 20 (contactPhone r) && fitsNullable 255 (contactEmail r).

(** ** Request contracts *)

Module CreateApartmentDto.
Record t := {
  unitName : string;
  unitNumber : string;
  project : string;
  description : option string;
  price : Q;
  bedrooms : Z;
  bathrooms : Z;
  area : Q;
  location : option string;
  images : option (list string);
  amenities : option (list string);
  isAvailable : option bool
}.
End CreateApartmentDto.

Module UpdateApartmentDto.
(** Modelled from the spec: dto/update-apartment.dto.ts is not among the
    sources.  The spec describes the body of the update operation as
    "partial fields" of the creation fields and the operation as a
    "field-level partial overwrite" that "overwrites only supplied fields":
    every creation field, each optional. *)
Record t := {
  unitName : option string;
  unitNumber : option string;
  project : option string;
  description : option string;
  price : option Q;
  bedrooms : option Z;
  bathrooms : option Z;
  area : option Q;
  location : option string;
  images : option (list string);
  amenities : option (list string);
  isAvailable : option bool
}.
End UpdateApartmentDto.

Inductive SortColumn := ByPrice | ByCreatedAt | ByArea | ByBedrooms | ByViewCount.
Inductive SortOrder := ASC | DESC.

Module SearchApartmentDto.
Record t := {
  search : option string;
  project : option string;
  location : option string;
  minPrice : option Q;
  maxPrice : option Q;
  bedrooms : option Z;
  bathrooms : option Z;
  minArea : option Q;
  maxArea : option Q;
  type : option string;
  furnishing : option string;
  petFriendly : option bool;
  sortBy : option SortColumn;
  sortOrder : option SortOrder
}.
End SearchApartmentDto.

Module PaginationDto.
(** Modelled from the spec: dto/pagination.dto.ts is not among the sources;
    the service reads the two optional numbers [page] (default 1) and
    [limit] (default 10) from it. *)
Record t := { page : option Z; limit : option Z }.
End PaginationDto.

(** ** The TypeORM repository *)

(** Find operators on a numeric column; a plain value in a [where] object is
    [Equal]. *)
Inductive FindOperator (A : Type) :=
| Equal (v : A)
| Not (v : A)
| Between (lo hi : A)
| MoreThanOrEqual (v : A)
| LessThanOrEqual (v : A).

Arguments Equal {A} v.
Arguments Not {A} v.
Arguments Between {A} lo hi.
Arguments MoreThanOrEqual {A} v.
Arguments LessThanOrEqual {A} v.

Definition evalOperator {A} (eqb leb : A -> A -> bool)
    (op : FindOperator A) (x : A) : bool :=
  match op with
  | Equal v => eqb x v
  | Not v => negb (eqb x v)
  | Between lo hi => leb lo x && leb x hi
  | MoreThanOrEqual v => leb v x
  | LessThanOrEqual v => leb x v
  end.

Definition whenSet {A} (f : A -> bool) (o : option A) : bool :=
  match o with Some a => f a | None => true end.

Module FindOptionsWhere.
(** The [where] objects the service builds: a conjunction with at most one
    condition per column.  [unitName] and [project] hold a [Like] pattern,
    [deletedAt] holds [IsNull()]. *)
Record t := {
  id : option (FindOperator Z);
  unitName : option string;
  project : option string;
  price : option (FindOperator Q);
  bedrooms : option (FindOperator Z);
  bathrooms : option (FindOperator Z);
  isAvailable : option bool;
  deletedAtIsNull : bool
}.
End FindOptionsWhere.

Module FindManyOptions.
Record t := {
  where_ : FindOptionsWhere.t;
  order : list (SortColumn * SortOrder);
  skip : option Z;
  take : option Z
}.
End FindManyOptions.

Module PartialEntity.
(** The column assignments of a [repository.update(id, partial)] call, for
    the columns the service writes that way. *)
Record t := {
  unitName : option string;
  unitNumber : option string;
  project : option string;
  description : option string;
  price : option Q;
  bedrooms : option Z;
  bathrooms : option Z;
  area : option Q;
  location : option string;
  images : option (list string);
  amenities : option (list string);
  isAvailable : option bool;
  updatedAt : option Z;
  deletedAt : option Z
}.
End PartialEntity.

(** A supplied value replaces the stored one. *)
Definition overwrite {A} (supplied : option A) (stored : A) : A :=
  match supplied with Some a => a | None => stored end.

Definition overwriteNullable {A} (supplied : option A) (stored : option A) : option A :=
  match supplied with Some a => Some a | None => stored end.

Definition patch (p : PartialEntity.t) (r : Apartment) : Apartment :=
  {| id := id r;
     unitName := overwrite (PartialEntity.unitName p) (unitName r);
     unitNumber := overwrite (PartialEntity.unitNumber p) (unitNumber r);
     project := overwrite (PartialEntity.project p) (project r);
     description := overwriteNullable (PartialEntity.description p) (description r);
     price := overwrite (PartialEntity.price p) (price r);
     bedrooms := overwrite (PartialEntity.bedrooms p) (bedrooms r);
     bathrooms := overwrite (PartialEntity.bathrooms p) (bathrooms r);
     area := overwrite (PartialEntity.area p) (area r);
     location := overwriteNullable (PartialEntity.location p) (location r);
     images := overwriteNullable (PartialEntity.images p) (images r);
     amenities := overwriteNullable (PartialEntity.amenities p) (amenities r);
     isAvailable := overwrite (PartialEntity.isAvailable p) (isAvailable r);
     slug := slug r;
     viewCount := viewCount r;
     isFeatured := isFeatured r;
     contactPhone := contactPhone r;
     contactEmail := contactEmail r;
     availableFrom := availableFrom r;
     leaseDuration := leaseDuration r;
     securityDeposit := securityDeposit r;
     createdAt := createdAt r;
     updatedAt := overwrite (PartialEntity.updatedAt p) (updatedAt r);
     deletedAt := overwriteNullable (PartialEntity.deletedAt p) (deletedAt r) |}.

(** The table and the next value of the generated primary key. *)
Record Repository := { rows : list Apartment; nextId : Z }.

(** What a repository call can raise: the store's duplicate-key and
    data-too-long errors, and TypeORM's error for a relation that the entity
    does not declare. *)
Inductive DbError := ER_DUP_ENTRY | ER_DATA_TOO_LONG | EntityPropertyNotFoundError.

(** The value a row is ordered by, for each sortable column. *)
Definition sortKey (c : SortColumn) (r : Apartment) : Q :=
  match c with
  | ByPrice => price r
  | ByCreatedAt => inject_Z (createdAt r)
  | ByArea => area r
  | ByBedrooms => inject_Z (bedrooms r)
  | ByViewCount => inject_Z (viewCount r)
  end.

(** [a] may come before [b] under the [order] object: the keys are compared
    in turn, later keys breaking the ties of earlier ones. *)
Fixpoint orderLeb (order : list (SortColumn * SortOrder)) (a b : Apartment) : bool :=
  match order with
  | [] => true
  | (c, d) :: order' =>
      match (match d with
             | ASC => sortKey c a ?= sortKey c b
             | DESC => sortKey c b ?= sortKey c a
             end)%Q with
      | Lt => true
      | Gt => false
      | Eq => orderLeb order' a b
      end
  end.

Definition orderLe (order : list (SortColumn * SortOrder)) : relation Apartment :=
  fun a b => orderLeb order a b = true.

#[global] Instance orderLe_dec order a b : Decision (orderLe order a b) :=
  bool_eq_dec (orderLeb order a b) true.

Module Repo.

Section WithCollation.

Variable collate : ascii -> ascii -> bool.

Definition isNull {A} (o : option A) : bool :=
  match o with None => true | Some _ => false end.

(** Does a row satisfy a [where] object? *)
Definition matches (w : FindOptionsWhere.t) (r : Apartment) : bool :=
  whenSet (fun op => evalOperator Z.eqb Z.leb op (id r)) (FindOptionsWhere.id w)
  && whenSet (fun pattern => like collate pattern (unitName r)) (FindOptionsWhere.unitName w)
  && whenSet (fun pattern => like collate pattern (project r)) (FindOptionsWhere.project w)
  && whenSet (fun op => evalOperator Qeq_bool Qle_bool op (price r)) (FindOptionsWhere.price w)
  && whenSet (fun op => evalOperator Z.eqb Z.leb op (bedrooms r)) (FindOptionsWhere.bedrooms w)
  && whenSet (fun op => evalOperator Z.eqb Z.leb op (bathrooms r)) (FindOptionsWhere.bathrooms w)
  && whenSet (fun b => Bool.eqb (isAvailable r) b) (FindOptionsWhere.isAvailable w)
  && (if FindOptionsWhere.deletedAtIsNull w then isNull (deletedAt r) else true).

(** [repository.find]: filter, order, then offset and limit.  TypeORM
    applies [take] only when the option is truthy, so a [take] of 0 sets no
    limit. *)
Definition find (repo : Repository) (o : FindManyOptions.t) : list Apartment :=
  let matched := List.filter (matches (FindManyOptions.where_ o)) (rows repo) in
  let sorted := merge_sort (orderLe (FindManyOptions.order o)) matched in
  let skipped :=
    match FindManyOptions.skip o with
    | Some n => drop (Z.to_nat n) sorted
    | None => sorted
    end in
  match FindManyOptions.take o with
  | Some n => if 0 <? n then take (Z.to_nat n) skipped else skipped
  | None => skipped
  end.

(** [repository.count]. *)
Definition count (repo : Repository) (w : FindOptionsWhere.t) : Z :=
  Z.of_nat (length (List.filter (matches w) (rows repo))).

(** [repository.findAndCount] with a [relations] option: TypeORM raises
    when a named relation is not declared by the entity; otherwise the
    answer is the page and the number of matching rows regardless of offset
    and limit. *)
Definition findAndCount (repo : Repository) (o : FindManyOptions.t)
    (relations : list string) : DbError + (list Apartment * Z) :=
  if forallb (fun relation => existsb (String.eqb relation) declaredRelations) relations
  then inr (find repo o, count repo (FindManyOptions.where_ o))
  else inl EntityPropertyNotFoundError.

(** [repository.findOne]. *)
Definition findOne (repo : Repository) (w : FindOptionsWhere.t) : option Apartment :=
  head (List.filter (matches w) (rows repo)).

End WithCollation.

(** The [@UpdateDateColumn]: an update statement that does not assign
    [updatedAt] itself sets it to the store's time. *)
Definition stampUpdate (stamp : Z) (p : PartialEntity.t) (r : Apartment) : Apartment :=
  match PartialEntity.updatedAt p with
  | Some _ => r
  | None => withUpdatedAt stamp r
  end.

(** [repository.update(id, partial)], run at the store's time [stamp]. *)
Definition update (repo : Repository) (i : Z) (p : PartialEntity.t) (stamp : Z)
    : Repository :=
  {| rows := map (fun r => if id r =? i then stampUpdate stamp p (patch p r) else r)
               (rows repo);
     nextId := nextId repo |}.

(** [repository.increment({ id }, 'viewCount', n)], run at the store's time
    [stamp]: an update statement, so [updatedAt] is stamped too. *)
Definition increment (repo : Repository) (i : Z) (n : Z) (stamp : Z) : Repository :=
  {| rows := map (fun r => if id r =? i
                           then withUpdatedAt stamp (withViewCount (viewCount r + n) r)
                           else r)
               (rows repo);
     nextId := nextId repo |}.

(** The row a [save] stores for a new entity: the entity's [@BeforeInsert]
    hooks have run ([updateTimestamp], [setDefaults]), the primary key is
    generated and [createdAt] is stamped. *)
Definition inserted (repo : Repository) (entity : Apartment) (now : Z) : Apartment :=
  {| id := nextId repo; unitName := unitName entity;
     unitNumber := unitNumber entity; project := project entity;
     description := description entity; price := price entity;
     bedrooms := bedrooms entity; bathrooms := bathrooms entity;
     area := area entity; location := location entity;
     images := images entity; amenities := amenities entity;
     isAvailable := isAvailable entity; slug := slug entity;
     viewCount := if viewCount entity =? 0 then 0 else viewCount entity;
     isFeatured := isFeatured entity; contactPhone := contactPhone entity;
     contactEmail := contactEmail entity; availableFrom := availableFrom entity;
     leaseDuration := leaseDuration entity;
     securityDeposit := securityDeposit entity;
     createdAt := now; updatedAt := now; deletedAt := deletedAt entity |}.

(** [repository.save] of a new entity: the store rejects a text that is
    longer than its column, then the unique index on [unitNumber] rejects a
    duplicate; otherwise the row is appended. *)
Definition save (collate : ascii -> ascii -> bool) (repo : Repository)
    (entity : Apartment) (now : Z) : DbError + (Repository * Apartment) :=
  if negb (fitsColumns entity) then inl ER_DATA_TOO_LONG
  else if existsb (fun r => textEq collate (unitNumber r) (unitNumber entity)) (rows repo)
  then inl ER_DUP_ENTRY
  else
    let saved := inserted repo entity now in
    inr ({| rows := rows repo ++ [saved]; nextId := nextId repo + 1 |}, saved).

End Repo.

(** ** SQL aggregates of the query-builder statements *)

Definition sqlSum (l : list Q) : Q := fold_right Qplus 0%Q l.

(** The exact mean of a non-empty list. *)
Definition mean (l : list Q) : Q := (sqlSum l / inject_Z (Z.of_nat (length l)))%Q.

(** [AVG], [MIN] and [MAX] are [NULL] over no rows.  [avgNumber] is the
    number that [parseFloat] reads from the store's [AVG] for an exact mean:
    the store rounds the mean to the digits it keeps, and [parseFloat]
    rounds that to a double. *)
Definition sqlAvg (avgNumber : Q -> Q) (l : list Q) : option Q :=
  match l with
  | [] => None
  | _ :: _ => Some (avgNumber (mean l))
  end.

Definition sqlMin (l : list Q) : option Q :=
  match l with [] => None | x :: l' => Some (fold_left Qmin l' x) end.

Definition sqlMax (l : list Q) : option Q :=
  match l with [] => None | x :: l' => Some (fold_left Qmax l' x) end.

(** The distinct values of a [GROUP BY] column, first occurrences kept. *)
Fixpoint distinctBy {A} (same : A -> A -> bool) (l : list A) : list A :=
  match l with
  | [] => []
  | x :: l' => x :: List.filter (fun y => negb (same x y)) (distinctBy same l')
  end.

(** ** Response contracts *)

Module Pagination.
Record t := {
  page : Z;
  limit : Z;
  total : Z;
  totalPages : Z;
  hasNext : bool;
  hasPrev : bool
}.
End Pagination.

Module Filters.
(** The filters echoed in a listing response. *)
Record t := {
  search : option string;
  project : option string;
  minPrice : option Q;
  maxPrice : option Q;
  bedrooms : option Z;
  bathrooms : option Z;
  sortBy : SortColumn;
  sortOrder : SortOrder
}.
End Filters.

Module PaginatedApartmentsDto.
Record t := {
  data : list Apartment;
  pagination : Pagination.t;
  filters : Filters.t
}.
End PaginatedApartmentsDto.

Module ProjectStatsDto.
Record t := { project : string; count : Z; averagePrice : Q }.
End ProjectStatsDto.

Module BedroomDistributionDto.
Record t := { bedrooms : Z; count : Z }.
End BedroomDistributionDto.

Module PriceRangeDto.
Record t := { min : Q; max : Q }.
End PriceRangeDto.

Module ApartmentStatsDto.
Record t := {
  totalApartments : Z;
  availableApartments : Z;
  unavailableApartments : Z;
  averagePrice : Q;
  priceRange : PriceRangeDto.t;
  projectStats : list ProjectStatsDto.t;
  bedroomDistribution : list BedroomDistributionDto.t;
  lastUpdated : Z
}.
End ApartmentStatsDto.

(** The orderings of the two grouped statistics queries. *)
Definition byCountDesc : relation ProjectStatsDto.t :=
  fun a b => ProjectStatsDto.count b <= ProjectStatsDto.count a.

Definition byBedroomsAsc : relation BedroomDistributionDto.t :=
  fun a b => BedroomDistributionDto.bedrooms a <= BedroomDistributionDto.bedrooms b.

#[global] Instance byCountDesc_dec a b : Decision (byCountDesc a b) :=
  Z_le_dec (ProjectStatsDto.count b) (ProjectStatsDto.count a).

#[global] Instance byBedroomsAsc_dec a b : Decision (byBedroomsAsc a b) :=
  Z_le_dec (BedroomDistributionDto.bedrooms a) (BedroomDistributionDto.bedrooms b).

Module FilterOptions.
(** The object returned by [getFilterOptions]. *)
Record t := {
  projects : list string;
  locations : list string;
  priceRange : PriceRangeDto.t;
  bedroomOptions : list Z;
  bathroomOptions : list Z
}.
End FilterOptions.

(** [ORDER BY] on a text column: ascending under the store's text order
    [textLeb], which belongs to the collation. *)
Definition textAsc (textLeb : string -> string -> bool) : relation string :=
  fun a b => textLeb a b = true.

#[global] Instance textAsc_dec textLeb a b : Decision (textAsc textLeb a b) :=
  bool_eq_dec (textLeb a b) true.

(** The values of a nullable column that are not [NULL]. *)
Fixpoint notNull {A} (l : list (option A)) : list A :=
  match l with
  | [] => []
  | Some a :: l' => a :: notNull l'
  | None :: l' => notNull l'
  end.

(** [Boolean] as a filter on strings: the empty string is dropped. *)
Definition truthyText (s : string) : bool :=
  match s with EmptyString => false | String _ _ => true end.

(** ** [ApartmentsService] *)

Module ApartmentsService.

Section WithCollation.

Variable collate : ascii -> ascii -> bool.

(** The number read from the store's [AVG] (see [sqlAvg]). *)
Variable avgNumber : Q -> Q.

(** JavaScript truthiness of an optional string: defined and non-empty. *)
Definition truthy (s : option string) : bool :=
  match s with Some (String _ _) => true | _ => false end.

(** The [whereConditions] object of [findAllPaginated]. *)
Definition whereConditions (searchDto : SearchApartmentDto.t) : FindOptionsWhere.t :=
  {| FindOptionsWhere.id := None;
     FindOptionsWhere.unitName :=
       match SearchApartmentDto.search searchDto with
       | Some search =>
           if truthy (Some search) then Some ("%" +:+ search +:+ "%")%string else None
       | None => None
       end;
     FindOptionsWhere.project :=
       match SearchApartmentDto.project searchDto with
       | Some project =>
           if truthy (Some project) then Some ("%" +:+ project +:+ "%")%string else None
       | None => None
       end;
     FindOptionsWhere.price :=
       match SearchApartmentDto.minPrice searchDto, SearchApartmentDto.maxPrice searchDto with
       | Some minPrice, Some maxPrice => Some (Between minPrice maxPrice)
       | Some minPrice, None => Some (MoreThanOrEqual minPrice)
       | None, Some maxPrice => Some (LessThanOrEqual maxPrice)
       | None, None => None
       end;
     FindOptionsWhere.bedrooms :=
       match SearchApartmentDto.bedrooms searchDto with
       | Some bedrooms => Some (Equal bedrooms)
       | None => None
       end;
     FindOptionsWhere.bathrooms :=
       match SearchApartmentDto.bathrooms searchDto with
       | Some bathrooms => Some (Equal bathrooms)
       | None => None
       end;
     FindOptionsWhere.isAvailable := Some true;
     FindOptionsWhere.deletedAtIsNull := true |}.

Definition pageOf (paginationDto : PaginationDto.t) : Z :=
  match PaginationDto.page paginationDto with Some page => page | None => 1 end.

Definition limitOf (paginationDto : PaginationDto.t) : Z :=
  match PaginationDto.limit paginationDto with Some limit => limit | None => 10 end.

Definition sortByOf (searchDto : SearchApartmentDto.t) : SortColumn :=
  match SearchApartmentDto.sortBy searchDto with Some c => c | None => ByCreatedAt end.

Definition sortOrderOf (searchDto : SearchApartmentDto.t) : SortOrder :=
  match SearchApartmentDto.sortOrder searchDto with Some d => d | None => DESC end.

(** The [where], [order], [skip] and [take] options of the [findAndCount]
    call in [findAllPaginated]. *)
Definition findOptions (searchDto : SearchApartmentDto.t)
    (paginationDto : PaginationDto.t) : FindManyOptions.t :=
  let page := pageOf paginationDto in
  let limit := limitOf paginationDto in
  let skip := (page - 1) * limit in
  {| FindManyOptions.where_ := whereConditions searchDto;
     FindManyOptions.order := [(sortByOf searchDto, sortOrderOf searchDto)];
     FindManyOptions.skip := Some skip;
     FindManyOptions.take := Some limit |}.

(** [Math.ceil(total / limit)]. *)
Definition mathCeilDiv (total limit : Z) : Z :=
  Qceiling (inject_Z total / inject_Z limit).

(** The [relations] option of that call: [['reviews']]. *)
Definition findRelations : list string := ["reviews"%string].

(** The response [findAllPaginated] builds from the answer of the store. *)
Definition paginated (searchDto : SearchApartmentDto.t) (paginationDto : PaginationDto.t)
    (apartments : list Apartment) (total : Z) : PaginatedApartmentsDto.t :=
  let page := pageOf paginationDto in
  let limit := limitOf paginationDto in
  let totalPages := mathCeilDiv total limit in
  let hasNext := page <? totalPages in
  let hasPrev := 1 <? page in
  {| PaginatedApartmentsDto.data := apartments;
     PaginatedApartmentsDto.pagination :=
       {| Pagination.page := page;
          Pagination.limit := limit;
          Pagination.total := total;
          Pagination.totalPages := totalPages;
          Pagination.hasNext := hasNext;
          Pagination.hasPrev := hasPrev |};
     PaginatedApartmentsDto.filters :=
       {| Filters.search := SearchApartmentDto.search searchDto;
          Filters.project := SearchApartmentDto.project searchDto;
          Filters.minPrice := SearchApartmentDto.minPrice searchDto;
          Filters.maxPrice := SearchApartmentDto.maxPrice searchDto;
          Filters.bedrooms := SearchApartmentDto.bedrooms searchDto;
          Filters.bathrooms := SearchApartmentDto.bathrooms searchDto;
          Filters.sortBy := sortByOf searchDto;
          Filters.sortOrder := sortOrderOf searchDto |} |}.

(** [findAllPaginated]: an error of the [findAndCount] call is not caught
    here. *)
Definition findAllPaginated (repo : Repository) (searchDto : SearchApartmentDto.t)
    (paginationDto : PaginationDto.t) : DbError + PaginatedApartmentsDto.t :=
  match Repo.findAndCount collate repo (findOptions searchDto paginationDto)
          findRelations with
  | inl error => inl error
  | inr (apartments, total) => inr (paginated searchDto paginationDto apartments total)
  end.

Definition findOneWithDetails (repo : Repository) (i : Z) : option Apartment :=
  Repo.findOne collate repo
    {| FindOptionsWhere.id := Some (Equal i);
       FindOptionsWhere.unitName := None;
       FindOptionsWhere.project := None;
       FindOptionsWhere.price := None;
       FindOptionsWhere.bedrooms := None;
       FindOptionsWhere.bathrooms := None;
       FindOptionsWhere.isAvailable := Some true;
       FindOptionsWhere.deletedAtIsNull := true |}.

(** [repository.create({ ...createApartmentDto, slug, viewCount: 0 })]: the
    entity before it is saved; unset columns take their column defaults. *)
Definition newEntity (dto : CreateApartmentDto.t) : Apartment :=
  {| id := 0;
     unitName := CreateApartmentDto.unitName dto;
     unitNumber := CreateApartmentDto.unitNumber dto;
     project := CreateApartmentDto.project dto;
     description := CreateApartmentDto.description dto;
     price := CreateApartmentDto.price dto;
     bedrooms := CreateApartmentDto.bedrooms dto;
     bathrooms := CreateApartmentDto.bathrooms dto;
     area := CreateApartmentDto.area dto;
     location := CreateApartmentDto.location dto;
     images := CreateApartmentDto.images dto;
     amenities := CreateApartmentDto.amenities dto;
     isAvailable :=
       match CreateApartmentDto.isAvailable dto with Some b => b | None => true end;
     slug := Some (generateSlug (CreateApartmentDto.unitName dto)
                                (CreateApartmentDto.unitNumber dto));
     viewCount := 0;
     isFeatured := false;
     contactPhone := None;
     contactEmail := None;
     availableFrom := None;
     leaseDuration := None;
     securityDeposit := None;
     createdAt := 0;
     updatedAt := 0;
     deletedAt := None |}.

Definition create (repo : Repository) (createApartmentDto : CreateApartmentDto.t)
    (now : Z) : DbError + (Repository * Apartment) :=
  Repo.save collate repo (newEntity createApartmentDto) now.

(** [{ ...updateApartmentDto, updatedAt: new Date() }]. *)
Definition updatePartial (dto : UpdateApartmentDto.t) (now : Z) : PartialEntity.t :=
  {| PartialEntity.unitName := UpdateApartmentDto.unitName dto;
     PartialEntity.unitNumber := UpdateApartmentDto.unitNumber dto;
     PartialEntity.project := UpdateApartmentDto.project dto;
     PartialEntity.description := UpdateApartmentDto.description dto;
     PartialEntity.price := UpdateApartmentDto.price dto;
     PartialEntity.bedrooms := UpdateApartmentDto.bedrooms dto;
     PartialEntity.bathrooms := UpdateApartmentDto.bathrooms dto;
     PartialEntity.area := UpdateApartmentDto.area dto;
     PartialEntity.location := UpdateApartmentDto.location dto;
     PartialEntity.images := UpdateApartmentDto.images dto;
     PartialEntity.amenities := UpdateApartmentDto.amenities dto;
     PartialEntity.isAvailable := UpdateApartmentDto.isAvailable dto;
     PartialEntity.updatedAt := Some now;
     PartialEntity.deletedAt := None |}.

(** [update]: the statement assigns [updatedAt] itself, so the store's stamp
    does not enter. *)
Definition update (repo : Repository) (i : Z) (updateApartmentDto : UpdateApartmentDto.t)
    (now : Z) : Repository * option Apartment :=
  let repo' := Repo.update repo i (updatePartial updateApartmentDto now) now in
  (repo', findOneWithDetails repo' i).

(** [{ isAvailable: false, deletedAt: new Date() }]. *)
Definition softDeletePartial (now : Z) : PartialEntity.t :=
  {| PartialEntity.unitName := None;
     PartialEntity.unitNumber := None;
     PartialEntity.project := None;
     PartialEntity.description := None;
     PartialEntity.price := None;
     PartialEntity.bedrooms := None;
     PartialEntity.bathrooms := None;
     PartialEntity.area := None;
     PartialEntity.location := None;
     PartialEntity.images := None;
     PartialEntity.amenities := None;
     PartialEntity.isAvailable := Some false;
     PartialEntity.updatedAt := None;
     PartialEntity.deletedAt := Some now |}.

Definition softDelete (repo : Repository) (i : Z) (now : Z) (stamp : Z)
    : Repository * bool :=
  match findOneWithDetails repo i with
  | None => (repo, false)
  | Some _ => (Repo.update repo i (softDeletePartial now) stamp, true)
  end.

(** [findSimilar]: the band is computed in JavaScript, in doubles, from the
    price of the record as a number; [0.2] is the double nearest to 1/5. *)
Definition findSimilar (repo : Repository) (apartmentId : Z) (limit : Z)
    : list Apartment :=
  match findOneWithDetails repo apartmentId with
  | None => []
  | Some apartment =>
      let price := JsNumber.toDouble (price apartment) in
      let priceRange := JsNumber.toDouble (price * JsNumber.toDouble (2 # 10)) in
      Repo.find collate repo
        {| FindManyOptions.where_ :=
             {| FindOptionsWhere.id := Some (Not apartmentId);
                FindOptionsWhere.unitName := None;
                FindOptionsWhere.project := None;
                FindOptionsWhere.price :=
                  Some (Between (JsNumber.toDouble (price - priceRange))
                                (JsNumber.toDouble (price + priceRange)));
                FindOptionsWhere.bedrooms := Some (Equal (bedrooms apartment));
                FindOptionsWhere.bathrooms := None;
                FindOptionsWhere.isAvailable := Some true;
                FindOptionsWhere.deletedAtIsNull := true |};
           FindManyOptions.order := [(ByViewCount, DESC)];
           FindManyOptions.skip := None;
           FindManyOptions.take := Some limit |}
  end.

Definition incrementViewCount (repo : Repository) (i : Z) (stamp : Z) : Repository :=
  Repo.increment repo i 1 stamp.

(** The rows selected by the query-builder statements of [getStatistics]:
    [isAvailable = true AND deletedAt IS NULL]. *)
Definition availableRows (repo : Repository) : list Apartment :=
  List.filter (fun r => Bool.eqb (isAvailable r) true && Repo.isNull (deletedAt r))
    (rows repo).

Definition orZero (o : option Q) : Q :=
  match o with Some q => q | None => 0%Q end.

(** [GROUP BY project] with [COUNT] and [AVG(price)], [ORDER BY count DESC]. *)
Definition projectStatsQuery (repo : Repository) : list ProjectStatsDto.t :=
  let selected := availableRows repo in
  let groups :=
    map (fun key =>
           let group := List.filter (fun r => textEq collate key (project r)) selected in
           {| ProjectStatsDto.project := key;
              ProjectStatsDto.count := Z.of_nat (length group);
              ProjectStatsDto.averagePrice :=
                orZero (sqlAvg avgNumber (map price group)) |})
        (distinctBy (textEq collate) (map project selected)) in
  merge_sort byCountDesc groups.

(** [GROUP BY bedrooms] with [COUNT], [ORDER BY bedrooms ASC]. *)
Definition bedroomStatsQuery (repo : Repository) : list BedroomDistributionDto.t :=
  let selected := availableRows repo in
  let groups :=
    map (fun key =>
           let group := List.filter (fun r => key =? bedrooms r) selected in
           {| BedroomDistributionDto.bedrooms := key;
              BedroomDistributionDto.count := Z.of_nat (length group) |})
        (distinctBy Z.eqb (map bedrooms selected)) in
  merge_sort byBedroomsAsc groups.

Definition getStatistics (repo : Repository) (now : Z) : ApartmentStatsDto.t :=
  let totalApartments :=
    Repo.count collate repo
      {| FindOptionsWhere.id := None;
         FindOptionsWhere.unitName := None;
         FindOptionsWhere.project := None;
         FindOptionsWhere.price := None;
         FindOptionsWhere.bedrooms := None;
         FindOptionsWhere.bathrooms := None;
         FindOptionsWhere.isAvailable := None;
         FindOptionsWhere.deletedAtIsNull := true |} in
  let availableApartments :=
    Repo.count collate repo
      {| FindOptionsWhere.id := None;
         FindOptionsWhere.unitName := None;
         FindOptionsWhere.project := None;
         FindOptionsWhere.price := None;
         FindOptionsWhere.bedrooms := None;
         FindOptionsWhere.bathrooms := None;
         FindOptionsWhere.isAvailable := Some true;
         FindOptionsWhere.deletedAtIsNull := true |} in
  let prices := map price (availableRows repo) in
  {| ApartmentStatsDto.totalApartments := totalApartments;
     ApartmentStatsDto.availableApartments := availableApartments;
     ApartmentStatsDto.unavailableApartments := totalApartments - availableApartments;
     ApartmentStatsDto.averagePrice := orZero (sqlAvg avgNumber prices);
     ApartmentStatsDto.priceRange :=
       {| PriceRangeDto.min := orZero (sqlMin prices);
          PriceRangeDto.max := orZero (sqlMax prices) |};
     ApartmentStatsDto.projectStats := projectStatsQuery repo;
     ApartmentStatsDto.bedroomDistribution := bedroomStatsQuery repo;
     ApartmentStatsDto.lastUpdated := now |}.

(** The legacy [findOne]. *)
Definition findOne (repo : Repository) (i : Z) : option Apartment :=
  findOneWithDetails repo i.

Definition findByProject (repo : Repository) (projectName : string) : list Apartment :=
  Repo.find collate repo
    {| FindManyOptions.where_ :=
         {| FindOptionsWhere.id := None;
            FindOptionsWhere.unitName := None;
            FindOptionsWhere.project := Some ("%" +:+ projectName +:+ "%")%string;
            FindOptionsWhere.price := None;
            FindOptionsWhere.bedrooms := None;
            FindOptionsWhere.bathrooms := None;
            FindOptionsWhere.isAvailable := Some true;
            FindOptionsWhere.deletedAtIsNull := true |};
       FindManyOptions.order := [(ByCreatedAt, DESC)];
       FindManyOptions.skip := None;
       FindManyOptions.take := None |}.

Definition getFeaturedApartments (repo : Repository) (limit : Z) : list Apartment :=
  Repo.find collate repo
    {| FindManyOptions.where_ :=
         {| FindOptionsWhere.id := None;
            FindOptionsWhere.unitName := None;
            FindOptionsWhere.project := None;
            FindOptionsWhere.price := None;
            FindOptionsWhere.bedrooms := None;
            FindOptionsWhere.bathrooms := None;
            FindOptionsWhere.isAvailable := Some true;
            FindOptionsWhere.deletedAtIsNull := true |};
       FindManyOptions.order := [(ByViewCount, DESC); (ByCreatedAt, DESC)];
       FindManyOptions.skip := None;
       FindManyOptions.take := Some limit |}.

(** [getFilterOptions]: five [SELECT DISTINCT ... ORDER BY ... ASC] (and
    [MIN]/[MAX]) statements over the available, non-deleted rows.  [project]
    is never [NULL], so [project IS NOT NULL] keeps every row. *)
Definition getFilterOptions (textLeb : string -> string -> bool) (repo : Repository)
    : FilterOptions.t :=
  let selected := availableRows repo in
  let projects :=
    merge_sort (textAsc textLeb) (distinctBy (textEq collate) (map project selected)) in
  let locations :=
    merge_sort (textAsc textLeb)
      (distinctBy (textEq collate) (notNull (map location selected))) in
  let prices := map price selected in
  let bedroomOptions := merge_sort Z.le (distinctBy Z.eqb (map bedrooms selected)) in
  let bathroomOptions := merge_sort Z.le (distinctBy Z.eqb (map bathrooms selected)) in
  {| FilterOptions.projects := List.filter truthyText projects;
     FilterOptions.locations := List.filter truthyText locations;
     FilterOptions.priceRange :=
       {| PriceRangeDto.min := orZero (sqlMin prices);
          PriceRangeDto.max := orZero (sqlMax prices) |};
     FilterOptions.bedroomOptions := bedroomOptions;
     FilterOptions.bathroomOptions := bathroomOptions |}.

End WithCollation.

End ApartmentsService.

(** ** [ApartmentsController] *)

Inductive HttpStatus := NOT_FOUND | CONFLICT | INTERNAL_SERVER_ERROR.

Module FindOneResponse.
(** [{ ...apartment, viewCount, similarApartments }]. *)
Record t := { apartment : Apartment; similarApartments : list Apartment }.
End FindOneResponse.

Module ApartmentsController.

Section WithCollation.

Variable collate : ascii -> ascii -> bool.

Variable avgNumber : Q -> Q.

(** [GET /apartments/:id]. *)
Definition findOne (repo : Repository) (i : Z) (stamp : Z)
    : Repository * (HttpStatus + FindOneResponse.t) :=
  match ApartmentsService.findOneWithDetails collate repo i with
  | None => (repo, inl NOT_FOUND)
  | Some apartment =>
      let repo' := ApartmentsService.incrementViewCount repo i stamp in
      (repo',
       inr {| FindOneResponse.apartment :=
                withViewCount
                  (if viewCount apartment =? 0 then 0 else viewCount apartment)
                  apartment;
              FindOneResponse.similarApartments :=
                ApartmentsService.findSimilar collate repo' i 3 |})
  end.

(** [POST /apartments]: a duplicate-key error is answered with Conflict,
    every other error with an internal server error. *)
Definition create (repo : Repository) (createApartmentDto : CreateApartmentDto.t)
    (now : Z) : Repository * (HttpStatus + Apartment) :=
  match ApartmentsService.create collate repo createApartmentDto now with
  | inl ER_DUP_ENTRY => (repo, inl CONFLICT)
  | inl _ => (repo, inl INTERNAL_SERVER_ERROR)
  | inr (repo', apartment) => (repo', inr apartment)
  end.

(** [PUT /apartments/:id]. *)
Definition update (repo : Repository) (i : Z) (updateApartmentDto : UpdateApartmentDto.t)
    (now : Z) : Repository * (HttpStatus + Apartment) :=
  match ApartmentsService.update collate repo i updateApartmentDto now with
  | (repo', None) => (repo', inl NOT_FOUND)
  | (repo', Some apartment) => (repo', inr apartment)
  end.

(** [DELETE /apartments/:id]; the response carries the deletion time. *)
Definition remove (repo : Repository) (i : Z) (now : Z) (stamp : Z)
    : Repository * (HttpStatus + Z) :=
  match ApartmentsService.softDelete collate repo i now stamp with
  | (repo', false) => (repo', inl NOT_FOUND)
  | (repo', true) => (repo', inr now)
  end.

(** [GET /apartments]: an error of the service is answered with an internal
    server error. *)
Definition findAll (repo : Repository) (searchDto : SearchApartmentDto.t)
    (paginationDto : PaginationDto.t) : HttpStatus + PaginatedApartmentsDto.t :=
  match ApartmentsService.findAllPaginated collate repo searchDto paginationDto with
  | inl _ => inl INTERNAL_SERVER_ERROR
  | inr result => inr result
  end.

(** [GET /apartments/stats]. *)
Definition getStats (repo : Repository) (now : Z) : ApartmentStatsDto.t :=
  ApartmentsService.getStatistics collate avgNumber repo now.

(** [GET /apartments/project/:projectName]. *)
Definition findByProject (repo : Repository) (projectName : string) : list Apartment :=
  ApartmentsService.findByProject collate repo projectName.

(** [GET /apartments/featured/recommendations]; [limit] defaults to 6. *)
Definition getFeatured (repo : Repository) (limit : option Z) : list Apartment :=
  ApartmentsService.getFeaturedApartments collate repo
    (match limit with Some n => n | None => 6 end).

End WithCollation.

End ApartmentsController.

(** ** The add-apartment form ([AddApartment]) *)

Module AddApartment.

Module ApartmentFormData.
Record t := {
  unitName : string;
  unitNumber : string;
  project : string;
  description : string;
  price : string;
  bedrooms : string;
  bathrooms : string;
  area : string;
  location : string;
  images : list string;
  amenities : list string;
  isAvailable : bool
}.
End ApartmentFormData.

(** The component state the list editors work on. *)
Record State := {
  formData : ApartmentFormData.t;
  imageInput : string;
  amenityInput : string
}.

(** White space and line terminators, as [String.prototype.trim] sees them
    in ASCII text: tab, line feed, vertical tab, form feed, carriage return
    and space. *)
Definition isSpace (c : ascii) : bool :=
  let n := N_of_ascii c in
  (((9 <=? n) && (n <=? 13)) || (n =? 32))%N.

Fixpoint trimStart (s : string) : string :=
  match s with
  | EmptyString => EmptyString
  | String c s' => if isSpace c then trimStart s' else s
  end.

Fixpoint trimEnd (s : string) : string :=
  match s with
  | EmptyString => EmptyString
  | String c s' =>
      match trimEnd s' with
      | EmptyString => if isSpace c then EmptyString else String c EmptyString
      | String _ _ as rest => String c rest
      end
  end.

Definition trim (s : string) : string := trimEnd (trimStart s).

(** [Array.prototype.includes] on strings. *)
Definition includes (l : list string) (s : string) : bool :=
  existsb (String.eqb s) l.

(** [l.filter((_, i) => i !== index)]; [at_] is the position of the head. *)
Fixpoint filterOtherIndex {A} (at_ index : nat) (l : list A) : list A :=
  match l with
  | [] => []
  | x :: l' =>
      if Nat.eqb at_ index then filterOtherIndex (S at_) index l'
      else x :: filterOtherIndex (S at_) index l'
  end.

Definition withImages (l : list string) (d : ApartmentFormData.t) : ApartmentFormData.t :=
  {| ApartmentFormData.unitName := ApartmentFormData.unitName d;
     ApartmentFormData.unitNumber := ApartmentFormData.unitNumber d;
     ApartmentFormData.project := ApartmentFormData.project d;
     ApartmentFormData.description := ApartmentFormData.description d;
     ApartmentFormData.price := ApartmentFormData.price d;
     ApartmentFormData.bedrooms := ApartmentFormData.bedrooms d;
     ApartmentFormData.bathrooms := ApartmentFormData.bathrooms d;
     ApartmentFormData.area := ApartmentFormData.area d;
     ApartmentFormData.location := ApartmentFormData.location d;
     ApartmentFormData.images := l;
     ApartmentFormData.amenities := ApartmentFormData.amenities d;
     ApartmentFormData.isAvailable := ApartmentFormData.isAvailable d |}.

Definition withAmenities (l : list string) (d : ApartmentFormData.t)
    : ApartmentFormData.t :=
  {| ApartmentFormData.unitName := ApartmentFormData.unitName d;
     ApartmentFormData.unitNumber := ApartmentFormData.unitNumber d;
     ApartmentFormData.project := ApartmentFormData.project d;
     ApartmentFormData.description := ApartmentFormData.description d;
     ApartmentFormData.price := ApartmentFormData.price d;
     ApartmentFormData.bedrooms := ApartmentFormData.bedrooms d;
     ApartmentFormData.bathrooms := ApartmentFormData.bathrooms d;
     ApartmentFormData.area := ApartmentFormData.area d;
     ApartmentFormData.location := ApartmentFormData.location d;
     ApartmentFormData.images := ApartmentFormData.images d;
     ApartmentFormData.amenities := l;
     ApartmentFormData.isAvailable := ApartmentFormData.isAvailable d |}.

Definition addImage (st : State) : State :=
  let entry := trim (imageInput st) in
  if truthyText entry && negb (includes (ApartmentFormData.images (formData st)) entry)
  then {| formData :=
            withImages (ApartmentFormData.images (formData st) ++ [entry]) (formData st);
          imageInput := EmptyString;
          amenityInput := amenityInput st |}
  else st.

Definition removeImage (index : nat) (st : State) : State :=
  {| formData :=
       withImages (filterOtherIndex 0 index (ApartmentFormData.images (formData st)))
         (formData st);
     imageInput := imageInput st;
     amenityInput := amenityInput st |}.

Definition addAmenity (st : State) : State :=
  let entry := trim (amenityInput st) in
  if truthyText entry && negb (includes (ApartmentFormData.amenities (formData st)) entry)
  then {| formData :=
            withAmenities (ApartmentFormData.amenities (formData st) ++ [entry])
              (formData st);
          imageInput := imageInput st;
          amenityInput := EmptyString |}
  else st.

Definition removeAmenity (index : nat) (st : State) : State :=
  {| formData :=
       withAmenities
         (filterOtherIndex 0 index (ApartmentFormData.amenities (formData st)))
         (formData st);
     imageInput := imageInput st;
     amenityInput := amenityInput st |}.

(** Typing into the two entry fields. *)
Definition setImageInput (s : string) (st : State) : State :=
  {| formData := formData st; imageInput := s; amenityInput := amenityInput st |}.

Definition setAmenityInput (s : string) (st : State) : State :=
  {| formData := formData st; imageInput := imageInput st; amenityInput := s |}.

(** The state the component starts in. *)
Definition initial : State :=
  {| formData :=
       {| ApartmentFormData.unitName := EmptyString;
          ApartmentFormData.unitNumber := EmptyString;
          ApartmentFormData.project := EmptyString;
          ApartmentFormData.description := EmptyString;
          ApartmentFormData.price := EmptyString;
          ApartmentFormData.bedrooms := EmptyString;
          ApartmentFormData.bathrooms := EmptyString;
          ApartmentFormData.area := EmptyString;
          ApartmentFormData.location := EmptyString;
          ApartmentFormData.images := [];
          ApartmentFormData.amenities := [];
          ApartmentFormData.isAvailable := true |};
     imageInput := EmptyString;
     amenityInput := EmptyString |}.

End AddApartment.

(** ** Sample data: the rows written by [seedDatabase] *)

Definition seedRow (i : Z) (name number proj : string) (p : Q) (bed bath : Z)
    (a : Q) (loc : string) (views : Z) : Apartment :=
  {| id := i; unitName := name; unitNumber := number; project := proj;
     description := None; price := p; bedrooms := bed; bathrooms := bath;
     area := a; location := Some loc; images := None; amenities := None;
     isAvailable := true; slug := Some (generateSlug name number);
     viewCount := views; isFeatured := false; contactPhone := None;
     contactEmail := None; availableFrom := None; leaseDuration := None;
     securityDeposit := None; createdAt := 1000 + i; updatedAt := 1000 + i;
     deletedAt := None |}.

Definition seeded : Repository :=
  {| rows :=
       [ seedRow 1 "Luxury Studio A1" "A1-001" "Marina Heights" 1200 1 1 (91 # 2)
           "Downtown Marina District" 45;
         seedRow 2 "Executive Suite B2" "B2-105" "Garden Residences" 2500 3 2 120
           "Green Valley" 32;
         seedRow 3 "Penthouse Premium" "P1-001" "Sky Tower" 4500 4 3 200
           "City Center" 78;
         seedRow 4 "Cozy One Bedroom" "C1-204" "Urban Living" 950 1 1 55
           "Midtown" 23;
         seedRow 5 "Family Haven" "F2-301" "Sunset Gardens" 1800 2 2 85
           "Suburban District" 19 ];
     nextId := 6 |}.

(** A listing request with no filter and the default pagination. *)
Definition noFilters : SearchApartmentDto.t :=
  {| SearchApartmentDto.search := None; SearchApartmentDto.project := None;
     SearchApartmentDto.location := None; SearchApartmentDto.minPrice := None;
     SearchApartmentDto.maxPrice := None; SearchApartmentDto.bedrooms := None;
     SearchApartmentDto.bathrooms := None; SearchApartmentDto.minArea := None;
     SearchApartmentDto.maxArea := None; SearchApartmentDto.type := None;
     SearchApartmentDto.furnishing := None; SearchApartmentDto.petFriendly := None;
     SearchApartmentDto.sortBy := None; SearchApartmentDto.sortOrder := None |}.

Definition defaultPage : PaginationDto.t :=
  {| PaginationDto.page := None; PaginationDto.limit := None |}.

(** A listing request that sets only the search text, the location, the
    area bounds and the three fields without a column. *)
Definition listingRequest (search location : option string) (minArea maxArea : option Q)
    (type furnishing : option string) (petFriendly : option bool)
    : SearchApartmentDto.t :=
  {| SearchApartmentDto.search := search; SearchApartmentDto.project := None;
     SearchApartmentDto.location := location; SearchApartmentDto.minPrice := None;
     SearchApartmentDto.maxPrice := None; SearchApartmentDto.bedrooms := None;
     SearchApartmentDto.bathrooms := None; SearchApartmentDto.minArea := minArea;
     SearchApartmentDto.maxArea := maxArea; SearchApartmentDto.type := type;
     SearchApartmentDto.furnishing := furnishing;
     SearchApartmentDto.petFriendly := petFriendly;
     SearchApartmentDto.sortBy := None; SearchApartmentDto.sortOrder := None |}.

(** A row whose unit number holds an underscore and whose unit name holds
    none. *)
Definition loft : Apartment :=
  seedRow 1 "Loft" "L_1" "Old Town" 800 1 1 40 "Harbour" 0.

(** ** Vocabulary of the statements *)

(** Two listing requests are identical except in [type], [furnishing] and
    [petFriendly]. *)
Definition identicalExceptUnsupported (a b : SearchApartmentDto.t) : Prop :=
  SearchApartmentDto.search a = SearchApartmentDto.search b
  /\ SearchApartmentDto.project a = SearchApartmentDto.project b
  /\ SearchApartmentDto.location a = SearchApartmentDto.location b
  /\ SearchApartmentDto.minPrice a = SearchApartmentDto.minPrice b
  /\ SearchApartmentDto.maxPrice a = SearchApartmentDto.maxPrice b
  /\ SearchApartmentDto.bedrooms a = SearchApartmentDto.bedrooms b
  /\ SearchApartmentDto.bathrooms a = SearchApartmentDto.bathrooms b
  /\ SearchApartmentDto.minArea a = SearchApartmentDto.minArea b
  /\ SearchApartmentDto.maxArea a = SearchApartmentDto.maxArea b
  /\ SearchApartmentDto.sortBy a = SearchApartmentDto.sortBy b
  /\ SearchApartmentDto.sortOrder a = SearchApartmentDto.sortOrder b.

(** The request with its search text removed. *)
Definition withoutSearch (d : SearchApartmentDto.t) : SearchApartmentDto.t :=
  {| SearchApartmentDto.search := None;
     SearchApartmentDto.project := SearchApartmentDto.project d;
     SearchApartmentDto.location := SearchApartmentDto.location d;
     SearchApartmentDto.minPrice := SearchApartmentDto.minPrice d;
     SearchApartmentDto.maxPrice := SearchApartmentDto.maxPrice d;
     SearchApartmentDto.bedrooms := SearchApartmentDto.bedrooms d;
     SearchApartmentDto.bathrooms := SearchApartmentDto.bathrooms d;
     SearchApartmentDto.minArea := SearchApartmentDto.minArea d;
     SearchApartmentDto.maxArea := SearchApartmentDto.maxArea d;
     SearchApartmentDto.type := SearchApartmentDto.type d;
     SearchApartmentDto.furnishing := SearchApartmentDto.furnishing d;
     SearchApartmentDto.petFriendly := SearchApartmentDto.petFriendly d;
     SearchApartmentDto.sortBy := SearchApartmentDto.sortBy d;
     SearchApartmentDto.sortOrder := SearchApartmentDto.sortOrder d |}.

(** A row is visible: available and not soft-deleted. *)
Definition visible (r : Apartment) : Prop :=
  isAvailable r = true /\ deletedAt r = None.

(** The row as a soft delete at time [now], run by the store at time
    [stamp], leaves it: unavailable, marked deleted, [updatedAt] stamped,
    every other column as before. *)
Definition softDeleted (now : Z) (stamp : Z) (r : Apartment) : Apartment :=
  {| id := id r; unitName := unitName r; unitNumber := unitNumber r;
     project := project r; description := description r; price := price r;
     bedrooms := bedrooms r; bathrooms := bathrooms r; area := area r;
     location := location r; images := images r; amenities := amenities r;
     isAvailable := false; slug := slug r; viewCount := viewCount r;
     isFeatured := isFeatured r; contactPhone := contactPhone r;
     contactEmail := contactEmail r; availableFrom := availableFrom r;
     leaseDuration := leaseDuration r; securityDeposit := securityDeposit r;
     createdAt := createdAt r; updatedAt := stamp;
     deletedAt := Some now |}.

(** The state invariant: a row marked deleted is unavailable. *)
Definition deletedImpliesUnavailable (r : Apartment) : Prop :=
  deletedAt r <> None -> isAvailable r = false.

Definition softDeleteInvariant (repo : Repository) : Prop :=
  Forall deletedImpliesUnavailable (rows repo).

(** The invariant as a check that can be run on a table. *)
Definition softDeleteInvariantb (repo : Repository) : bool :=
  forallb (fun r => Repo.isNull (deletedAt r) || negb (isAvailable r)) (rows repo).

(** An update request that only sets [isAvailable] to true. *)
Definition makeAvailable : UpdateApartmentDto.t :=
  {| UpdateApartmentDto.unitName := None; UpdateApartmentDto.unitNumber := None;
     UpdateApartmentDto.project := None; UpdateApartmentDto.description := None;
     UpdateApartmentDto.price := None; UpdateApartmentDto.bedrooms := None;
     UpdateApartmentDto.bathrooms := None; UpdateApartmentDto.area := None;
     UpdateApartmentDto.location := None; UpdateApartmentDto.images := None;
     UpdateApartmentDto.amenities := None;
     UpdateApartmentDto.isAvailable := Some true |}.

(** An update request that only sets [isAvailable] to false. *)
Definition makeUnavailable : UpdateApartmentDto.t :=
  {| UpdateApartmentDto.unitName := None; UpdateApartmentDto.unitNumber := None;
     UpdateApartmentDto.project := None; UpdateApartmentDto.description := None;
     UpdateApartmentDto.price := None; UpdateApartmentDto.bedrooms := None;
     UpdateApartmentDto.bathrooms := None; UpdateApartmentDto.area := None;
     UpdateApartmentDto.location := None; UpdateApartmentDto.images := None;
     UpdateApartmentDto.amenities := None;
     UpdateApartmentDto.isAvailable := Some false |}.

(** An update request that renames the unit. *)
Definition rename (name number : string) : UpdateApartmentDto.t :=
  {| UpdateApartmentDto.unitName := Some name;
     UpdateApartmentDto.unitNumber := Some number;
     UpdateApartmentDto.project := None; UpdateApartmentDto.description := None;
     UpdateApartmentDto.price := None; UpdateApartmentDto.bedrooms := None;
     UpdateApartmentDto.bathrooms := None; UpdateApartmentDto.area := None;
     UpdateApartmentDto.location := None; UpdateApartmentDto.images := None;
     UpdateApartmentDto.amenities := None;
     UpdateApartmentDto.isAvailable := None |}.

(** The creation request of the controller's documentation example, with
    another unit number. *)
Definition newStudio : CreateApartmentDto.t :=
  {| CreateApartmentDto.unitName := "Luxury Studio A2";
     CreateApartmentDto.unitNumber := "A2-002";
     CreateApartmentDto.project := "Marina Heights";
     CreateApartmentDto.description := None;
     CreateApartmentDto.price := 1200;
     CreateApartmentDto.bedrooms := 1;
     CreateApartmentDto.bathrooms := 1;
     CreateApartmentDto.area := 91 # 2;
     CreateApartmentDto.location := Some "Downtown Marina District"%string;
     CreateApartmentDto.images := None;
     CreateApartmentDto.amenities := None;
     CreateApartmentDto.isAvailable := Some true |}.

(** [n] more views of every row with the given id, the last at the store's
    time [stamp]. *)
Definition viewed (i : Z) (n : Z) (stamp : Z) (r : Apartment) : Apartment :=
  if id r =? i then withUpdatedAt stamp (withViewCount (viewCount r + n) r) else r.

(** The table after three successive [GET /apartments/:id] requests, served
    at the store's times [s1], [s2] and [s3]. *)
Definition afterThreeFetches (collate : ascii -> ascii -> bool) (repo : Repository)
    (i : Z) (s1 s2 s3 : Z) : Repository :=
  let repo1 := fst (ApartmentsController.findOne collate repo i s1) in
  let repo2 := fst (ApartmentsController.findOne collate repo1 i s2) in
  fst (ApartmentsController.findOne collate repo2 i s3).

(** The condition of [findOneWithDetails] on a row. *)
Definition byIdVisible (i : Z) (r : Apartment) : bool :=
  (id r =? i) && Bool.eqb (isAvailable r) true && Repo.isNull (deletedAt r).

(** [visible] as a check on a row. *)
Definition visibleb (r : Apartment) : bool :=
  isAvailable r && Repo.isNull (deletedAt r).

(** The table restricted to its visible rows. *)
Definition visibleOnly (repo : Repository) : Repository :=
  {| rows := List.filter visibleb (rows repo); nextId := nextId repo |}.

(** The seeded table after row 2 was marked unavailable by an update and
    row 1 was soft-deleted. *)
Definition seededWithHidden : Repository :=
  fst (ApartmentsService.softDelete Ascii.eqb
         (fst (ApartmentsService.update Ascii.eqb seeded 2 makeUnavailable 1500))
         1 2000 2001).

(** ** Vocabulary of the further statements *)

(** The pagination request for page [page] with [limit] rows per page. *)
Definition pageRequest (page limit : Z) : PaginationDto.t :=
  {| PaginationDto.page := Some page; PaginationDto.limit := Some limit |}.

(** The rows a listing request selects, as a check on a row. *)
Definition selectedBy (collate : ascii -> ascii -> bool)
    (searchDto : SearchApartmentDto.t) (r : Apartment) : bool :=
  Repo.matches collate (ApartmentsService.whereConditions searchDto) r.

(** The order a listing request asks for, on sort keys. *)
Definition keyInOrder (d : SortOrder) (x y : Q) : Prop :=
  match d with ASC => (x <= y)%Q | DESC => (y <= x)%Q end.

(** Primary keys are distinct and below the next generated key. *)
Definition keysFresh (repo : Repository) : Prop :=
  NoDup (map id (rows repo)) /\ Forall (fun r => id r < nextId repo) (rows repo).

(** The collation compares every character equal to itself. *)
Definition reflexiveCollation (collate : ascii -> ascii -> bool) : Prop :=
  forall c, collate c c = true.

(** The collation is an equivalence on characters. *)
Definition equivalenceCollation (collate : ascii -> ascii -> bool) : Prop :=
  (forall c, collate c c = true)
  /\ (forall c d, collate c d = true -> collate d c = true)
  /\ (forall c d e, collate c d = true -> collate d e = true -> collate c e = true).

(** A list of form entries is tidy: no entry twice, none blank, each
    trimmed. *)
Definition tidy (l : list string) : Prop :=
  NoDup l /\ Forall (fun s => s <> EmptyString /\ AddApartment.trim s = s) l.

(** A text of slug characters only: lower-case letters, digits, dashes. *)
Fixpoint slugText (s : string) : bool :=
  match s with
  | EmptyString => true
  | String c s' =>
      (JsString.in_a_z_0_9 c || Ascii.eqb c JsString.dash) && slugText s'
  end.

(** Two dashes in a row somewhere in the text. *)
Fixpoint hasDoubleDash (s : string) : bool :=
  match s with
  | EmptyString => false
  | String c s' =>
      match s' with
      | EmptyString => false
      | String d _ =>
          (Ascii.eqb c JsString.dash && Ascii.eqb d JsString.dash) || hasDoubleDash s'
      end
  end.

Definition startsWithDash (s : string) : bool :=
  match s with String c _ => Ascii.eqb c JsString.dash | EmptyString => false end.

Fixpoint endsWithDash (s : string) : bool :=
  match s with
  | EmptyString => false
  | String c EmptyString => Ascii.eqb c JsString.dash
  | String _ s' => endsWithDash s'
  end.

(** What a user can do with the two list editors of the form.  Each action
    is handled in the render that follows the previous one, so a handler
    sees the state the previous action left. *)
Inductive EditorAction :=
| TypeImage (text : string)
| AddImage
| RemoveImage (index : nat)
| TypeAmenity (text : string)
| AddAmenity
| RemoveAmenity (index : nat).

Definition perform (a : EditorAction) (st : AddApartment.State) : AddApartment.State :=
  match a with
  | TypeImage text => AddApartment.setImageInput text st
  | AddImage => AddApartment.addImage st
  | RemoveImage index => AddApartment.removeImage index st
  | TypeAmenity text => AddApartment.setAmenityInput text st
  | AddAmenity => AddApartment.addAmenity st
  | RemoveAmenity index => AddApartment.removeAmenity index st
  end.

(** The state after a sequence of actions, the first action first. *)
Definition performAll (actions : list EditorAction) (st : AddApartment.State)
    : AddApartment.State :=
  fold_left (fun s a => perform a s) actions st.

(** A piece of a slug: non-empty, lower-case letters and digits only. *)
Fixpoint lettersAndDigits (s : string) : bool :=
  match s with
  | EmptyString => true
  | String c s' => JsString.in_a_z_0_9 c && lettersAndDigits s'
  end.

Definition slugWord (w : string) : Prop :=
  w <> EmptyString /\ lettersAndDigits w = true.

(** Some character of the text is a letter or a digit. *)
Fixpoint anyLetterOrDigit (s : string) : bool :=
  match s with
  | EmptyString => false
  | String c s' => SlugSpec.isAlnum c || anyLetterOrDigit s'
  end.

(** The text starts with a dotted capital I (U+0130, bytes C4 B0) or with a
    Kelvin sign (U+212A, bytes E2 84 AA), the two characters outside ASCII
    whose lower-case form holds an ASCII letter. *)
Definition startsWithLetterSign (s : string) : bool :=
  match s with
  | String c (String d s') =>
      ((JsString.code c =? 196) && (JsString.code d =? 176))%N
      || match s' with
         | String e _ =>
             ((JsString.code c =? 226) && (JsString.code d =? 132)
              && (JsString.code e =? 170))%N
         | EmptyString => false
         end
  | _ => false
  end.

(** The text holds an ASCII letter or digit, a dotted capital I or a Kelvin
    sign. *)
Fixpoint yieldsLetterOrDigit (s : string) : bool :=
  match s with
  | EmptyString => false
  | String c s' =>
      SlugSpec.isAlnum c || startsWithLetterSign (String c s') || yieldsLetterOrDigit s'
  end.

(** The store accepts the update statement: the unit number it sets, if any,
    is not held by a row of another id, so the unique index on [unitNumber]
    does not reject it, and every text it sets fits its column. *)
Definition updateAccepted (collate : ascii -> ascii -> bool) (repo : Repository)
    (i : Z) (dto : UpdateApartmentDto.t) : bool :=
  match UpdateApartmentDto.unitNumber dto with
  | None => true
  | Some number =>
      forallb (fun r => (id r =? i) || negb (textEq collate (unitNumber r) number))
        (rows repo)
  end
  && fitsNullable 255 (UpdateApartmentDto.unitName dto)
  && fitsNullable 100 (UpdateApartmentDto.unitNumber dto)
  && fitsNullable 255 (UpdateApartmentDto.project dto)
  && match UpdateApartmentDto.description dto with
     | Some d => (N.of_nat (String.length d) <=? 65535)%N
     | None => true
     end
  && fitsNullable 255 (UpdateApartmentDto.location dto).

(** A request to one of the endpoints that write to the table.  ([GET
    /apartments/:id] writes the view counter.) *)
Inductive ApiCall :=
| PostApartment (dto : CreateApartmentDto.t) (now : Z)
| PutApartment (i : Z) (dto : UpdateApartmentDto.t) (now : Z)
| DeleteApartment (i : Z) (now : Z) (stamp : Z)
| GetApartment (i : Z) (stamp : Z).

(** The table after a request was served.  A [PUT] that the store rejects
    raises and leaves the table as it was. *)
Definition served (collate : ascii -> ascii -> bool) (call : ApiCall)
    (repo : Repository) : Repository :=
  match call with
  | PostApartment dto now => fst (ApartmentsController.create collate repo dto now)
  | PutApartment i dto now =>
      if updateAccepted collate repo i dto
      then fst (ApartmentsController.update collate repo i dto now)
      else repo
  | DeleteApartment i now stamp =>
      fst (ApartmentsController.remove collate repo i now stamp)
  | GetApartment i stamp => fst (ApartmentsController.findOne collate repo i stamp)
  end.

(** The table after a sequence of requests, the first request first. *)
Definition servedAll (collate : ascii -> ascii -> bool) (calls : list ApiCall)
    (repo : Repository) : Repository :=
  fold_left (fun r call => served collate call r) calls repo.

(** What a row keeps when a request rewrites it. *)
Definition keeps (old new : Apartment) : Prop :=
  id new = id old /\ slug new = slug old /\ createdAt new = createdAt old
  /\ viewCount old <= viewCount new
  /\ (deletedAt old <> None -> deletedAt new <> None).

(** A price as the [DECIMAL(10,2)] column and the request validation have
    it: two decimal places, not negative, at most 10^8. *)
Definition decimalPrice (q : Q) : bool :=
  Qeq_bool (inject_Z (Qfloor (q * 100))) (q * 100)
  && Qle_bool 0 q && Qle_bool q 100000000.

(** Every price of the table is such a decimal. *)
Definition decimalPrices (repo : Repository) : bool :=
  forallb (fun r => decimalPrice (price r)) (rows repo).




(** Rounding to the nearest integer, a half away from zero. *)
Definition roundHalfAway (x : Q) : Z :=
  if Qle_bool 0 x then Qfloor (x + (1 # 2)) else - Qfloor (- x + (1 # 2)).

(** An [avgNumber]: the number the report shows for the [AVG] of a
    [DECIMAL(10,2)] column under MySQL 8, which keeps four places more than
    the column and rounds a half away from zero. *)
Definition mysqlAvg (q : Q) : Q :=
  (inject_Z (roundHalfAway (q * 1000000)) / 1000000)%Q.

(** What the bounds on the average assume of [avgNumber]: a larger mean
    does not read as a smaller number, and the mean of equal prices reads as
    that price. *)
Definition monotoneNumber (f : Q -> Q) : Prop :=
  forall a b, (a <= b)%Q -> (f a <= f b)%Q.

Definition keepsPrices (f : Q -> Q) (repo : Repository) : Prop :=
  Forall (fun r => (f (price r) == price r)%Q) (rows repo).

(** * Properties *)

(** ** The slug *)

Section SlugFacts.

Import JsString SlugSpec.

Local Open Scope string_scope.

Lemma lowerChar_not_upper c : isUpper (lowerChar c) = false.
Proof.
  destruct c as [b0 b1 b2 b3 b4 b5 b6 b7].
  destruct b0, b1, b2, b3, b4, b5, b6, b7; reflexivity.
Qed.

(** The equations of [toLowerCase], by the bytes the text starts with. *)
Lemma toLowerCase_dotted_I s :
  toLowerCase (String (ascii_of_N 196) (String (ascii_of_N 176) s))
  = String "i" (String (ascii_of_N 204) (String (ascii_of_N 135) (toLowerCase s))).
Proof. reflexivity. Qed.

Lemma toLowerCase_kelvin s :
  toLowerCase (String (ascii_of_N 226) (String (ascii_of_N 132) (String (ascii_of_N 170) s)))
  = String "k" (toLowerCase s).
Proof. reflexivity. Qed.

Lemma code_eqb c n : (n < 256)%N -> (code c =? n)%N = true -> c = ascii_of_N n.
Proof.
  intros Hn H. apply N.eqb_eq in H. unfold code in H.
  rewrite <- H. symmetry. apply ascii_N_embedding.
Qed.

(** The three ways [toLowerCase] reads the start of a non-empty text. *)
Lemma toLowerCase_cases c s :
  (exists s', s = String (ascii_of_N 176) s' /\ c = ascii_of_N 196)
  \/ (exists s', s = String (ascii_of_N 132) (String (ascii_of_N 170) s')
                 /\ c = ascii_of_N 226)
  \/ toLowerCase (String c s) = String (lowerChar c) (toLowerCase s).
Proof.
  destruct s as [|d s]; [now right; right|].
  cbn [toLowerCase].
  destruct ((code c =? 196) && (code d =? 176))%N eqn:E1.
  - left. apply andb_prop in E1 as [Hc Hd].
    apply code_eqb in Hc; [|reflexivity]. apply code_eqb in Hd; [|reflexivity].
    subst. now exists s.
  - destruct s as [|e s]; [now right; right|].
    destruct ((code c =? 226) && (code d =? 132) && (code e =? 170))%N eqn:E2.
    + right; left. apply andb_prop in E2 as [E2 He]. apply andb_prop in E2 as [Hc Hd].
      apply code_eqb in Hc; [|reflexivity]. apply code_eqb in Hd; [|reflexivity].
      apply code_eqb in He; [|reflexivity]. subst. now exists s.
    + now right; right.
Qed.

(** Induction on a text along the steps of [toLowerCase]. *)
Lemma toLowerCase_ind (P : string -> Prop) :
  P "" ->
  (forall s, P s -> P (String (ascii_of_N 196) (String (ascii_of_N 176) s))) ->
  (forall s, P s ->
     P (String (ascii_of_N 226) (String (ascii_of_N 132) (String (ascii_of_N 170) s)))) ->
  (forall c s, toLowerCase (String c s) = String (lowerChar c) (toLowerCase s) ->
     P s -> P (String c s)) ->
  forall s, P s.
Proof.
  intros Hempty Hdotted Hkelvin Hchar.
  assert (Hall : forall n s, (String.length s <= n)%nat -> P s).
  { induction n as [|n IH]; intros s Hs.
    - destruct s; [exact Hempty | cbn in Hs; lia].
    - destruct s as [|c s]; [exact Hempty|].
      destruct (toLowerCase_cases c s) as [(s' & -> & ->)|[(s' & -> & ->)|Heq]].
      + apply Hdotted, IH. cbn in Hs. lia.
      + apply Hkelvin, IH. cbn in Hs. lia.
      + apply Hchar; [exact Heq|]. apply IH. cbn in Hs. lia. }
  intros s. now apply (Hall (String.length s)).
Qed.

Lemma toLowerCase_noUpper s : noUpper (toLowerCase s) = true.
Proof.
  induction s as [|s IH|s IH|c s Heq IH] using toLowerCase_ind.
  - reflexivity.
  - rewrite toLowerCase_dotted_I. cbn. exact IH.
  - rewrite toLowerCase_kelvin. cbn. exact IH.
  - rewrite Heq. cbn. now rewrite lowerChar_not_upper, IH.
Qed.

Lemma class_not_dash c : in_a_z_0_9 c = true -> Ascii.eqb c dash = false.
Proof.
  intros H. destruct (Ascii.eqb_spec c dash) as [->|]; [|reflexivity].
  discriminate H.
Qed.

Lemma isAlnum_lower c : isUpper c = false -> isAlnum c = in_a_z_0_9 c.
Proof. unfold isAlnum, in_a_z_0_9. now intros ->. Qed.

Lemma append_cons c s t : String c s +:+ t = String c (s +:+ t).
Proof. reflexivity. Qed.

Lemma append_empty_r s : s +:+ "" = s.
Proof. induction s as [|c s IH]; [reflexivity|]. now rewrite append_cons, IH. Qed.

Lemma append_assoc s1 s2 s3 : (s1 +:+ s2) +:+ s3 = s1 +:+ (s2 +:+ s3).
Proof.
  induction s1 as [|c s1 IH]; [reflexivity|]. now rewrite !append_cons, IH.
Qed.

Lemma dropTrailingDash_append x y :
  y <> "" -> dropTrailingDash (x +:+ y) = x +:+ dropTrailingDash y.
Proof.
  intros Hy. induction x as [|c x IH]; [reflexivity|].
  rewrite !append_cons.
  change (dropTrailingDash (String c (x +:+ y)))
    with (match x +:+ y with
          | EmptyString => if Ascii.eqb c dash then EmptyString else String c (x +:+ y)
          | String _ _ => String c (dropTrailingDash (x +:+ y))
          end).
  destruct (x +:+ y) eqn:E.
  - destruct x; simpl in E; [contradiction | discriminate].
  - now rewrite IH.
Qed.

Lemma pieces_nonempty word s : word <> "" -> pieces word s <> [].
Proof.
  revert word. induction s as [|c s IH]; intros word Hw; simpl.
  - destruct word; [contradiction | discriminate].
  - destruct (isAlnum c).
    + apply IH. destruct word; discriminate.
    + destruct word; [contradiction | discriminate].
Qed.

Lemma concat_cons sep w ws :
  ws <> [] -> String.concat sep (w :: ws) = w +:+ sep +:+ String.concat sep ws.
Proof. destruct ws; [contradiction | reflexivity]. Qed.

Lemma closedWord_snoc word c :
  in_a_z_0_9 c = true -> (word = "" \/ closedWord word) ->
  closedWord (word +:+ String c "").
Proof.
  intros Hc Hw. split.
  - destruct word; discriminate.
  - rewrite dropTrailingDash_append by discriminate.
    simpl. now rewrite (class_not_dash c Hc).
Qed.

Lemma runs_pieces s :
  noUpper s = true ->
  (forall word, closedWord word ->
     dropTrailingDash (word +:+ replaceRuns false s) = String.concat "-" (pieces word s))
  /\ (forall word, closedWord word ->
     dropTrailingDash (word +:+ "-" +:+ replaceRuns true s)
     = String.concat "-" (word :: pieces "" s)).
Proof.
  induction s as [|c s IH]; intros Hs.
  - split; intros word [Hne Hw].
    + simpl. rewrite append_empty_r, Hw. destruct word; [contradiction | reflexivity].
    + simpl. rewrite dropTrailingDash_append by discriminate.
      simpl. apply append_empty_r.
  - simpl in Hs. apply andb_prop in Hs as [Hc Hs].
    apply negb_true_iff in Hc.
    destruct (IH Hs) as [IHa IHb]. clear IH.
    split; intros word Hword.
    + cbn [pieces replaceRuns]. rewrite (isAlnum_lower c Hc). destruct (in_a_z_0_9 c) eqn:Ec.
      * change (String c (replaceRuns false s))
          with (String c "" +:+ replaceRuns false s).
        rewrite <- append_assoc. apply IHa. apply closedWord_snoc; auto.
      * destruct Hword as [Hne Hw]. destruct word as [|d word]; [contradiction|].
        cbn [flush app]. 
        change (String dash (replaceRuns true s)) with ("-" +:+ replaceRuns true s).
        apply IHb. split; [discriminate | exact Hw].
    + cbn [pieces replaceRuns]. rewrite (isAlnum_lower c Hc). destruct (in_a_z_0_9 c) eqn:Ec.
      * change ("" +:+ String c "") with (String c "").
        rewrite concat_cons by (apply pieces_nonempty; discriminate).
        rewrite <- (IHa (String c "")) by (apply (closedWord_snoc "" c Ec); now left).
        change (word +:+ "-" +:+ String c (replaceRuns false s))
          with (word +:+ "-" +:+ (String c "" +:+ replaceRuns false s)).
        rewrite <- append_assoc.
        rewrite dropTrailingDash_append by discriminate.
        now rewrite append_assoc.
      * cbn [flush app]. now apply IHb.
Qed.

Lemma runs_pieces_leading s :
  noUpper s = true ->
  dropTrailingDash (replaceRuns true s) = String.concat "-" (pieces "" s)
  /\ trimDashes (replaceRuns false s) = String.concat "-" (pieces "" s).
Proof.
  induction s as [|c s IH]; intros Hs; [split; reflexivity|].
  pose proof (runs_pieces s) as Hrp.
  simpl in Hs. apply andb_prop in Hs as [Hc Hs]. apply negb_true_iff in Hc.
  destruct (IH Hs) as [IHd IHc]. destruct (Hrp Hs) as [Ha _].
  assert (Hword : in_a_z_0_9 c = true ->
            dropTrailingDash (String c (replaceRuns false s))
            = String.concat "-" (pieces (String c "") s)).
  { intros Ec. apply (Ha (String c "")). apply (closedWord_snoc "" c Ec). now left. }
  split.
  - simpl. rewrite (isAlnum_lower c Hc). destruct (in_a_z_0_9 c) eqn:Ec; auto.
  - unfold trimDashes. simpl. rewrite (isAlnum_lower c Hc).
    destruct (in_a_z_0_9 c) eqn:Ec.
    + simpl. rewrite (class_not_dash c Ec). auto.
    + simpl. exact IHd.
Qed.

Lemma generateSlug_spec unitName unitNumber :
  generateSlug unitName unitNumber = slug_spec unitName unitNumber.
Proof.
  unfold generateSlug, slug_spec.
  apply runs_pieces_leading, toLowerCase_noUpper.
Qed.

End SlugFacts.

Example generateSlug_seed :
  generateSlug "Luxury Studio A1" "A1-001" = "luxury-studio-a1-a1-001"%string.
Proof. reflexivity. Qed.

Example generateSlug_punctuation :
  generateSlug "  --Sky  Tower!!" "#7 " = "sky-tower-7"%string.
Proof. reflexivity. Qed.

Example generateSlug_no_alphanumeric : generateSlug "!!" "--" = ""%string.
Proof. reflexivity. Qed.

(** The Kelvin sign lower-cases to [k]; the dotted capital I to [i] and a
    combining dot, which the slug drops. *)
Example generateSlug_kelvin :
  generateSlug (String (ascii_of_N 226) (String (ascii_of_N 132) (String (ascii_of_N 170) "")))
    "" = "k"%string.
Proof. reflexivity. Qed.

Example generateSlug_dotted_I :
  generateSlug (String (ascii_of_N 196) (String (ascii_of_N 176) "")) "7" = "i-7"%string.
Proof. reflexivity. Qed.

(** ** The repository primitives *)

Section RepoFacts.

Variable collate : ascii -> ascii -> bool.

Lemma In_take {A} (n : nat) (l : list A) x : In x (take n l) -> In x l.
Proof.
  intros H. rewrite <- (firstn_skipn n l). apply in_or_app. now left.
Qed.

Lemma In_drop {A} (n : nat) (l : list A) x : In x (drop n l) -> In x l.
Proof.
  intros H. rewrite <- (firstn_skipn n l). apply in_or_app. now right.
Qed.

Lemma find_In repo o r :
  In r (Repo.find collate repo o) ->
  In r (rows repo) /\ Repo.matches collate (FindManyOptions.where_ o) r = true.
Proof.
  unfold Repo.find. intros H.
  assert (Hs : In r (merge_sort (orderLe (FindManyOptions.order o))
                       (List.filter (Repo.matches collate (FindManyOptions.where_ o))
                          (rows repo)))).
  { destruct (FindManyOptions.take o) as [n|];
      [destruct (0 <? n); [apply In_take in H|]|];
      destruct (FindManyOptions.skip o); try apply In_drop in H; exact H. }
  apply (Permutation_in _ (merge_sort_Permutation _ _)) in Hs.
  now apply filter_In in Hs.
Qed.


(** What the acceptance of a [save] tells. *)
Lemma save_accepted repo entity now repo' saved :
  Repo.save collate repo entity now = inr (repo', saved) ->
  fitsColumns entity = true
  /\ existsb (fun r => textEq collate (unitNumber r) (unitNumber entity)) (rows repo)
     = false
  /\ saved = Repo.inserted repo entity now
  /\ repo' = {| rows := rows repo ++ [saved]; nextId := nextId repo + 1 |}.
Proof.
  unfold Repo.save. destruct (fitsColumns entity); [|discriminate]. cbn [negb].
  destruct (existsb _ _); [discriminate|]. intros [= <- <-]. now repeat split.
Qed.

Lemma save_when_accepted repo entity now :
  fitsColumns entity = true ->
  existsb (fun r => textEq collate (unitNumber r) (unitNumber entity)) (rows repo)
  = false ->
  Repo.save collate repo entity now
  = inr ({| rows := rows repo ++ [Repo.inserted repo entity now];
            nextId := nextId repo + 1 |}, Repo.inserted repo entity now).
Proof. unfold Repo.save. now intros -> ->. Qed.

Lemma orderLeb_total order a b :
  orderLeb order a b = true \/ orderLeb order b a = true.
Proof.
  induction order as [|[c d] order IH]; simpl; [now left|].
  destruct d.
  - rewrite <- (Qcompare_antisym (sortKey c a) (sortKey c b)).
    destruct (sortKey c a ?= sortKey c b)%Q; simpl; auto.
  - rewrite <- (Qcompare_antisym (sortKey c b) (sortKey c a)).
    destruct (sortKey c b ?= sortKey c a)%Q; simpl; auto.
Qed.

Lemma Qcompare_chain x y z :
  (x ?= y)%Q <> Gt -> (y ?= z)%Q <> Gt ->
  (x ?= z)%Q <> Gt
  /\ ((x ?= z)%Q = Eq -> (x ?= y)%Q = Eq /\ (y ?= z)%Q = Eq).
Proof.
  intros Hxy Hyz. apply Qle_alt in Hxy, Hyz. split.
  - apply Qle_alt. now apply Qle_trans with y.
  - intros Hxz. apply Qeq_alt in Hxz.
    assert (Hzx : (z <= x)%Q) by (apply Qle_lteq; right; now symmetry).
    split; apply Qeq_alt; apply Qle_antisym; auto.
    + now apply Qle_trans with z.
    + now apply Qle_trans with x.
Qed.

Lemma compare_step_trans (u v w : Q) (p q r : bool) :
  (p = true -> q = true -> r = true) ->
  match (u ?= v)%Q with Lt => true | Gt => false | Eq => p end = true ->
  match (v ?= w)%Q with Lt => true | Gt => false | Eq => q end = true ->
  match (u ?= w)%Q with Lt => true | Gt => false | Eq => r end = true.
Proof.
  intros Hpqr Huv Hvw.
  assert (Huv' : (u ?= v)%Q <> Gt) by (destruct (u ?= v)%Q; congruence).
  assert (Hvw' : (v ?= w)%Q <> Gt) by (destruct (v ?= w)%Q; congruence).
  destruct (Qcompare_chain u v w Huv' Hvw') as [Hle Heq].
  destruct (u ?= w)%Q eqn:E; [|reflexivity|congruence].
  destruct (Heq eq_refl) as [E1 E2]. rewrite E1 in Huv. rewrite E2 in Hvw. auto.
Qed.

Lemma orderLeb_trans order a b c :
  orderLeb order a b = true -> orderLeb order b c = true ->
  orderLeb order a c = true.
Proof.
  induction order as [|[col d] order IH]; simpl; [reflexivity|].
  intros Hab Hbc. destruct d.
  - exact (compare_step_trans _ _ _ _ _ _ IH Hab Hbc).
  - exact (compare_step_trans _ _ _ _ _ _ (fun q p => IH p q) Hbc Hab).
Qed.

#[local] Instance orderLe_total order : Total (orderLe order).
Proof. intros a b. apply orderLeb_total. Qed.

#[local] Instance orderLe_trans order : Transitive (orderLe order).
Proof. intros a b c. apply orderLeb_trans. Qed.

Lemma StronglySorted_take {A} (R : relation A) n l :
  StronglySorted R l -> StronglySorted R (take n l).
Proof.
  revert l. induction n as [|n IH]; intros l H; [constructor|].
  destruct l as [|x l]; [constructor|]. simpl.
  apply StronglySorted_inv in H as [H1 H2]. constructor; [auto|].
  rewrite Forall_forall in *. intros y Hy. apply H2.
  apply list_elem_of_In. apply list_elem_of_In in Hy. now apply In_take in Hy.
Qed.


Lemma StronglySorted_weaken {A} (R S : relation A) l :
  (forall a b, R a b -> S a b) -> StronglySorted R l -> StronglySorted S l.
Proof.
  intros HRS. induction 1 as [|x l Hl IH Hx]; constructor; [exact IH|].
  eapply Forall_impl; [exact Hx|]. intros; auto.
Qed.


End RepoFacts.

(** ** Text patterns *)

Section LikeFacts.

Variable collate : ascii -> ascii -> bool.

Lemma like_percent_unfold rest subject :
  like collate (String "%" rest) subject
  = like collate rest subject
    || match subject with
       | EmptyString => false
       | String _ subject' => like collate (String "%" rest) subject'
       end.
Proof. destruct subject; reflexivity. Qed.

Lemma like_percent_only subject : like collate "%" subject = true.
Proof.
  induction subject as [|d subject IH]; [reflexivity|].
  rewrite like_percent_unfold. rewrite IH. apply orb_true_r.
Qed.

Lemma like_plain_char c rest subject :
  plainText (String c EmptyString) = true ->
  like collate (String c rest) subject
  = match subject with
    | EmptyString => false
    | String d subject' => collate c d && like collate rest subject'
    end.
Proof.
  simpl. rewrite !andb_true_iff, !negb_true_iff. intros [[[H1 H2] H3] _].
  cbn [like]. rewrite H1, H2, H3. reflexivity.
Qed.

Lemma like_plain_prefix needle subject :
  plainText needle = true ->
  like collate (needle +:+ "%") subject = startsWith collate needle subject.
Proof.
  revert subject. induction needle as [|c needle IH]; intros subject Hp.
  - change ("" +:+ "%") with "%". rewrite like_percent_only. now destruct subject.
  - change (String c needle +:+ "%") with (String c (needle +:+ "%")).
    simpl in Hp. rewrite !andb_true_iff in Hp. destruct Hp as [Hc Hp].
    rewrite like_plain_char
      by (simpl; rewrite !andb_true_iff; repeat split; tauto).
    destruct subject as [|d subject]; [reflexivity|].
    simpl. now rewrite IH.
Qed.

(** For a text without pattern characters, [LIKE '%text%'] is substring
    containment. *)
Lemma like_contains needle subject :
  plainText needle = true ->
  like collate ("%" +:+ needle +:+ "%") subject = contains collate needle subject.
Proof.
  intros Hp. change ("%" +:+ needle +:+ "%") with (String "%" (needle +:+ "%")).
  induction subject as [|d subject IH].
  - rewrite like_percent_unfold, like_plain_prefix by exact Hp.
    simpl. reflexivity.
  - rewrite like_percent_unfold, like_plain_prefix by exact Hp.
    rewrite IH. reflexivity.
Qed.

End LikeFacts.

(** ** Listing: [findAllPaginated] *)

Section ListingFacts.

Variable collate : ascii -> ascii -> bool.

Import ApartmentsService.

Lemma matches_true w r :
  Repo.matches collate w r = true ->
  whenSet (fun op => evalOperator Z.eqb Z.leb op (id r)) (FindOptionsWhere.id w) = true
  /\ whenSet (fun pattern => like collate pattern (unitName r))
       (FindOptionsWhere.unitName w) = true
  /\ whenSet (fun pattern => like collate pattern (project r))
       (FindOptionsWhere.project w) = true
  /\ whenSet (fun op => evalOperator Qeq_bool Qle_bool op (price r))
       (FindOptionsWhere.price w) = true
  /\ whenSet (fun op => evalOperator Z.eqb Z.leb op (bedrooms r))
       (FindOptionsWhere.bedrooms w) = true
  /\ whenSet (fun op => evalOperator Z.eqb Z.leb op (bathrooms r))
       (FindOptionsWhere.bathrooms w) = true
  /\ whenSet (fun b => Bool.eqb (isAvailable r) b) (FindOptionsWhere.isAvailable w) = true
  /\ (if FindOptionsWhere.deletedAtIsNull w then Repo.isNull (deletedAt r) else true) = true.
Proof.
  unfold Repo.matches. rewrite !andb_true_iff. tauto.
Qed.

Lemma isNull_true {A} (o : option A) : Repo.isNull o = true -> o = None.
Proof. destruct o; [discriminate | reflexivity]. Qed.

Lemma eqb_true_r b : Bool.eqb b true = true -> b = true.
Proof. now destruct b. Qed.

(** Every row the listing query selects is visible and passes the filters
    the query applies: search text and project as patterns, the price
    bounds, and the exact bedroom and bathroom counts. *)
Lemma query_applied_filters searchDto r :
  Repo.matches collate (whereConditions searchDto) r = true ->
  visible r
  /\ (forall s, SearchApartmentDto.search searchDto = Some s -> s <> EmptyString ->
        like collate ("%" +:+ s +:+ "%") (unitName r) = true)
  /\ (forall s, SearchApartmentDto.project searchDto = Some s -> s <> EmptyString ->
        like collate ("%" +:+ s +:+ "%") (project r) = true)
  /\ (forall lo, SearchApartmentDto.minPrice searchDto = Some lo -> (lo <= price r)%Q)
  /\ (forall hi, SearchApartmentDto.maxPrice searchDto = Some hi -> (price r <= hi)%Q)
  /\ (forall n, SearchApartmentDto.bedrooms searchDto = Some n -> bedrooms r = n)
  /\ (forall n, SearchApartmentDto.bathrooms searchDto = Some n -> bathrooms r = n).
Proof.
  intros H. apply matches_true in H.
  destruct H as (_ & Hname & Hproj & Hprice & Hbed & Hbath & Hav & Hdel).
  cbn in Hname, Hproj, Hprice, Hbed, Hbath, Hav, Hdel.
  repeat split.
  - now apply eqb_true_r.
  - now apply isNull_true.
  - intros s Hs Hne. rewrite Hs in Hname.
    destruct s; [contradiction | exact Hname].
  - intros s Hs Hne. rewrite Hs in Hproj.
    destruct s; [contradiction | exact Hproj].
  - intros lo Hlo. rewrite Hlo in Hprice.
    destruct (SearchApartmentDto.maxPrice searchDto); cbn in Hprice.
    + apply andb_true_iff in Hprice as [Hp _]. now apply Qle_bool_iff.
    + now apply Qle_bool_iff.
  - intros hi Hhi. rewrite Hhi in Hprice.
    destruct (SearchApartmentDto.minPrice searchDto); cbn in Hprice.
    + apply andb_true_iff in Hprice as [_ Hp]. now apply Qle_bool_iff.
    + now apply Qle_bool_iff.
  - intros n Hn. rewrite Hn in Hbed. cbn in Hbed. now apply Z.eqb_eq.
  - intros n Hn. rewrite Hn in Hbath. cbn in Hbath. now apply Z.eqb_eq.
Qed.

(** The [findAndCount] call names the relation [reviews], which the entity
    does not declare: it raises whatever the table and the request are. *)
Lemma findAllPaginated_raises repo searchDto paginationDto :
  findAllPaginated collate repo searchDto paginationDto = inl EntityPropertyNotFoundError.
Proof. reflexivity. Qed.

Lemma mathCeilDiv_spec total limit :
  1 <= limit ->
  mathCeilDiv total limit = - ((- total) / limit).
Proof.
  intros Hl. unfold mathCeilDiv, Qceiling. f_equal.
  rewrite Zdiv_Qdiv. apply Qfloor_comp.
  rewrite inject_Z_opp. unfold Qdiv. ring.
Qed.

Lemma mathCeilDiv_bounds total limit :
  1 <= limit ->
  (mathCeilDiv total limit - 1) * limit < total <= mathCeilDiv total limit * limit.
Proof.
  intros Hl. rewrite mathCeilDiv_spec by exact Hl.
  pose proof (Z.div_mod (- total) limit ltac:(lia)) as Hdm.
  pose proof (Z.mod_pos_bound (- total) limit ltac:(lia)) as Hb.
  nia.
Qed.

(** The statements after the call, which are never reached, would build the
    metadata from the page, the limit and the total as the specification
    words it. *)
Lemma paginated_metadata searchDto page limit apartments total :
  1 <= limit ->
  let meta :=
    PaginatedApartmentsDto.pagination
      (paginated searchDto (pageRequest page limit) apartments total) in
  Pagination.page meta = page
  /\ Pagination.limit meta = limit
  /\ Pagination.total meta = total
  /\ (Pagination.totalPages meta - 1) * limit < total <= Pagination.totalPages meta * limit
  /\ Pagination.hasNext meta = (page <? Pagination.totalPages meta)
  /\ Pagination.hasPrev meta = (1 <? page)
  /\ FindManyOptions.skip (findOptions searchDto (pageRequest page limit))
     = Some ((page - 1) * limit)
  /\ FindManyOptions.take (findOptions searchDto (pageRequest page limit)) = Some limit.
Proof.
  intros Hl. cbn. pose proof (mathCeilDiv_bounds total limit Hl) as Hceil.
  repeat match goal with |- _ /\ _ => split end; try reflexivity; apply Hceil.
Qed.

(** Claim C9.  Two listing requests that are identical except in [type],
    [furnishing] and [petFriendly] produce identical results: the calls
    answer alike, the queries they send are the same, and so are the
    responses built from one answer of the store. *)
Theorem unsupported_filters_no_effect repo a b paginationDto :
  identicalExceptUnsupported a b ->
  findAllPaginated collate repo a paginationDto
  = findAllPaginated collate repo b paginationDto
  /\ findOptions a paginationDto = findOptions b paginationDto
  /\ (forall apartments total,
        paginated a paginationDto apartments total
        = paginated b paginationDto apartments total).
Proof.
  intros (Hsearch & Hproject & _ & Hmin & Hmax & Hbed & Hbath & _ & _ & Hby & Hord).
  unfold findAllPaginated, paginated, findOptions, whereConditions, sortByOf, sortOrderOf.
  rewrite Hsearch, Hproject, Hmin, Hmax, Hbed, Hbath, Hby, Hord.
  repeat split; reflexivity.
Qed.

Lemma whereConditions_search searchDto s r :
  SearchApartmentDto.search searchDto = Some s -> s <> EmptyString ->
  Repo.matches collate (whereConditions searchDto) r
  = like collate ("%" +:+ s +:+ "%") (unitName r)
    && Repo.matches collate (whereConditions (withoutSearch searchDto)) r.
Proof.
  intros Hs Hne. unfold Repo.matches, whereConditions. cbn. rewrite Hs.
  destruct s as [|c s]; [contradiction|]. cbn.
  now rewrite <- !andb_assoc.
Qed.

(** The search text enters the query as a pattern on the unit name only; for
    a text without the pattern characters [%], [_] and backslash the
    condition is that the unit name contains the text. *)
Lemma search_condition_on_unitName searchDto s r :
  SearchApartmentDto.search searchDto = Some s ->
  s <> EmptyString ->
  plainText s = true ->
  Repo.matches collate (whereConditions searchDto) r
  = contains collate s (unitName r)
    && Repo.matches collate (whereConditions (withoutSearch searchDto)) r.
Proof.
  intros Hs Hne Hplain. rewrite (whereConditions_search searchDto s r Hs Hne).
  now rewrite like_contains.
Qed.

(** [GET /apartments] fails on every request, whatever the table holds: the
    service raises TypeORM's error for the undeclared relation [reviews],
    and the controller answers with an internal server error. *)
Theorem listing_always_fails repo searchDto paginationDto :
  findAllPaginated collate repo searchDto paginationDto = inl EntityPropertyNotFoundError
  /\ ApartmentsController.findAll collate repo searchDto paginationDto
     = inl INTERNAL_SERVER_ERROR.
Proof. split; reflexivity. Qed.

End ListingFacts.

Lemma unsupported_filters_no_effect_witness :
  identicalExceptUnsupported
    (listingRequest (Some "Studio") None None None (Some "Penthouse")
       (Some "Fully Furnished") (Some true))
    (listingRequest (Some "Studio") None None None (Some "Loft") None (Some false))
  /\ ApartmentsService.findAllPaginated Ascii.eqb seeded
       (listingRequest (Some "Studio") None None None (Some "Penthouse")
          (Some "Fully Furnished") (Some true)) defaultPage
     = ApartmentsService.findAllPaginated Ascii.eqb seeded
         (listingRequest (Some "Studio") None None None (Some "Loft") None (Some false))
         defaultPage.
Proof.
  assert (H : identicalExceptUnsupported
                (listingRequest (Some "Studio") None None None (Some "Penthouse")
                   (Some "Fully Furnished") (Some true))
                (listingRequest (Some "Studio") None None None (Some "Loft") None
                   (Some false))).
  { unfold identicalExceptUnsupported. simpl. repeat split; reflexivity. }
  split; [exact H|].
  apply (unsupported_filters_no_effect Ascii.eqb seeded _ _ defaultPage H).
Defined.

(** Claim C1 at a failing input.  A request for location ["Midtown"] and an
    area between 100 and 150 on the seeded table is answered with an error:
    the service raises and the controller answers with an internal server
    error, so no record that satisfies the filters is returned.  The query
    the call sends is the query of the request without filters: it selects
    row 1, in ["Downtown Marina District"] with an area of 45.5. *)
Theorem listing_ignores_location_and_area :
  let request :=
    listingRequest None (Some "Midtown") (Some 100%Q) (Some 150%Q) None None None in
  ApartmentsService.findAllPaginated Ascii.eqb seeded request defaultPage
  = inl EntityPropertyNotFoundError
  /\ ApartmentsController.findAll Ascii.eqb seeded request defaultPage
     = inl INTERNAL_SERVER_ERROR
  /\ ApartmentsService.findOptions request defaultPage
     = ApartmentsService.findOptions noFilters defaultPage
  /\ exists r, In r (rows seeded)
       /\ selectedBy Ascii.eqb request r = true
       /\ location r = Some "Downtown Marina District"%string
       /\ (area r < 100)%Q.
Proof.
  cbv zeta. repeat match goal with |- _ /\ _ => split end; try reflexivity.
  exists (seedRow 1 "Luxury Studio A1" "A1-001" "Marina Heights" 1200 1 1 (91 # 2)
            "Downtown Marina District" 45).
  repeat match goal with |- _ /\ _ => split end; try reflexivity.
  now left.
Qed.

(** Claim C2 at a failing input.  The request for page 1 with 2 rows per
    page on the seeded table, which holds 5 visible rows, is answered with
    an error: no pagination metadata is returned. *)
Theorem pagination_metadata_not_returned :
  ApartmentsService.findAllPaginated Ascii.eqb seeded noFilters (pageRequest 1 2)
  = inl EntityPropertyNotFoundError
  /\ ApartmentsController.findAll Ascii.eqb seeded noFilters (pageRequest 1 2)
     = inl INTERNAL_SERVER_ERROR
  /\ Z.of_nat (length (List.filter (selectedBy Ascii.eqb noFilters) (rows seeded))) = 5.
Proof. repeat split; reflexivity. Qed.

(** Claim C10 at a failing input.  A search for ["Old"] on a table whose one
    row has the project ["Old Town"] and the unit name ["Loft"] is answered
    with an error instead of a listing.  The query the call sends carries
    the search text as the pattern [%Old%] on the unit name and no condition
    on the project. *)
Theorem search_listing_fails :
  let request := listingRequest (Some "Old") None None None None None None in
  let table := {| rows := [loft]; nextId := 2 |} in
  ApartmentsService.findAllPaginated Ascii.eqb table request defaultPage
  = inl EntityPropertyNotFoundError
  /\ ApartmentsController.findAll Ascii.eqb table request defaultPage
     = inl INTERNAL_SERVER_ERROR
  /\ FindOptionsWhere.unitName (ApartmentsService.whereConditions request)
     = Some "%Old%"%string
  /\ FindOptionsWhere.project (ApartmentsService.whereConditions request) = None
  /\ contains Ascii.eqb "Old" (project loft) = true
  /\ selectedBy Ascii.eqb request loft = false.
Proof. cbv zeta. repeat split; reflexivity. Qed.

(** ** Single records: lookup, view counter, soft delete *)

Section RecordFacts.

Variable collate : ascii -> ascii -> bool.

Import ApartmentsService.

Lemma findOneWithDetails_head repo i :
  findOneWithDetails collate repo i = head (List.filter (byIdVisible i) (rows repo)).
Proof.
  unfold findOneWithDetails, Repo.findOne. f_equal.
  apply filter_ext. intros r. unfold Repo.matches, byIdVisible. cbn.
  now rewrite !andb_true_r.
Qed.

Lemma byIdVisible_true i r :
  byIdVisible i r = true <-> id r = i /\ visible r.
Proof.
  unfold byIdVisible, visible. rewrite !andb_true_iff, Z.eqb_eq.
  destruct (isAvailable r), (deletedAt r); cbn; intuition congruence.
Qed.

Lemma head_filter_Some {A} (f : A -> bool) l x :
  head (List.filter f l) = Some x -> In x l /\ f x = true.
Proof.
  intros H. apply filter_In. destruct (List.filter f l) as [|y l']; [discriminate|].
  injection H as ->. now left.
Qed.

Lemma head_filter_None {A} (f : A -> bool) l :
  head (List.filter f l) = None -> Forall (fun x => f x = false) l.
Proof.
  induction l as [|x l IH]; cbn; [constructor|].
  destruct (f x) eqn:E; [discriminate|]. intros H. constructor; auto.
Qed.

Lemma head_filter_map {A} (f : A -> bool) (g : A -> A) l :
  (forall x, f (g x) = f x) ->
  head (List.filter f (map g l)) = option_map g (head (List.filter f l)).
Proof.
  intros Hfg. induction l as [|x l IH]; [reflexivity|].
  cbn. rewrite Hfg. destruct (f x); [reflexivity | exact IH].
Qed.

Lemma findOneWithDetails_Some repo i r :
  findOneWithDetails collate repo i = Some r ->
  In r (rows repo) /\ id r = i /\ visible r.
Proof.
  rewrite findOneWithDetails_head. intros H.
  apply head_filter_Some in H as [Hin H]. now apply byIdVisible_true in H.
Qed.

Lemma findOneWithDetails_None repo i :
  findOneWithDetails collate repo i = None ->
  Forall (fun r => id r = i -> ~ visible r) (rows repo).
Proof.
  rewrite findOneWithDetails_head. intros H. apply head_filter_None in H.
  eapply Forall_impl; [exact H|]. cbn. intros r Hr Hid Hv.
  assert (byIdVisible i r = true) by now apply byIdVisible_true.
  congruence.
Qed.

Lemma byIdVisible_viewed i j n stamp r :
  byIdVisible i (viewed j n stamp r) = byIdVisible i r.
Proof. unfold viewed. now destruct (id r =? j). Qed.

Lemma findOneWithDetails_increment repo i j n stamp :
  findOneWithDetails collate (Repo.increment repo j n stamp) i
  = option_map (viewed j n stamp) (findOneWithDetails collate repo i).
Proof.
  rewrite !findOneWithDetails_head. cbn.
  apply (head_filter_map (byIdVisible i) (viewed j n stamp)).
  intros r. apply byIdVisible_viewed.
Qed.

Lemma withViewCount_same r : withViewCount (viewCount r) r = r.
Proof. now destruct r. Qed.

Lemma jsOrZero v : (if v =? 0 then 0 else v) = v.
Proof. destruct (Z.eqb_spec v 0); congruence. Qed.

Lemma Forall2_map_r {A} (P : A -> A -> Prop) (g : A -> A) l :
  (forall x, P x (g x)) -> Forall2 P l (map g l).
Proof. intros H. induction l; cbn; constructor; auto. Qed.

Lemma controller_findOne_found repo i stamp r :
  findOneWithDetails collate repo i = Some r ->
  ApartmentsController.findOne collate repo i stamp
  = (Repo.increment repo i 1 stamp,
     inr {| FindOneResponse.apartment := r;
            FindOneResponse.similarApartments :=
              findSimilar collate (Repo.increment repo i 1 stamp) i 3 |}).
Proof.
  intros H. unfold ApartmentsController.findOne. rewrite H.
  now rewrite jsOrZero, withViewCount_same.
Qed.

Lemma controller_findOne_missing repo i stamp :
  findOneWithDetails collate repo i = None ->
  ApartmentsController.findOne collate repo i stamp = (repo, inl NOT_FOUND).
Proof. intros H. unfold ApartmentsController.findOne. now rewrite H. Qed.

Lemma viewed_viewed i n m s1 s2 r :
  viewed i m s2 (viewed i n s1 r) = viewed i (n + m) s2 r.
Proof.
  unfold viewed. destruct (id r =? i) eqn:E; cbn; [|now rewrite E].
  rewrite E. destruct r; cbn. unfold withUpdatedAt, withViewCount; cbn. f_equal. lia.
Qed.

Lemma afterThreeFetches_lookup repo i s1 s2 s3 :
  findOneWithDetails collate (afterThreeFetches collate repo i s1 s2 s3) i
  = option_map (viewed i 3 s3) (findOneWithDetails collate repo i).
Proof.
  unfold afterThreeFetches.
  destruct (findOneWithDetails collate repo i) as [r|] eqn:H0.
  - rewrite (controller_findOne_found repo i s1 r H0). cbn [fst].
    pose proof (findOneWithDetails_increment repo i i 1 s1) as H1.
    rewrite H0 in H1. cbn in H1.
    rewrite (controller_findOne_found _ i s2 _ H1). cbn [fst].
    pose proof (findOneWithDetails_increment (Repo.increment repo i 1 s1) i i 1 s2) as H2.
    rewrite H1 in H2. cbn in H2.
    rewrite (controller_findOne_found _ i s3 _ H2). cbn [fst].
    rewrite findOneWithDetails_increment, H2. cbn.
    now rewrite !viewed_viewed.
  - rewrite (controller_findOne_missing repo i s1 H0). cbn [fst].
    rewrite (controller_findOne_missing repo i s2 H0). cbn [fst].
    rewrite (controller_findOne_missing repo i s3 H0). cbn [fst].
    now rewrite H0.
Qed.

(** Claim C3, amended.  [GET /apartments/:id] answers with a stored row of
    that id that is available and not deleted when there is one, and with
    NotFound exactly when there is none.  A successful fetch adds 1 to the
    view count of the rows with that id, sets their [updatedAt] to the
    store's time, and changes nothing else in the table; a NotFound fetch
    leaves the table as it is.  After three fetches the record found at the
    start is found with its view count raised by 3, so from 0 to 3. *)
Theorem getById_fetch repo i stamp s2 s3 :
  match ApartmentsController.findOne collate repo i stamp with
  | (repo', inr response) =>
      In (FindOneResponse.apartment response) (rows repo)
      /\ id (FindOneResponse.apartment response) = i
      /\ visible (FindOneResponse.apartment response)
      /\ Forall2 (fun old new =>
                    (id old <> i -> new = old)
                    /\ (id old = i ->
                        new = withUpdatedAt stamp (withViewCount (viewCount old + 1) old)))
           (rows repo) (rows repo')
      /\ nextId repo' = nextId repo
  | (repo', inl status) =>
      status = NOT_FOUND
      /\ repo' = repo
      /\ Forall (fun r => id r = i -> ~ visible r) (rows repo)
  end
  /\ findOneWithDetails collate (afterThreeFetches collate repo i stamp s2 s3) i
     = option_map (fun r => withUpdatedAt s3 (withViewCount (viewCount r + 3) r))
         (findOneWithDetails collate repo i)
  /\ (forall r, findOneWithDetails collate repo i = Some r -> viewCount r = 0 ->
      option_map viewCount
        (findOneWithDetails collate (afterThreeFetches collate repo i stamp s2 s3) i)
      = Some 3).
Proof.
  assert (H3 : findOneWithDetails collate (afterThreeFetches collate repo i stamp s2 s3) i
               = option_map (fun r => withUpdatedAt s3 (withViewCount (viewCount r + 3) r))
                   (findOneWithDetails collate repo i)).
  { rewrite afterThreeFetches_lookup.
    destruct (findOneWithDetails collate repo i) as [r|] eqn:H0; [|reflexivity].
    apply findOneWithDetails_Some in H0 as (_ & Hid & _).
    cbn. unfold viewed. apply Z.eqb_eq in Hid. now rewrite Hid. }
  split; [|split; [exact H3|]].
  - destruct (findOneWithDetails collate repo i) as [r|] eqn:H0.
    + rewrite (controller_findOne_found repo i stamp r H0). cbn.
      destruct (findOneWithDetails_Some repo i r H0) as (Hin & Hid & Hv).
      repeat match goal with |- _ /\ _ => split end; auto.
      apply Forall2_map_r. intros x.
      destruct (Z.eqb_spec (id x) i); split; congruence.
    + rewrite (controller_findOne_missing repo i stamp H0).
      repeat match goal with |- _ /\ _ => split end; auto.
      now apply findOneWithDetails_None.
  - intros r Hr Hv. rewrite H3, Hr. cbn. now rewrite Hv.
Qed.

End RecordFacts.

Example three_fetches_from_zero :
  let repo := {| rows := [loft]; nextId := 2 |} in
  option_map viewCount (ApartmentsService.findOneWithDetails Ascii.eqb repo 1) = Some 0
  /\ option_map viewCount
       (ApartmentsService.findOneWithDetails Ascii.eqb
          (afterThreeFetches Ascii.eqb repo 1 5000 6000 7000) 1) = Some 3
  /\ snd (ApartmentsController.findOne Ascii.eqb repo 7 5000) = inl NOT_FOUND.
Proof. cbv zeta. repeat split. Qed.

(** Claim C3 as stated fails: a successful fetch of row 1 of the seeded
    table at the store's time 7000 does not only raise the view count, it
    also moves [updatedAt] from 1001 to 7000, so the stored row is not the
    old row with one more view. *)
Lemma fetch_stamps_updatedAt_counterexample :
  let old := seedRow 1 "Luxury Studio A1" "A1-001" "Marina Heights" 1200 1 1 (91 # 2)
               "Downtown Marina District" 45 in
  let served := ApartmentsController.findOne Ascii.eqb seeded 1 7000 in
  In old (rows seeded)
  /\ option_map FindOneResponse.apartment
       (match snd served with inr response => Some response | inl _ => None end)
     = Some old
  /\ ~ In (withViewCount (viewCount old + 1) old) (rows (fst served))
  /\ exists new, In new (rows (fst served))
       /\ id new = 1 /\ viewCount new = viewCount old + 1
       /\ updatedAt old = 1001 /\ updatedAt new = 7000.
Proof.
  cbv zeta. split; [now left|]. split; [reflexivity|]. split.
  - intros H. cbn in H.
    repeat (destruct H as [H|H]; [discriminate H|]). exact H.
  - eexists. split; [left; reflexivity|]. repeat split.
Qed.

(** ** Soft delete and the state invariant *)

Section SoftDeleteFacts.

Variable collate : ascii -> ascii -> bool.

Import ApartmentsService.

Lemma patch_softDelete now stamp r :
  Repo.stampUpdate stamp (softDeletePartial now) (patch (softDeletePartial now) r)
  = softDeleted now stamp r.
Proof. reflexivity. Qed.

Lemma byIdVisible_softDeleted i now stamp r :
  byIdVisible i (softDeleted now stamp r) = false.
Proof. unfold byIdVisible. cbn. apply andb_false_r. Qed.

Lemma softDelete_found repo i now stamp r :
  findOneWithDetails collate repo i = Some r ->
  softDelete collate repo i now stamp
  = ({| rows := map (fun x => if id x =? i then softDeleted now stamp x else x)
                  (rows repo);
        nextId := nextId repo |}, true).
Proof. intros H. unfold softDelete. now rewrite H. Qed.

Lemma no_visible_after_softDelete repo i now stamp :
  Forall (fun r => byIdVisible i r = false)
    (map (fun x => if id x =? i then softDeleted now stamp x else x) (rows repo)).
Proof.
  apply Forall_forall. intros y Hy. apply list_elem_of_In in Hy.
  apply in_map_iff in Hy as (x & <- & _).
  destruct (id x =? i) eqn:E; [apply byIdVisible_softDeleted|].
  unfold byIdVisible. now rewrite E.
Qed.

Lemma filter_none {A} (f : A -> bool) l :
  Forall (fun x => f x = false) l -> List.filter f l = [].
Proof.
  induction 1 as [|x l Hx _ IH]; [reflexivity|]. cbn. now rewrite Hx.
Qed.

Lemma findOneWithDetails_hidden repo i :
  Forall (fun r => byIdVisible i r = false) (rows repo) ->
  findOneWithDetails collate repo i = None.
Proof.
  intros H. rewrite findOneWithDetails_head. now rewrite (filter_none _ _ H).
Qed.

(** A row that [findOneWithDetails] does not see for its id is selected by
    no [where] object that asks for available, non-deleted rows. *)
Lemma hidden_not_matched i w r :
  byIdVisible i r = false -> id r = i ->
  FindOptionsWhere.isAvailable w = Some true ->
  FindOptionsWhere.deletedAtIsNull w = true ->
  Repo.matches collate w r = false.
Proof.
  intros Hh Hid Hav Hdel. unfold byIdVisible in Hh.
  apply Z.eqb_eq in Hid. rewrite Hid in Hh. cbn in Hh.
  unfold Repo.matches. rewrite Hav, Hdel. cbn.
  destruct (Bool.eqb (isAvailable r) true), (Repo.isNull (deletedAt r));
    try discriminate; now rewrite ?andb_false_r.
Qed.

(** Claim C5, amended.  A soft delete of an available, non-deleted record at
    time [now], run by the store at time [stamp], answers true, turns every
    row of that id into the same row with [isAvailable = false],
    [deletedAt = now] and [updatedAt = stamp], and leaves every other row
    and the key counter as they are.  The record is still stored,
    unavailable and marked deleted.  A second soft delete answers false and
    changes nothing, which [DELETE /apartments/:id] reports as NotFound;
    [GET /apartments/:id] reports NotFound and changes nothing; no listing
    query selects a row of that id, and neither the by-project list nor the
    featured list (for a limit that is not negative) contains one. *)
Theorem softDelete_effect repo i now stamp later laterStamp r :
  findOneWithDetails collate repo i = Some r ->
  let repo' := fst (softDelete collate repo i now stamp) in
  snd (softDelete collate repo i now stamp) = true
  /\ Forall2 (fun old new =>
                (id old <> i -> new = old)
                /\ (id old = i -> new = softDeleted now stamp old))
       (rows repo) (rows repo')
  /\ nextId repo' = nextId repo
  /\ In (softDeleted now stamp r) (rows repo')
  /\ isAvailable (softDeleted now stamp r) = false
  /\ deletedAt (softDeleted now stamp r) = Some now
  /\ softDelete collate repo' i later laterStamp = (repo', false)
  /\ ApartmentsController.remove collate repo' i later laterStamp
     = (repo', inl NOT_FOUND)
  /\ ApartmentsController.findOne collate repo' i laterStamp = (repo', inl NOT_FOUND)
  /\ (forall searchDto,
        Forall (fun row => id row = i -> selectedBy collate searchDto row = false)
          (rows repo'))
  /\ (forall projectName,
        Forall (fun listed => id listed <> i) (findByProject collate repo' projectName))
  /\ (forall limit,
        0 <= limit ->
        Forall (fun listed => id listed <> i)
          (getFeaturedApartments collate repo' limit)).
Proof.
  intros Hfound. rewrite (softDelete_found repo i now stamp r Hfound). cbn [fst snd].
  set (repo' := {| rows := map (fun x => if id x =? i then softDeleted now stamp x else x)
                             (rows repo);
                   nextId := nextId repo |}).
  destruct (findOneWithDetails_Some collate repo i r Hfound) as (Hin & Hid & _).
  assert (Hhidden : Forall (fun x => byIdVisible i x = false) (rows repo'))
    by apply no_visible_after_softDelete.
  assert (Hnone : findOneWithDetails collate repo' i = None)
    by now apply findOneWithDetails_hidden.
  assert (Hfind : forall o,
             FindOptionsWhere.isAvailable (FindManyOptions.where_ o) = Some true ->
             FindOptionsWhere.deletedAtIsNull (FindManyOptions.where_ o) = true ->
             Forall (fun listed => id listed <> i) (Repo.find collate repo' o)).
  { intros o Hav Hdel. apply Forall_forall. intros x Hx Hidx.
    apply list_elem_of_In in Hx. apply find_In in Hx as [Hrow Hm].
    rewrite Forall_forall in Hhidden. apply list_elem_of_In, Hhidden in Hrow.
    rewrite (hidden_not_matched i _ x Hrow Hidx Hav Hdel) in Hm. discriminate. }
  repeat match goal with |- _ /\ _ => split end; try reflexivity.
  - apply Forall2_map_r. intros x.
    destruct (Z.eqb_spec (id x) i); split; congruence.
  - cbn. apply in_map_iff. exists r. split; [|exact Hin].
    apply Z.eqb_eq in Hid. now rewrite Hid.
  - unfold softDelete. now rewrite Hnone.
  - unfold ApartmentsController.remove, softDelete. now rewrite Hnone.
  - now apply controller_findOne_missing.
  - intros searchDto. eapply Forall_impl; [exact Hhidden|].
    intros x Hx Hidx. cbv beta in Hx.
    now apply (hidden_not_matched i _ x Hx Hidx).
  - intros projectName. now apply Hfind.
  - intros limit _. now apply Hfind.
Qed.

Lemma softDeleteInvariantb_spec repo :
  softDeleteInvariantb repo = true <-> softDeleteInvariant repo.
Proof.
  unfold softDeleteInvariantb, softDeleteInvariant.
  rewrite forallb_forall, Forall_forall.
  split; intros H r Hr.
  - apply list_elem_of_In in Hr. specialize (H r Hr).
    unfold deletedImpliesUnavailable.
    destruct (deletedAt r), (isAvailable r); cbn in *; congruence.
  - apply list_elem_of_In in Hr. specialize (H r Hr).
    unfold deletedImpliesUnavailable in H.
    destruct (deletedAt r), (isAvailable r); cbn in *; try reflexivity.
    symmetry. apply H. discriminate.
Qed.

Lemma Forall_map_pointwise {A} (P : A -> Prop) (g : A -> A) l :
  (forall x, P x -> P (g x)) -> Forall P l -> Forall P (map g l).
Proof. intros H. induction 1; cbn; constructor; auto. Qed.

Lemma create_preserves_invariant repo dto now repo' saved :
  softDeleteInvariant repo ->
  create collate repo dto now = inr (repo', saved) ->
  softDeleteInvariant repo'.
Proof.
  unfold create, softDeleteInvariant. intros Hinv Hsave.
  apply save_accepted in Hsave as (_ & _ & -> & ->). cbn.
  apply Forall_app. split; [exact Hinv|].
  constructor; [|constructor]. intros H. now cbn in H.
Qed.

Lemma softDelete_preserves_invariant repo i now stamp :
  softDeleteInvariant repo ->
  softDeleteInvariant (fst (softDelete collate repo i now stamp)).
Proof.
  unfold softDelete, softDeleteInvariant. intros Hinv.
  destruct (findOneWithDetails collate repo i); [|exact Hinv]. cbn.
  apply Forall_map_pointwise; [|exact Hinv].
  intros x Hx. destruct (id x =? i); [|exact Hx]. now intros _.
Qed.

Lemma incrementViewCount_preserves_invariant repo i stamp :
  softDeleteInvariant repo ->
  softDeleteInvariant (incrementViewCount repo i stamp).
Proof.
  unfold softDeleteInvariant. intros Hinv. cbn.
  apply Forall_map_pointwise; [|exact Hinv].
  intros x Hx. destruct (id x =? i); [|exact Hx]. exact Hx.
Qed.

(** An update keeps the invariant when it does not set [isAvailable] to
    true. *)
Lemma update_preserves_invariant repo i dto now :
  UpdateApartmentDto.isAvailable dto <> Some true ->
  softDeleteInvariant repo ->
  softDeleteInvariant (fst (update collate repo i dto now)).
Proof.
  unfold softDeleteInvariant. intros Hdto Hinv. cbn.
  apply Forall_map_pointwise; [|exact Hinv].
  intros x Hx. destruct (id x =? i); [|exact Hx].
  unfold deletedImpliesUnavailable in *. cbn.
  destruct (UpdateApartmentDto.isAvailable dto) as [[|]|]; cbn; auto; congruence.
Qed.

(** The writes other than an update that makes a record available keep the
    invariant that a row marked deleted is unavailable: [POST /apartments],
    [softDelete], [incrementViewCount], the fetch of [GET /apartments/:id],
    and an update the store accepts that does not set [isAvailable] to
    true. *)
Theorem softDeleteInvariant_preserved repo i createDto updateDto now stamp :
  softDeleteInvariant repo ->
  softDeleteInvariant (fst (ApartmentsController.create collate repo createDto now))
  /\ softDeleteInvariant (fst (softDelete collate repo i now stamp))
  /\ softDeleteInvariant (incrementViewCount repo i stamp)
  /\ softDeleteInvariant (fst (ApartmentsController.findOne collate repo i stamp))
  /\ (updateAccepted collate repo i updateDto = true ->
      UpdateApartmentDto.isAvailable updateDto <> Some true ->
      softDeleteInvariant (fst (update collate repo i updateDto now))).
Proof.
  intros Hinv. repeat match goal with |- _ /\ _ => split end.
  - unfold ApartmentsController.create.
    destruct (create collate repo createDto now) as [[]|[repo' saved]] eqn:Hc;
      try exact Hinv.
    cbn [fst]. exact (create_preserves_invariant repo createDto now repo' saved Hinv Hc).
  - now apply softDelete_preserves_invariant.
  - now apply incrementViewCount_preserves_invariant.
  - unfold ApartmentsController.findOne.
    destruct (findOneWithDetails collate repo i); [|exact Hinv].
    cbn [fst]. now apply incrementViewCount_preserves_invariant.
  - intros _ Hdto. now apply update_preserves_invariant.
Qed.

End SoftDeleteFacts.

Lemma seeded_softDeleteInvariant : softDeleteInvariant seeded.
Proof. apply softDeleteInvariantb_spec. reflexivity. Qed.

Lemma softDeleteInvariant_preserved_witness :
  softDeleteInvariant (fst (ApartmentsService.softDelete Ascii.eqb seeded 1 2000 2001)).
Proof.
  apply (softDeleteInvariant_preserved Ascii.eqb seeded 1 newStudio makeUnavailable
           2000 2001 seeded_softDeleteInvariant).
Defined.

Lemma softDelete_effect_witness :
  ApartmentsService.findOneWithDetails Ascii.eqb seeded 1
  = Some (seedRow 1 "Luxury Studio A1" "A1-001" "Marina Heights" 1200 1 1 (91 # 2)
            "Downtown Marina District" 45)
  /\ ApartmentsController.remove Ascii.eqb
       (fst (ApartmentsService.softDelete Ascii.eqb seeded 1 2000 2001)) 1 3000 3001
     = (fst (ApartmentsService.softDelete Ascii.eqb seeded 1 2000 2001), inl NOT_FOUND).
Proof.
  assert (H : ApartmentsService.findOneWithDetails Ascii.eqb seeded 1
              = Some (seedRow 1 "Luxury Studio A1" "A1-001" "Marina Heights" 1200 1 1
                        (91 # 2) "Downtown Marina District" 45)) by reflexivity.
  split; [exact H|].
  apply (softDelete_effect Ascii.eqb seeded 1 2000 2001 3000 3001 _ H).
Defined.

(** Claim C5 as stated fails: the soft delete of row 1 of the seeded table
    at time 2000, run by the store at time 2001, changes a third field of
    the record: [updatedAt] moves from 1001 to 2001. *)
Lemma softDelete_stamps_updatedAt_counterexample :
  let old := seedRow 1 "Luxury Studio A1" "A1-001" "Marina Heights" 1200 1 1 (91 # 2)
               "Downtown Marina District" 45 in
  let deleted := ApartmentsService.softDelete Ascii.eqb seeded 1 2000 2001 in
  In old (rows seeded)
  /\ snd deleted = true
  /\ exists new, In new (rows (fst deleted))
       /\ id new = 1 /\ isAvailable new = false /\ deletedAt new = Some 2000
       /\ updatedAt old = 1001 /\ updatedAt new = 2001.
Proof.
  cbv zeta. split; [now left|]. split; [reflexivity|].
  eexists. split; [left; reflexivity|]. repeat split.
Qed.

(** Claim C6 at a failing input.  Row 1 of the seeded table is soft-deleted,
    then [update] is called for it with [isAvailable = true]: the service
    answers that there is no such apartment, yet the stored row is now
    available while still marked deleted. *)
Lemma update_breaks_softDelete_invariant :
  let deleted := fst (ApartmentsService.softDelete Ascii.eqb seeded 1 2000 2001) in
  let updated := ApartmentsService.update Ascii.eqb deleted 1 makeAvailable 3000 in
  softDeleteInvariantb seeded = true
  /\ softDeleteInvariantb deleted = true
  /\ snd updated = None
  /\ softDeleteInvariantb (fst updated) = false
  /\ exists r, In r (rows (fst updated))
       /\ id r = 1 /\ deletedAt r = Some 2000 /\ isAvailable r = true.
Proof.
  cbv zeta. repeat match goal with |- _ /\ _ => split end; try reflexivity.
  eexists. split; [left; reflexivity|]. repeat split.
Qed.

(** ** JavaScript numbers *)

Section NumberFacts.

Import JsNumber.







End NumberFacts.

Section BandFacts.

Import JsNumber.


Lemma decimalPrice_cents q :
  decimalPrice q = true ->
  (q * 100 == inject_Z (Qfloor (q * 100)))%Q /\ (0 <= q)%Q /\ (q <= 100000000)%Q.
Proof.
  unfold decimalPrice. intros H.
  apply andb_prop in H as [H Hhi]. apply andb_prop in H as [Hc Hlo].
  apply Qeq_bool_iff in Hc. apply Qle_bool_iff in Hlo, Hhi.
  split; [now symmetry | split; assumption].
Qed.


End BandFacts.

(** ** Similar records, creation and update *)

Section SimilarFacts.

Variable collate : ascii -> ascii -> bool.

Import ApartmentsService.





End SimilarFacts.




Example update_keeps_slug_when_renamed :
  let updated :=
    ApartmentsService.update Ascii.eqb seeded 1 (rename "Garden Flat" "G-9") 3000 in
  option_map unitName (snd updated) = Some "Garden Flat"%string
  /\ option_map unitNumber (snd updated) = Some "G-9"%string
  /\ option_map slug (snd updated) = Some (Some "luxury-studio-a1-a1-001"%string)
  /\ generateSlug "Garden Flat" "G-9" = "garden-flat-g-9"%string.
Proof. cbv zeta. repeat split. Qed.

Example create_stores_slug :
  match ApartmentsService.create Ascii.eqb seeded newStudio 3000 with
  | inr (_, saved) =>
      id saved = 6 /\ slug saved = Some "luxury-studio-a2-a2-002"%string
      /\ viewCount saved = 0
  | inl _ => False
  end.
Proof. cbn. repeat split. Qed.

(** The band of [findSimilar] for a price of 1200, in doubles. *)
Example double_band :
  (JsNumber.toDouble (2 # 10) == 3602879701896397 # 18014398509481984)%Q
  /\ (JsNumber.toDouble (1200 - JsNumber.toDouble (1200 * JsNumber.toDouble (2 # 10)))
      == 960)%Q
  /\ (JsNumber.toDouble (7250 # 3) == 5314306200917333 # 2199023255552)%Q.
Proof. repeat split; vm_compute; reflexivity. Qed.

(** ** Statistics *)

Section StatisticsFacts.

Variable collate : ascii -> ascii -> bool.

Import ApartmentsService.

Lemma availableRows_visibleb repo :
  availableRows repo = List.filter visibleb (rows repo).
Proof.
  unfold availableRows. apply filter_ext. intros r. unfold visibleb.
  now destruct (isAvailable r).
Qed.

Lemma filter_idem {A} (f : A -> bool) l :
  List.filter f (List.filter f l) = List.filter f l.
Proof.
  induction l as [|x l IH]; [reflexivity|]. cbn.
  destruct (f x) eqn:E; [|exact IH]. cbn. now rewrite E, IH.
Qed.

Lemma availableRows_visibleOnly repo :
  availableRows (visibleOnly repo) = availableRows repo.
Proof. rewrite !availableRows_visibleb. cbn. apply filter_idem. Qed.

Lemma length_filter_split {A} (f g : A -> bool) l :
  (length (List.filter g l)
   = length (List.filter (fun x => f x && g x) l)
     + length (List.filter (fun x => negb (f x) && g x) l))%nat.
Proof.
  induction l as [|x l IH]; [reflexivity|]. cbn.
  destruct (f x), (g x); cbn; lia.
Qed.

Lemma fold_left_Qmin_le l x :
  (fold_left Qmin l x <= x)%Q
  /\ Forall (fun y => (fold_left Qmin l x <= y)%Q) l.
Proof.
  revert x. induction l as [|y l IH]; intros x; cbn.
  - split; [apply Qle_refl | constructor].
  - destruct (IH (Qmin x y)) as [H1 H2]. split.
    + eapply Qle_trans; [exact H1 | apply Q.le_min_l].
    + constructor; [eapply Qle_trans; [exact H1 | apply Q.le_min_r] | exact H2].
Qed.

Lemma fold_left_Qmax_ge l x :
  (x <= fold_left Qmax l x)%Q
  /\ Forall (fun y => (y <= fold_left Qmax l x)%Q) l.
Proof.
  revert x. induction l as [|y l IH]; intros x; cbn.
  - split; [apply Qle_refl | constructor].
  - destruct (IH (Qmax x y)) as [H1 H2]. split.
    + eapply Qle_trans; [apply Q.le_max_l | exact H1].
    + constructor; [eapply Qle_trans; [apply Q.le_max_r | exact H1] | exact H2].
Qed.

Lemma sqlMin_lower_bound l :
  Forall (fun y => (orZero (sqlMin l) <= y)%Q) l.
Proof.
  destruct l as [|x l]; [constructor|]. cbn.
  destruct (fold_left_Qmin_le l x) as [H1 H2]. now constructor.
Qed.

Lemma sqlMax_upper_bound l :
  Forall (fun y => (y <= orZero (sqlMax l))%Q) l.
Proof.
  destruct l as [|x l]; [constructor|]. cbn.
  destruct (fold_left_Qmax_ge l x) as [H1 H2]. now constructor.
Qed.

End StatisticsFacts.


(** * Further properties *)

(** ** Listings by project and by popularity *)

Section BrowseFacts.

Variable collate : ascii -> ascii -> bool.

Import ApartmentsService.

Lemma length_merge_sort {A} (R : relation A) `{forall x y, Decision (R x y)} (l : list A) :
  length (merge_sort R l) = length l.
Proof. apply Permutation_length, merge_sort_Permutation. Qed.

Lemma orderLe_single c d a b :
  orderLe [(c, d)] a b -> keyInOrder d (sortKey c a) (sortKey c b).
Proof.
  unfold orderLe, keyInOrder. cbn. destruct d; intros H; apply Qle_alt;
    intros Hgt; rewrite Hgt in H; discriminate.
Qed.

Lemma sorted_result_strongly order (l : list Apartment) :
  StronglySorted (orderLe order) (merge_sort (orderLe order) l).
Proof.
  apply StronglySorted_merge_sort.
  - intros a b c. apply orderLeb_trans.
  - intros a b. apply orderLeb_total.
Qed.

Lemma byViewsThenNewest a b :
  orderLe [(ByViewCount, DESC); (ByCreatedAt, DESC)] a b ->
  viewCount b < viewCount a
  \/ (viewCount a = viewCount b /\ createdAt b <= createdAt a).
Proof.
  unfold orderLe. cbn.
  destruct (Qcompare_spec (inject_Z (viewCount b)) (inject_Z (viewCount a)))
    as [He|Hlt|Hgt]; intros H.
  - right. rewrite inject_Z_injective in He. split; [congruence|].
    rewrite Zle_Qle. apply Qle_alt. intros Hc. rewrite Hc in H. discriminate.
  - left. now rewrite Zlt_Qlt.
  - discriminate.
Qed.

(** [findByProject] returns exactly the rows that are available, not
    deleted and whose project matches the pattern [%projectName%], each as
    often as it is stored, newest first.  For a name without pattern
    characters these are the rows whose project contains the name. *)
Theorem findByProject_result repo projectName :
  let found := findByProject collate repo projectName in
  found ≡ₚ List.filter
             (fun r => visibleb r
                       && like collate ("%" +:+ projectName +:+ "%") (project r))
             (rows repo)
  /\ StronglySorted (fun a b => createdAt b <= createdAt a) found
  /\ (plainText projectName = true ->
      forall r, In r found
                <-> In r (rows repo) /\ visible r
                    /\ contains collate projectName (project r) = true).
Proof.
  cbv zeta. unfold findByProject, Repo.find. cbn.
  set (selected := Repo.matches collate _).
  assert (Hsel : forall r, selected r
                           = visibleb r
                             && like collate ("%" +:+ projectName +:+ "%") (project r)).
  { intros r. unfold selected, Repo.matches, visibleb. cbn.
    destruct (isAvailable r), (like collate _ (project r)), (Repo.isNull (deletedAt r));
      reflexivity. }
  assert (Hperm : merge_sort (orderLe [(ByCreatedAt, DESC)]) (List.filter selected (rows repo))
                  ≡ₚ List.filter
                       (fun r => visibleb r
                                 && like collate ("%" +:+ projectName +:+ "%") (project r))
                       (rows repo)).
  { rewrite merge_sort_Permutation. now rewrite (filter_ext _ _ Hsel). }
  split; [exact Hperm|]. split.
  - eapply StronglySorted_weaken; [|apply sorted_result_strongly].
    intros a b H. apply orderLe_single in H. cbn in H. now rewrite Zle_Qle.
  - intros Hplain r. split.
    + intros Hin. apply (Permutation_in _ Hperm) in Hin.
      apply filter_In in Hin as [Hrow Hm].
      apply andb_true_iff in Hm as [Hv Hl]. rewrite like_contains in Hl by exact Hplain.
      unfold visibleb in Hv. apply andb_true_iff in Hv as [Ha Hd].
      repeat split; auto. now apply isNull_true.
    + intros (Hrow & [Ha Hd] & Hc).
      apply (Permutation_in _ (Permutation_sym Hperm)).
      apply filter_In. split; [exact Hrow|].
      rewrite like_contains by exact Hplain. unfold visibleb.
      now rewrite Ha, Hd, Hc.
Qed.

Lemma In_take_or_drop {A} (n : nat) (l : list A) x :
  In x l -> In x (take n l) \/ In x (drop n l).
Proof. intros H. rewrite <- (take_drop n l) in H. now apply in_app_or in H. Qed.

(** [GET /apartments/featured/recommendations] with an effective limit of at
    least 1 (6 when none is given) returns [min(limit, number of visible
    rows)] rows, all of them stored, available and not deleted, ordered by
    view count descending and, among equal view counts, newest first; a
    visible row that is left out has at most the view count of every row
    returned. *)
Theorem featured_result repo (limit : option Z) :
  let effective := match limit with Some n => n | None => 6 end in
  let featured := ApartmentsController.getFeatured collate repo limit in
  1 <= effective ->
  Z.of_nat (length featured)
  = Z.min effective (Z.of_nat (length (List.filter visibleb (rows repo))))
  /\ Forall (fun r => In r (rows repo) /\ visible r) featured
  /\ StronglySorted
       (fun a b => viewCount b < viewCount a
                   \/ (viewCount a = viewCount b /\ createdAt b <= createdAt a))
       featured
  /\ (forall r, In r (rows repo) -> visible r -> ~ In r featured ->
      Forall (fun f => viewCount r <= viewCount f) featured).
Proof.
  intros effective featured Heff.
  unfold featured, ApartmentsController.getFeatured, getFeaturedApartments, Repo.find.
  cbn. fold effective.
  set (selected := Repo.matches collate _).
  assert (Hsel : forall r, selected r = visibleb r).
  { intros r. unfold selected, Repo.matches, visibleb. cbn.
    now destruct (isAvailable r). }
  rewrite (filter_ext _ _ Hsel).
  replace (0 <? effective) with true by (symmetry; apply Z.ltb_lt; lia).
  set (order := [(ByViewCount, DESC); (ByCreatedAt, DESC)]).
  set (sorted := merge_sort (orderLe order) (List.filter visibleb (rows repo))).
  assert (Hperm : sorted ≡ₚ List.filter visibleb (rows repo))
    by apply merge_sort_Permutation.
  assert (Hsorted : StronglySorted (orderLe order) sorted)
    by apply sorted_result_strongly.
  repeat match goal with |- _ /\ _ => split end.
  - rewrite length_take. unfold sorted. rewrite length_merge_sort. lia.
  - apply Forall_forall. intros r Hr. apply list_elem_of_In, In_take in Hr.
    apply (Permutation_in _ Hperm), filter_In in Hr as [Hrow Hv].
    unfold visibleb in Hv. apply andb_true_iff in Hv as [Ha Hd].
    repeat split; auto. now apply isNull_true.
  - eapply StronglySorted_weaken; [intros a b; apply byViewsThenNewest|].
    now apply StronglySorted_take.
  - intros r Hrow [Ha Hd] Hout.
    assert (Hin : In r sorted).
    { apply (Permutation_in _ (Permutation_sym Hperm)), filter_In.
      split; [exact Hrow|]. unfold visibleb. now rewrite Ha, Hd. }
    apply (In_take_or_drop (Z.to_nat effective)) in Hin as [Hin|Hin]; [contradiction|].
    apply Forall_forall. intros f Hf.
    rewrite <- (take_drop (Z.to_nat effective) sorted) in Hsorted.
    apply list_elem_of_In in Hin.
    pose proof (StronglySorted_app_1_elem_of _ _ _ f r Hsorted Hf Hin) as Hle.
    apply byViewsThenNewest in Hle. lia.
Qed.


End BrowseFacts.

Example featured_limit_zero_on_seeded :
  map id (ApartmentsController.getFeatured Ascii.eqb seeded (Some 0)) = [3; 1; 2; 4; 5]
  /\ map id (ApartmentsController.getFeatured Ascii.eqb seeded (Some 2)) = [3; 1].
Proof. split; reflexivity. Qed.

Lemma featured_result_witness :
  1 <= 6
  /\ Z.of_nat (length (ApartmentsController.getFeatured Ascii.eqb seeded None))
     = Z.min 6 (Z.of_nat (length (List.filter visibleb (rows seeded)))).
Proof.
  split; [lia|].
  apply (featured_result Ascii.eqb seeded None). lia.
Defined.

Lemma findByProject_result_witness :
  let penthouse :=
    seedRow 3 "Penthouse Premium" "P1-001" "Sky Tower" 4500 4 3 200 "City Center" 78 in
  plainText "Tower" = true
  /\ (In penthouse (ApartmentsService.findByProject Ascii.eqb seeded "Tower")
      <-> In penthouse (rows seeded) /\ visible penthouse
          /\ contains Ascii.eqb "Tower" (project penthouse) = true).
Proof.
  split; [reflexivity|].
  apply (findByProject_result Ascii.eqb seeded "Tower"). reflexivity.
Defined.

(** ** Creating and updating records *)

Section WriteFacts.

Variable collate : ascii -> ascii -> bool.

Import ApartmentsService.

Lemma textEq_refl s : reflexiveCollation collate -> textEq collate s s = true.
Proof.
  intros Hr. induction s as [|c s IH]; [reflexivity|]. cbn. now rewrite Hr, IH.
Qed.



Lemma create_success repo dto now repo' saved :
  create collate repo dto now = inr (repo', saved) ->
  rows repo' = rows repo ++ [saved]
  /\ nextId repo' = nextId repo + 1
  /\ id saved = nextId repo
  /\ unitNumber saved = CreateApartmentDto.unitNumber dto
  /\ isAvailable saved
     = match CreateApartmentDto.isAvailable dto with Some b => b | None => true end
  /\ deletedAt saved = None
  /\ viewCount saved = 0
  /\ createdAt saved = now
  /\ updatedAt saved = now.
Proof.
  unfold create. intros Hsave.
  apply save_accepted in Hsave as (_ & _ & -> & ->). cbn. repeat split.
Qed.



Lemma filter_fresh_keys i (l : list Apartment) :
  Forall (fun r => id r < i) l -> List.filter (byIdVisible i) l = [].
Proof.
  intros H. apply filter_none. eapply Forall_impl; [exact H|].
  intros r Hr. cbv beta in Hr. unfold byIdVisible.
  destruct (Z.eqb_spec (id r) i) as [He|]; [|reflexivity].
  rewrite He in Hr. lia.
Qed.

(** Create, then fetch: when the stored keys are below the next key, a
    record created as available gets the next key, a view count of 0 and no
    deletion mark, and [GET /apartments/:id] with its key answers with
    exactly that record; a record created as unavailable is answered with
    NotFound. *)
Theorem create_then_fetch repo dto now stamp repo' saved :
  keysFresh repo ->
  ApartmentsController.create collate repo dto now = (repo', inr saved) ->
  id saved = nextId repo
  /\ viewCount saved = 0
  /\ deletedAt saved = None
  /\ Forall (fun r => id r <> id saved) (rows repo)
  /\ match CreateApartmentDto.isAvailable dto with
     | Some false =>
         snd (ApartmentsController.findOne collate repo' (id saved) stamp) = inl NOT_FOUND
     | _ =>
         exists similar,
           snd (ApartmentsController.findOne collate repo' (id saved) stamp)
           = inr {| FindOneResponse.apartment := saved;
                    FindOneResponse.similarApartments := similar |}
     end.
Proof.
  intros [_ Hkeys] Hcreate. unfold ApartmentsController.create in Hcreate.
  destruct (create collate repo dto now) as [[]|[repo1 saved1]] eqn:Hc;
    try discriminate.
  injection Hcreate as <- <-.
  destruct (create_success repo dto now repo1 saved1 Hc)
    as (Hrows & _ & Hid & _ & Hav & Hdel & Hviews & _).
  repeat match goal with |- _ /\ _ => split end; auto.
  - eapply Forall_impl; [exact Hkeys|]. intros r Hr. cbn in Hr. lia.
  - assert (Hlookup : findOneWithDetails collate repo1 (id saved1)
                      = if isAvailable saved1 then Some saved1 else None).
    { rewrite findOneWithDetails_head, Hrows, List.filter_app.
      rewrite filter_fresh_keys by (rewrite Hid; exact Hkeys).
      cbn. unfold byIdVisible. rewrite Z.eqb_refl, Hdel. cbn.
      now destruct (isAvailable saved1). }
    rewrite Hav in Hlookup.
    destruct (CreateApartmentDto.isAvailable dto) as [[|]|].
    + eexists. now rewrite (controller_findOne_found collate repo1 _ stamp saved1 Hlookup).
    + now rewrite (controller_findOne_missing collate repo1 _ stamp Hlookup).
    + eexists. now rewrite (controller_findOne_found collate repo1 _ stamp saved1 Hlookup).
Qed.

(** Every write keeps the primary keys distinct and below the next generated
    key: [create], an [update] the store accepts, [softDelete],
    [incrementViewCount] and the fetch of [GET /apartments/:id]. *)
Theorem keysFresh_preserved repo i createDto updateDto now stamp :
  keysFresh repo ->
  updateAccepted collate repo i updateDto = true ->
  keysFresh (fst (update collate repo i updateDto now))
  /\ keysFresh (fst (softDelete collate repo i now stamp))
  /\ keysFresh (incrementViewCount repo i stamp)
  /\ keysFresh (fst (ApartmentsController.findOne collate repo i stamp))
  /\ keysFresh (fst (ApartmentsController.create collate repo createDto now)).
Proof.
  intros [Hnd Hlt] _.
  assert (Hmap : forall (g : Apartment -> Apartment),
             (forall r, id (g r) = id r) ->
             keysFresh {| rows := map g (rows repo); nextId := nextId repo |}).
  { intros g Hg. split; cbn.
    - rewrite map_map. now rewrite (map_ext _ id Hg).
    - apply Forall_map_pointwise; [|exact Hlt]. intros r Hr. cbn. now rewrite Hg. }
  assert (Hinc : keysFresh (incrementViewCount repo i stamp)).
  { apply (Hmap (fun r => if id r =? i
                          then withUpdatedAt stamp (withViewCount (viewCount r + 1) r)
                          else r)).
    intros r. now destruct (id r =? i). }
  assert (Hupd : forall p s, keysFresh (Repo.update repo i p s)).
  { intros p s.
    apply (Hmap (fun r => if id r =? i then Repo.stampUpdate s p (patch p r) else r)).
    intros r. unfold Repo.stampUpdate.
    now destruct (id r =? i), (PartialEntity.updatedAt p). }
  repeat match goal with |- _ /\ _ => split end.
  - apply Hupd.
  - unfold softDelete. destruct (findOneWithDetails collate repo i); [|now split].
    apply Hupd.
  - exact Hinc.
  - unfold ApartmentsController.findOne.
    destruct (findOneWithDetails collate repo i); [exact Hinc | now split].
  - unfold ApartmentsController.create, create, Repo.save.
    destruct (negb _); [now split|].
    destruct (existsb _ _); [now split|]. cbn. split; cbn.
    + rewrite map_app. cbn. apply NoDup_app. repeat split.
      * exact Hnd.
      * intros x Hx Hx'. apply list_elem_of_In in Hx, Hx'.
        destruct Hx' as [<-|[]]. apply in_map_iff in Hx as (r & Hr & Hin).
        rewrite Forall_forall in Hlt. apply list_elem_of_In, Hlt in Hin. cbn in Hin. lia.
      * apply NoDup_singleton.
    + apply Forall_app. split.
      * eapply Forall_impl; [exact Hlt|]. cbn. intros; lia.
      * constructor; [cbn; lia | constructor].
Qed.

End WriteFacts.


Lemma seeded_keysFresh : keysFresh seeded.
Proof.
  split.
  - cbn. repeat (constructor; [cbn; intros H; apply list_elem_of_In in H; cbn in H;
                               intuition discriminate|]). constructor.
  - cbn. repeat (constructor; [cbn; lia|]). constructor.
Qed.


Lemma create_then_fetch_witness :
  let first := ApartmentsController.create Ascii.eqb seeded newStudio 3000 in
  match snd first with
  | inr saved => id saved = nextId seeded /\ viewCount saved = 0
  | inl _ => False
  end.
Proof.
  cbv zeta.
  destruct (ApartmentsController.create Ascii.eqb seeded newStudio 3000)
    as [repo' [status|saved]] eqn:Hfirst.
  - vm_compute in Hfirst. discriminate.
  - cbn [snd].
    destruct (create_then_fetch Ascii.eqb seeded newStudio 3000 3001 repo' saved
                seeded_keysFresh Hfirst) as (Hid & Hviews & _).
    split; assumption.
Defined.

Lemma keysFresh_preserved_witness :
  keysFresh (fst (ApartmentsService.softDelete Ascii.eqb seeded 1 2000 2001)).
Proof.
  apply (keysFresh_preserved Ascii.eqb seeded 1 newStudio makeAvailable 2000 2001
           seeded_keysFresh eq_refl).
Defined.

(** ** What an update does and does not write *)

Section UpdateFacts.

Variable collate : ascii -> ascii -> bool.

Import ApartmentsService.

Lemma map_unaddressed (g : Apartment -> Apartment) i (l : list Apartment) :
  Forall (fun r => id r <> i) l ->
  map (fun r => if id r =? i then g r else r) l = l.
Proof.
  induction 1 as [|r l Hr _ IH]; [reflexivity|]. cbn.
  apply Z.eqb_neq in Hr. now rewrite Hr, IH.
Qed.

Lemma repository_eta repo : {| rows := rows repo; nextId := nextId repo |} = repo.
Proof. now destruct repo. Qed.

Lemma findOneWithDetails_unaddressed repo i :
  Forall (fun r => id r <> i) (rows repo) -> findOneWithDetails collate repo i = None.
Proof.
  intros H. apply findOneWithDetails_hidden. eapply Forall_impl; [exact H|].
  intros r Hr. cbv beta in Hr. unfold byIdVisible. apply Z.eqb_neq in Hr. now rewrite Hr.
Qed.

(** A request for an id that no stored row has changes nothing: [update]
    answers null and [DELETE] and [GET] answer NotFound, [incrementViewCount]
    adds nothing, [findSimilar] is empty, and the table is the same after
    each of them. *)
Theorem missing_id_changes_nothing repo i dto now stamp limit :
  Forall (fun r => id r <> i) (rows repo) ->
  update collate repo i dto now = (repo, None)
  /\ ApartmentsController.update collate repo i dto now = (repo, inl NOT_FOUND)
  /\ softDelete collate repo i now stamp = (repo, false)
  /\ ApartmentsController.remove collate repo i now stamp = (repo, inl NOT_FOUND)
  /\ incrementViewCount repo i stamp = repo
  /\ ApartmentsController.findOne collate repo i stamp = (repo, inl NOT_FOUND)
  /\ findSimilar collate repo i limit = [].
Proof.
  intros Hmiss.
  pose proof (findOneWithDetails_unaddressed repo i Hmiss) as Hnone.
  assert (Hup : update collate repo i dto now = (repo, None)).
  { unfold update, Repo.update. rewrite (map_unaddressed _ i _ Hmiss), repository_eta.
    now rewrite Hnone. }
  assert (Hdel : softDelete collate repo i now stamp = (repo, false))
    by (unfold softDelete; now rewrite Hnone).
  repeat match goal with |- _ /\ _ => split end.
  - exact Hup.
  - unfold ApartmentsController.update. now rewrite Hup.
  - exact Hdel.
  - unfold ApartmentsController.remove. now rewrite Hdel.
  - unfold incrementViewCount, Repo.increment.
    now rewrite (map_unaddressed _ i _ Hmiss), repository_eta.
  - now apply controller_findOne_missing.
  - unfold findSimilar. now rewrite Hnone.
Qed.

(** An [update] the store accepts writes only the supplied request fields and
    [updatedAt], and only to rows of the given id: in a row of that id every
    request field that is supplied holds the supplied value and every request
    field that is left out holds its old value; the id, slug, view count,
    featured flag, contact and lease columns, creation time and deletion
    mark of every row stay as they were; rows of another id are untouched; no
    row is added or removed; and the key counter is unchanged. *)
Theorem update_frame repo i dto now :
  updateAccepted collate repo i dto = true ->
  let repo' := fst (update collate repo i dto now) in
  Forall2 (fun old new =>
             id new = id old
             /\ slug new = slug old
             /\ viewCount new = viewCount old
             /\ isFeatured new = isFeatured old
             /\ createdAt new = createdAt old
             /\ deletedAt new = deletedAt old
             /\ contactPhone new = contactPhone old
             /\ contactEmail new = contactEmail old
             /\ availableFrom new = availableFrom old
             /\ leaseDuration new = leaseDuration old
             /\ securityDeposit new = securityDeposit old
             /\ (id old <> i -> new = old)
             /\ (id old = i ->
                 updatedAt new = now
                 /\ unitName new = overwrite (UpdateApartmentDto.unitName dto) (unitName old)
                 /\ unitNumber new
                    = overwrite (UpdateApartmentDto.unitNumber dto) (unitNumber old)
                 /\ project new = overwrite (UpdateApartmentDto.project dto) (project old)
                 /\ description new
                    = overwriteNullable (UpdateApartmentDto.description dto)
                        (description old)
                 /\ price new = overwrite (UpdateApartmentDto.price dto) (price old)
                 /\ bedrooms new = overwrite (UpdateApartmentDto.bedrooms dto) (bedrooms old)
                 /\ bathrooms new
                    = overwrite (UpdateApartmentDto.bathrooms dto) (bathrooms old)
                 /\ area new = overwrite (UpdateApartmentDto.area dto) (area old)
                 /\ location new
                    = overwriteNullable (UpdateApartmentDto.location dto) (location old)
                 /\ images new
                    = overwriteNullable (UpdateApartmentDto.images dto) (images old)
                 /\ amenities new
                    = overwriteNullable (UpdateApartmentDto.amenities dto) (amenities old)
                 /\ isAvailable new
                    = overwrite (UpdateApartmentDto.isAvailable dto) (isAvailable old)))
    (rows repo) (rows repo')
  /\ nextId repo' = nextId repo.
Proof.
  intros _. cbv zeta. split; [|reflexivity]. cbn. apply Forall2_map_r. intros r.
  destruct (Z.eqb_spec (id r) i); repeat split; try reflexivity; try congruence.
Qed.

Lemma update_rows repo i dto now :
  rows (Repo.update repo i (updatePartial dto now) now)
  = map (fun r => if id r =? i then patch (updatePartial dto now) r else r) (rows repo).
Proof. reflexivity. Qed.

Lemma byIdVisible_patch_keep i p r :
  PartialEntity.isAvailable p = None -> PartialEntity.deletedAt p = None ->
  byIdVisible i (patch p r) = byIdVisible i r.
Proof. unfold byIdVisible. cbn. now intros -> ->. Qed.

Lemma byIdVisible_if_patch i p r :
  PartialEntity.isAvailable p = None -> PartialEntity.deletedAt p = None ->
  byIdVisible i (if id r =? i then patch p r else r) = byIdVisible i r.
Proof.
  intros Ha Hd. destruct (id r =? i); [now apply byIdVisible_patch_keep | reflexivity].
Qed.

(** An update that the store accepts and that does not supply [isAvailable]
    answers with the stored record of that id after the write: each supplied field holds the
    supplied value, each field left out holds its old value, and
    [updatedAt] is the time of the update.  When the record is missing,
    unavailable or deleted the answer is null. *)
Theorem update_returns_written_record repo i dto now :
  updateAccepted collate repo i dto = true ->
  UpdateApartmentDto.isAvailable dto = None ->
  match findOneWithDetails collate repo i with
  | Some old =>
      exists new,
        snd (update collate repo i dto now) = Some new
        /\ ApartmentsController.update collate repo i dto now
           = (fst (update collate repo i dto now), inr new)
        /\ id new = i
        /\ unitName new = overwrite (UpdateApartmentDto.unitName dto) (unitName old)
        /\ unitNumber new = overwrite (UpdateApartmentDto.unitNumber dto) (unitNumber old)
        /\ project new = overwrite (UpdateApartmentDto.project dto) (project old)
        /\ description new
           = overwriteNullable (UpdateApartmentDto.description dto) (description old)
        /\ price new = overwrite (UpdateApartmentDto.price dto) (price old)
        /\ bedrooms new = overwrite (UpdateApartmentDto.bedrooms dto) (bedrooms old)
        /\ bathrooms new = overwrite (UpdateApartmentDto.bathrooms dto) (bathrooms old)
        /\ area new = overwrite (UpdateApartmentDto.area dto) (area old)
        /\ location new = overwriteNullable (UpdateApartmentDto.location dto) (location old)
        /\ images new = overwriteNullable (UpdateApartmentDto.images dto) (images old)
        /\ amenities new
           = overwriteNullable (UpdateApartmentDto.amenities dto) (amenities old)
        /\ isAvailable new = true
        /\ updatedAt new = now
  | None =>
      snd (update collate repo i dto now) = None
      /\ ApartmentsController.update collate repo i dto now
         = (fst (update collate repo i dto now), inl NOT_FOUND)
  end.
Proof.
  intros _ Hav.
  assert (Hlookup : snd (update collate repo i dto now)
                    = option_map (patch (updatePartial dto now))
                        (findOneWithDetails collate repo i)).
  { change (snd (update collate repo i dto now))
      with (findOneWithDetails collate (Repo.update repo i (updatePartial dto now) now) i).
    rewrite (findOneWithDetails_head collate
               (Repo.update repo i (updatePartial dto now) now)).
    rewrite (findOneWithDetails_head collate repo). rewrite update_rows.
    rewrite (head_filter_map (byIdVisible i)
               (fun r => if id r =? i then patch (updatePartial dto now) r else r)).
    - destruct (head (List.filter (byIdVisible i) (rows repo))) as [r|] eqn:Hh;
        [|reflexivity].
      apply head_filter_Some in Hh as [_ Hv]. apply byIdVisible_true in Hv as [Hid _].
      cbn. apply Z.eqb_eq in Hid. now rewrite Hid.
    - intros r. apply byIdVisible_if_patch; [exact Hav | reflexivity]. }
  destruct (findOneWithDetails collate repo i) as [old|] eqn:Hold.
  - cbn [option_map] in Hlookup. exists (patch (updatePartial dto now) old).
    destruct (findOneWithDetails_Some collate repo i old Hold) as (_ & Hid & Havail & _).
    repeat match goal with |- _ /\ _ => split end; try reflexivity; try assumption.
    + unfold ApartmentsController.update.
      destruct (update collate repo i dto now) as [repo' answer].
      cbn in Hlookup. now rewrite Hlookup.
    + cbn. rewrite Hav. exact Havail.
  - cbn [option_map] in Hlookup. split; [exact Hlookup|].
    unfold ApartmentsController.update.
    destruct (update collate repo i dto now) as [repo' answer].
    cbn in Hlookup. now rewrite Hlookup.
Qed.

(** An update that the store accepts and that sets [isAvailable] to false is
    answered with null, and by
    [PUT /apartments/:id] with NotFound, although it is carried out: every
    row of that id is stored as unavailable afterwards, and a fetch of the id
    answers NotFound. *)
Theorem update_to_unavailable_reports_not_found repo i dto now :
  updateAccepted collate repo i dto = true ->
  UpdateApartmentDto.isAvailable dto = Some false ->
  let repo' := fst (update collate repo i dto now) in
  snd (update collate repo i dto now) = None
  /\ ApartmentsController.update collate repo i dto now = (repo', inl NOT_FOUND)
  /\ Forall (fun r => id r = i -> isAvailable r = false /\ updatedAt r = now) (rows repo')
  /\ length (rows repo') = length (rows repo)
  /\ (forall stamp,
      ApartmentsController.findOne collate repo' i stamp = (repo', inl NOT_FOUND)).
Proof.
  intros _ Hav. cbv zeta.
  assert (Hhidden : Forall (fun r => byIdVisible i r = false)
                      (rows (fst (update collate repo i dto now)))).
  { cbn. apply Forall_forall. intros y Hy. apply list_elem_of_In in Hy.
    apply in_map_iff in Hy as (x & <- & _).
    destruct (id x =? i) eqn:E.
    - unfold byIdVisible. cbn. rewrite Hav. cbn. now rewrite andb_false_r.
    - unfold byIdVisible. now rewrite E. }
  assert (Hnone : findOneWithDetails collate (fst (update collate repo i dto now)) i = None)
    by now apply findOneWithDetails_hidden.
  assert (Hanswer : snd (update collate repo i dto now) = None) by exact Hnone.
  repeat match goal with |- _ /\ _ => split end.
  - exact Hanswer.
  - unfold ApartmentsController.update.
    destruct (update collate repo i dto now) as [repo' answer].
    cbn in Hanswer. now rewrite Hanswer.
  - cbn. apply Forall_forall. intros y Hy. apply list_elem_of_In in Hy.
    apply in_map_iff in Hy as (x & <- & _).
    destruct (Z.eqb_spec (id x) i) as [He|Hne].
    + intros _. cbn. rewrite Hav. now split.
    + intros Hid. contradiction.
  - cbn. apply length_map.
  - intros stamp. now apply controller_findOne_missing.
Qed.

End UpdateFacts.

Lemma missing_id_changes_nothing_witness :
  ApartmentsController.remove Ascii.eqb seeded 9 2000 2001 = (seeded, inl NOT_FOUND).
Proof.
  apply (missing_id_changes_nothing Ascii.eqb seeded 9 makeAvailable 2000 2001 3).
  cbn. repeat (constructor; [discriminate|]). constructor.
Defined.

Lemma update_frame_witness :
  map slug (rows (fst (ApartmentsService.update Ascii.eqb seeded 1
                         (rename "Garden Flat" "G-9") 3000)))
  = map slug (rows seeded).
Proof.
  pose proof (update_frame Ascii.eqb seeded 1 (rename "Garden Flat" "G-9") 3000 eq_refl)
    as [H _].
  induction H as [|old new olds news (_ & Hslug & _) _ IH]; [reflexivity|].
  cbn [map]. now rewrite Hslug, IH.
Defined.

Lemma update_returns_written_record_witness :
  option_map unitName
    (snd (ApartmentsService.update Ascii.eqb seeded 1 (rename "Garden Flat" "G-9") 3000))
  = Some "Garden Flat"%string.
Proof.
  pose proof (update_returns_written_record Ascii.eqb seeded 1
                (rename "Garden Flat" "G-9") 3000 eq_refl eq_refl) as H.
  change (ApartmentsService.findOneWithDetails Ascii.eqb seeded 1)
    with (Some (seedRow 1 "Luxury Studio A1" "A1-001" "Marina Heights" 1200 1 1 (91 # 2)
                  "Downtown Marina District" 45)) in H.
  destruct H as (new & Hnew & _ & _ & Hname & _).
  rewrite Hnew. cbn. now rewrite Hname.
Defined.

Lemma update_to_unavailable_reports_not_found_witness :
  snd (ApartmentsService.update Ascii.eqb seeded 2 makeUnavailable 1500) = None
  /\ existsb (fun r => (id r =? 2) && negb (isAvailable r))
       (rows (fst (ApartmentsService.update Ascii.eqb seeded 2 makeUnavailable 1500)))
     = true.
Proof.
  split; [|reflexivity].
  apply (update_to_unavailable_reports_not_found Ascii.eqb seeded 2 makeUnavailable 1500);
    reflexivity.
Defined.

(** ** Grouped statistics and filter options *)

Section Grouping.

Context {A K : Type} (same : K -> K -> bool) (key : A -> K).

Hypothesis same_refl : forall k, same k k = true.
Hypothesis same_sym : forall k k', same k k' = true -> same k' k = true.
Hypothesis same_trans :
  forall k k' k'', same k k' = true -> same k' k'' = true -> same k k'' = true.

Lemma distinctBy_covers (l : list K) x :
  In x l -> exists k, In k (distinctBy same l) /\ same k x = true.
Proof.
  induction l as [|y l IH]; cbn; [tauto|].
  intros [->|Hx]; [exists x; auto|].
  destruct (IH Hx) as (k & Hk & Hkx).
  destruct (same y k) eqn:Hyk.
  - exists y. split; [now left | eauto].
  - exists k. split; [|exact Hkx]. right. apply filter_In.
    split; [exact Hk | now rewrite Hyk].
Qed.

Lemma distinctBy_apart (l : list K) :
  StronglySorted (fun k k' => same k k' = false) (distinctBy same l).
Proof.
  induction l as [|y l IH]; cbn; constructor.
  - clear - IH. induction IH as [|k ks Hks IHks Hk]; cbn; [constructor|].
    destruct (negb (same y k)); [|exact IHks]. constructor; [exact IHks|].
    apply Forall_forall. intros k' Hk'. apply list_elem_of_In, filter_In in Hk' as [Hk' _].
    rewrite Forall_forall in Hk. apply Hk. now apply list_elem_of_In.
  - apply Forall_forall. intros k Hk. apply list_elem_of_In, filter_In in Hk as [_ Hk].
    now apply negb_true_iff in Hk.
Qed.

(** How many of the keys [ks] a value matches. *)
Lemma matches_one_key (ks : list K) x :
  StronglySorted (fun k k' => same k k' = false) ks ->
  (exists k, In k ks /\ same k x = true) ->
  length (List.filter (fun k => same k x) ks) = 1%nat.
Proof.
  induction 1 as [|k ks Hks IH Hk]; intros (k0 & Hin & Hsame); [destruct Hin|].
  cbn. destruct (same k x) eqn:Hkx.
  - cbn. f_equal. apply length_zero_iff_nil, filter_none.
    eapply Forall_impl; [exact Hk|]. intros k' Hk'. cbv beta in Hk'.
    destruct (same k' x) eqn:Hk'x; [|reflexivity].
    rewrite (same_trans k x k' Hkx (same_sym _ _ Hk'x)) in Hk'. discriminate.
  - apply IH. exists k0. split; [|exact Hsame].
    destruct Hin as [->|Hin]; [congruence | exact Hin].
Qed.

Lemma group_sizes_add_up (ks : list K) (l : list A) :
  StronglySorted (fun k k' => same k k' = false) ks ->
  (forall r, In r l -> exists k, In k ks /\ same k (key r) = true) ->
  fold_right Z.add 0
    (map (fun k => Z.of_nat (length (List.filter (fun r => same k (key r)) l))) ks)
  = Z.of_nat (length l).
Proof.
  intros Hks. induction l as [|r l IH]; intros Hcov.
  - clear. induction ks as [|k ks IHks]; cbn in *; lia.
  - assert (Hone : length (List.filter (fun k => same k (key r)) ks) = 1%nat).
    { apply matches_one_key; [exact Hks|]. apply Hcov. now left. }
    specialize (IH (fun r' Hr' => Hcov r' (or_intror Hr'))).
    assert (Hstep : forall ks',
               fold_right Z.add 0
                 (map (fun k => Z.of_nat (length (List.filter (fun r0 => same k (key r0))
                                                    (r :: l)))) ks')
               = Z.of_nat (length (List.filter (fun k => same k (key r)) ks'))
                 + fold_right Z.add 0
                     (map (fun k => Z.of_nat (length (List.filter
                                                        (fun r0 => same k (key r0)) l)))
                        ks')).
    { clear. induction ks' as [|k ks' IHks]; [reflexivity|].
      cbn [map fold_right]. rewrite IHks. cbn [List.filter].
      destruct (same k (key r)); cbn [length]; lia. }
    rewrite Hstep, Hone, IH. cbn [length]. lia.
Qed.

Lemma distinct_group_sizes (l : list A) :
  fold_right Z.add 0
    (map (fun k => Z.of_nat (length (List.filter (fun r => same k (key r)) l)))
       (distinctBy same (map key l)))
  = Z.of_nat (length l).
Proof.
  apply group_sizes_add_up; [apply distinctBy_apart|].
  intros r Hr. apply distinctBy_covers. now apply in_map.
Qed.

End Grouping.

Lemma sum_Permutation (l l' : list Z) :
  l ≡ₚ l' -> fold_right Z.add 0 l = fold_right Z.add 0 l'.
Proof. induction 1; cbn; lia. Qed.

Section GroupFacts.

Variable collate : ascii -> ascii -> bool.
Variable avgNumber : Q -> Q.

Import ApartmentsService.

Lemma distinctBy_In {A} (same : A -> A -> bool) l x :
  In x (distinctBy same l) -> In x l.
Proof.
  revert x. induction l as [|y l IH]; intros x; cbn; [tauto|].
  intros [->|H]; [now left|]. apply filter_In in H as [H _]. right. now apply IH.
Qed.

Lemma distinctBy_eqb_In l (x : Z) : In x (distinctBy Z.eqb l) <-> In x l.
Proof.
  split; [apply distinctBy_In|].
  induction l as [|y l IH]; cbn; [tauto|].
  intros [->|H]; [now left|].
  destruct (Z.eq_dec y x) as [->|Hne]; [now left|].
  right. apply filter_In. split; [now apply IH|].
  apply negb_true_iff. now apply Z.eqb_neq.
Qed.

Lemma NoDup_bool_filter {A} (f : A -> bool) l : NoDup l -> NoDup (List.filter f l).
Proof.
  induction 1 as [|x l Hx Hl IH]; cbn; [constructor|].
  destruct (f x); [|exact IH]. constructor; [|exact IH].
  intros H. apply Hx. apply list_elem_of_In. apply list_elem_of_In, filter_In in H.
  tauto.
Qed.

Lemma distinctBy_eqb_NoDup (l : list Z) : NoDup (distinctBy Z.eqb l).
Proof.
  induction l as [|y l IH]; cbn; constructor.
  - intros H. apply list_elem_of_In, filter_In in H as [_ H].
    now rewrite Z.eqb_refl in H.
  - now apply NoDup_bool_filter.
Qed.

Lemma strictly_ascending (l : list Z) :
  StronglySorted Z.le l -> NoDup l -> StronglySorted Z.lt l.
Proof.
  induction 1 as [|x l Hl IH Hx]; intros Hnd; constructor.
  - apply IH. now apply NoDup_cons in Hnd as [_ Hnd].
  - apply NoDup_cons in Hnd as [Hnot _].
    apply Forall_forall. intros y Hy.
    rewrite Forall_forall in Hx. specialize (Hx y Hy).
    assert (x <> y) by (intros ->; contradiction). lia.
Qed.

Lemma sorted_distinct_numbers (l : list Z) :
  let options := merge_sort Z.le (distinctBy Z.eqb l) in
  StronglySorted Z.lt options /\ (forall n, In n options <-> In n l).
Proof.
  cbv zeta.
  pose proof (merge_sort_Permutation Z.le (distinctBy Z.eqb l)) as Hperm.
  split.
  - apply strictly_ascending.
    + apply StronglySorted_merge_sort; typeclasses eauto.
    + rewrite Hperm. apply distinctBy_eqb_NoDup.
  - intros n. rewrite <- (distinctBy_eqb_In l n). split; apply Permutation_in.
    + exact Hperm.
    + now symmetry.
Qed.

Lemma In_availableRows repo r :
  In r (availableRows repo) <-> In r (rows repo) /\ visible r.
Proof.
  rewrite availableRows_visibleb, filter_In. unfold visibleb, visible.
  rewrite andb_true_iff. split; intros (H & Ha & Hd); repeat split; auto.
  - now apply isNull_true.
  - now rewrite Hd.
Qed.

Lemma In_notNull {A} (l : list (option A)) x : In x (notNull l) <-> In (Some x) l.
Proof.
  induction l as [|[y|] l IH]; cbn; [tauto| |].
  - rewrite IH. split; intros [H|H]; auto; left; congruence.
  - rewrite IH. split; [auto|]. intros [H|H]; [discriminate | exact H].
Qed.

Lemma truthyText_true s : truthyText s = true <-> s <> EmptyString.
Proof. destruct s; cbn; split; congruence. Qed.

(** The filter options offer, for bedrooms and for bathrooms, exactly the
    counts that occur among the available, non-deleted rows, in strictly
    ascending order.  Every offered project and location is a non-empty
    text taken from such a row, and the offered price range bounds the
    price of every such row. *)
Theorem filterOptions_result textLeb repo :
  let options := getFilterOptions collate textLeb repo in
  StronglySorted Z.lt (FilterOptions.bedroomOptions options)
  /\ (forall n, In n (FilterOptions.bedroomOptions options)
                <-> exists r, In r (rows repo) /\ visible r /\ bedrooms r = n)
  /\ StronglySorted Z.lt (FilterOptions.bathroomOptions options)
  /\ (forall n, In n (FilterOptions.bathroomOptions options)
                <-> exists r, In r (rows repo) /\ visible r /\ bathrooms r = n)
  /\ Forall (fun p => p <> EmptyString
                      /\ exists r, In r (rows repo) /\ visible r /\ project r = p)
       (FilterOptions.projects options)
  /\ Forall (fun p => p <> EmptyString
                      /\ exists r, In r (rows repo) /\ visible r /\ location r = Some p)
       (FilterOptions.locations options)
  /\ Forall (fun r => visible r ->
                      (PriceRangeDto.min (FilterOptions.priceRange options) <= price r)%Q
                      /\ (price r <= PriceRangeDto.max (FilterOptions.priceRange options))%Q)
       (rows repo).
Proof.
  cbv zeta. unfold getFilterOptions.
  cbn [FilterOptions.bedroomOptions FilterOptions.bathroomOptions FilterOptions.projects
       FilterOptions.locations FilterOptions.priceRange PriceRangeDto.min PriceRangeDto.max].
  destruct (sorted_distinct_numbers (map bedrooms (availableRows repo))) as [Hbs Hbi].
  destruct (sorted_distinct_numbers (map bathrooms (availableRows repo))) as [Hts Hti].
  repeat match goal with |- _ /\ _ => split end.
  - exact Hbs.
  - intros n. rewrite Hbi, in_map_iff. split.
    + intros (r & Hn & Hr). apply In_availableRows in Hr as [Hr Hv]. eauto.
    + intros (r & Hr & Hv & Hn). exists r. split; [exact Hn|].
      now apply In_availableRows.
  - exact Hts.
  - intros n. rewrite Hti, in_map_iff. split.
    + intros (r & Hn & Hr). apply In_availableRows in Hr as [Hr Hv]. eauto.
    + intros (r & Hr & Hv & Hn). exists r. split; [exact Hn|].
      now apply In_availableRows.
  - apply Forall_forall. intros p Hp. apply list_elem_of_In, filter_In in Hp as [Hp Hne].
    split; [now apply truthyText_true|].
    apply (Permutation_in _ (merge_sort_Permutation _ _)), distinctBy_In in Hp.
    apply in_map_iff in Hp as (r & Hpr & Hr).
    apply In_availableRows in Hr as [Hr Hv]. eauto.
  - apply Forall_forall. intros p Hp. apply list_elem_of_In, filter_In in Hp as [Hp Hne].
    split; [now apply truthyText_true|].
    apply (Permutation_in _ (merge_sort_Permutation _ _)), distinctBy_In in Hp.
    apply In_notNull, in_map_iff in Hp as (r & Hpr & Hr).
    apply In_availableRows in Hr as [Hr Hv]. eauto.
  - apply Forall_forall. intros r Hr Hv. apply list_elem_of_In in Hr.
    assert (Hin : In (price r) (map price (availableRows repo))).
    { apply in_map. now apply In_availableRows. }
    pose proof (sqlMin_lower_bound (map price (availableRows repo))) as Hlo.
    pose proof (sqlMax_upper_bound (map price (availableRows repo))) as Hhi.
    rewrite Forall_forall in Hlo, Hhi. apply list_elem_of_In in Hin. split; auto.
Qed.

Lemma textEq_sym a b :
  equivalenceCollation collate -> textEq collate a b = true -> textEq collate b a = true.
Proof.
  intros (_ & Hsym & _). revert b.
  induction a as [|c a IH]; intros [|d b]; cbn; try congruence.
  rewrite !andb_true_iff. intros [H1 H2]. split; auto.
Qed.

Lemma textEq_trans a b c :
  equivalenceCollation collate ->
  textEq collate a b = true -> textEq collate b c = true -> textEq collate a c = true.
Proof.
  intros (_ & _ & Htrans). revert b c.
  induction a as [|x a IH]; intros [|y b] [|z c]; cbn; try congruence.
  rewrite !andb_true_iff. intros [H1 H2] [H3 H4]. split; eauto.
Qed.

Lemma strictly_ascending_by {B} (key : B -> Z) (l : list B) :
  StronglySorted (fun a b => key a <= key b) l -> NoDup (map key l) ->
  StronglySorted (fun a b => key a < key b) l.
Proof.
  induction 1 as [|x l Hl IH Hx]; intros Hnd; constructor.
  - apply IH. cbn in Hnd. now apply NoDup_cons in Hnd as [_ Hnd].
  - cbn in Hnd. apply NoDup_cons in Hnd as [Hnot _].
    apply Forall_forall. intros y Hy.
    rewrite Forall_forall in Hx. specialize (Hx y Hy). cbv beta in Hx.
    assert (key x <> key y).
    { intros He. apply Hnot. rewrite He. apply list_elem_of_In, in_map.
      now apply list_elem_of_In. }
    lia.
Qed.

Lemma filter_filter {B} (f g : B -> bool) l :
  List.filter f (List.filter g l) = List.filter (fun x => g x && f x) l.
Proof.
  induction l as [|x l IH]; [reflexivity|]. cbn.
  destruct (g x); cbn; [destruct (f x)|]; now rewrite IH.
Qed.

Lemma statistics_counts repo now :
  ApartmentStatsDto.totalApartments (getStatistics collate avgNumber repo now)
  = Z.of_nat (length (List.filter (fun r => Repo.isNull (deletedAt r)) (rows repo)))
  /\ ApartmentStatsDto.availableApartments (getStatistics collate avgNumber repo now)
     = Z.of_nat (length (List.filter visibleb (rows repo))).
Proof.
  split; [reflexivity|]. cbn. unfold Repo.count.
  rewrite (filter_ext _ visibleb); [reflexivity|]. intros r.
  unfold Repo.matches, visibleb. cbn. now destruct (isAvailable r).
Qed.

Lemma bedroomStatsQuery_groups repo :
  let distribution := bedroomStatsQuery repo in
  StronglySorted
    (fun a b => BedroomDistributionDto.bedrooms a < BedroomDistributionDto.bedrooms b)
    distribution
  /\ Forall (fun e =>
               BedroomDistributionDto.count e
               = Z.of_nat (length (List.filter
                                     (fun r => visibleb r
                                               && (bedrooms r =? BedroomDistributionDto.bedrooms e))
                                     (rows repo)))
               /\ 1 <= BedroomDistributionDto.count e)
       distribution
  /\ (forall r, In r (rows repo) -> visible r ->
      exists e, In e distribution /\ BedroomDistributionDto.bedrooms e = bedrooms r)
  /\ fold_right Z.add 0 (map BedroomDistributionDto.count distribution)
     = Z.of_nat (length (List.filter visibleb (rows repo))).
Proof.
  cbv zeta.
  unfold bedroomStatsQuery. rewrite availableRows_visibleb.
  set (selected := List.filter visibleb (rows repo)).
  set (mk := fun key : Z => _).
  set (keys := distinctBy Z.eqb (map bedrooms selected)).
  pose proof (merge_sort_Permutation byBedroomsAsc (map mk keys)) as Hperm.
  assert (Hentry : forall e, In e (merge_sort byBedroomsAsc (map mk keys)) ->
                             exists k, In k (map bedrooms selected) /\ e = mk k).
  { intros e He. apply (Permutation_in _ Hperm), in_map_iff in He as (k & <- & Hk).
    exists k. split; [|reflexivity]. now apply distinctBy_eqb_In. }
  repeat match goal with |- _ /\ _ => split end.
  - apply strictly_ascending_by.
    + apply StronglySorted_merge_sort.
      * intros a b c. unfold byBedroomsAsc. lia.
      * intros a b. unfold byBedroomsAsc. lia.
    + rewrite Hperm, map_map. cbn. rewrite map_id. apply distinctBy_eqb_NoDup.
  - apply Forall_forall. intros e He. apply list_elem_of_In in He.
    apply Hentry in He as (k & Hk & ->).
    cbn. unfold selected. rewrite filter_filter.
    rewrite (filter_ext _ (fun r => visibleb r && (bedrooms r =? k)))
      by (intros r; now rewrite (Z.eqb_sym k)).
    split; [reflexivity|].
    apply in_map_iff in Hk as (r & Hr & Hin). apply filter_In in Hin as [Hin Hv].
    assert (Hmem : In r (List.filter (fun r => visibleb r && (bedrooms r =? k)) (rows repo))).
    { apply filter_In. split; [exact Hin|]. rewrite Hv, Hr. cbn. apply Z.eqb_refl. }
    destruct (List.filter (fun r => visibleb r && (bedrooms r =? k)) (rows repo));
      [destruct Hmem | cbn [length]; lia].
  - intros r Hr [Ha Hd]. exists (mk (bedrooms r)). split; [|reflexivity].
    apply (Permutation_in _ (Permutation_sym Hperm)), in_map.
    apply distinctBy_eqb_In, in_map. apply filter_In. split; [exact Hr|].
    unfold visibleb. now rewrite Ha, Hd.
  - rewrite (sum_Permutation _ _ (Permutation_map _ Hperm)), map_map. cbn.
    apply (distinct_group_sizes Z.eqb bedrooms).
    + apply Z.eqb_refl.
    + intros k k' H. apply Z.eqb_eq in H. subst. apply Z.eqb_refl.
    + intros k k' k'' H1 H2. apply Z.eqb_eq in H1, H2. subst. apply Z.eqb_refl.
Qed.

(** The bedroom distribution of the statistics report lists each bedroom
    count that occurs among the available, non-deleted rows once, in
    strictly ascending order, with the number of such rows that have it;
    every count is at least 1 and the counts add up to
    [availableApartments]. *)
Theorem bedroomDistribution_result repo now :
  let stats := getStatistics collate avgNumber repo now in
  let distribution := ApartmentStatsDto.bedroomDistribution stats in
  StronglySorted
    (fun a b => BedroomDistributionDto.bedrooms a < BedroomDistributionDto.bedrooms b)
    distribution
  /\ Forall (fun e =>
               BedroomDistributionDto.count e
               = Z.of_nat (length (List.filter
                                     (fun r => visibleb r
                                               && (bedrooms r =? BedroomDistributionDto.bedrooms e))
                                     (rows repo)))
               /\ 1 <= BedroomDistributionDto.count e)
       distribution
  /\ (forall r, In r (rows repo) -> visible r ->
      exists e, In e distribution /\ BedroomDistributionDto.bedrooms e = bedrooms r)
  /\ fold_right Z.add 0 (map BedroomDistributionDto.count distribution)
     = ApartmentStatsDto.availableApartments stats.
Proof.
  cbv zeta. destruct (statistics_counts repo now) as [_ ->].
  exact (bedroomStatsQuery_groups repo).
Qed.

Lemma projectStatsQuery_groups repo :
  let entries := projectStatsQuery collate avgNumber repo in
  let group := fun e =>
    List.filter (fun r => visibleb r && textEq collate (ProjectStatsDto.project e) (project r))
      (rows repo) in
  StronglySorted (fun a b => ProjectStatsDto.count b <= ProjectStatsDto.count a) entries
  /\ Forall (fun e =>
               (exists r, In r (rows repo) /\ visible r /\ project r = ProjectStatsDto.project e)
               /\ ProjectStatsDto.count e = Z.of_nat (length (group e))
               /\ ProjectStatsDto.averagePrice e
                  = match map price (group e) with
                    | [] => 0%Q
                    | prices => avgNumber (mean prices)
                    end)
       entries
  /\ (equivalenceCollation collate ->
      (forall r, In r (rows repo) -> visible r ->
       exists e, In e entries
                 /\ textEq collate (ProjectStatsDto.project e) (project r) = true)
      /\ Forall (fun e => 1 <= ProjectStatsDto.count e) entries
      /\ fold_right Z.add 0 (map ProjectStatsDto.count entries)
         = Z.of_nat (length (List.filter visibleb (rows repo)))).
Proof.
  cbv zeta.
  unfold projectStatsQuery. rewrite availableRows_visibleb.
  set (selected := List.filter visibleb (rows repo)).
  set (mk := fun key : string => _).
  set (keys := distinctBy (textEq collate) (map project selected)).
  pose proof (merge_sort_Permutation byCountDesc (map mk keys)) as Hperm.
  repeat match goal with |- _ /\ _ => split end.
  - apply StronglySorted_merge_sort.
    + intros a b c. unfold byCountDesc. lia.
    + intros a b. unfold byCountDesc. lia.
  - apply Forall_forall. intros e He.
    apply list_elem_of_In, (Permutation_in _ Hperm), in_map_iff in He as (k & <- & Hk).
    apply distinctBy_In, in_map_iff in Hk as (r & Hr & Hin).
    apply filter_In in Hin as [Hin Hv].
    cbn. unfold selected. rewrite filter_filter.
    unfold visibleb in Hv. apply andb_true_iff in Hv as [Ha Hd].
    split; [|split].
    + exists r. split; [exact Hin|]. split; [|exact Hr].
      split; [exact Ha | now apply isNull_true].
    + reflexivity.
    + set (prices := map price _). now destruct prices.
  - intros Heq.
    assert (Hrefl : forall k, textEq collate k k = true)
      by (intros k; apply textEq_refl; exact (proj1 Heq)).
    assert (Hsym : forall k k', textEq collate k k' = true -> textEq collate k' k = true)
      by (intros k k'; now apply textEq_sym).
    assert (Htrans : forall k k' k'', textEq collate k k' = true ->
                                      textEq collate k' k'' = true ->
                                      textEq collate k k'' = true)
      by (intros k k' k''; now apply textEq_trans).
    split; [|split].
    + intros r Hr [Ha Hd].
      assert (Hin : In (project r) (map project selected)).
      { apply in_map, filter_In. split; [exact Hr|]. unfold visibleb. now rewrite Ha, Hd. }
      destruct (distinctBy_covers (textEq collate) Hrefl Hsym Htrans
                  (map project selected) (project r) Hin) as (k & Hk & Hsame).
      exists (mk k). split; [|exact Hsame].
      apply (Permutation_in _ (Permutation_sym Hperm)), in_map. exact Hk.
    + apply Forall_forall. intros e He.
      apply list_elem_of_In, (Permutation_in _ Hperm), in_map_iff in He as (k & <- & Hk).
      apply distinctBy_In, in_map_iff in Hk as (r & Hr & Hin).
      cbn. assert (Hmem : In r (List.filter (fun r => textEq collate k (project r)) selected)).
      { apply filter_In. split; [exact Hin|]. rewrite Hr. apply Hrefl. }
      destruct (List.filter (fun r => textEq collate k (project r)) selected);
        [destruct Hmem | cbn [length]; lia].
    + rewrite (sum_Permutation _ _ (Permutation_map _ Hperm)), map_map. cbn.
      now apply (distinct_group_sizes (textEq collate) project).
Qed.

(** The project statistics of the report are ordered by count, largest
    first.  Each entry names the project of an available, non-deleted row,
    counts the such rows whose project equals it under the collation and
    shows the number read for the mean of their prices.  When the collation
    is an equivalence on characters, every available, non-deleted row has
    an entry for its project, every count is at least 1 and the counts add
    up to [availableApartments]. *)
Theorem projectStats_result repo now :
  let stats := getStatistics collate avgNumber repo now in
  let entries := ApartmentStatsDto.projectStats stats in
  let group := fun e =>
    List.filter (fun r => visibleb r && textEq collate (ProjectStatsDto.project e) (project r))
      (rows repo) in
  StronglySorted (fun a b => ProjectStatsDto.count b <= ProjectStatsDto.count a) entries
  /\ Forall (fun e =>
               (exists r, In r (rows repo) /\ visible r /\ project r = ProjectStatsDto.project e)
               /\ ProjectStatsDto.count e = Z.of_nat (length (group e))
               /\ ProjectStatsDto.averagePrice e
                  = match map price (group e) with
                    | [] => 0%Q
                    | prices => avgNumber (mean prices)
                    end)
       entries
  /\ (equivalenceCollation collate ->
      (forall r, In r (rows repo) -> visible r ->
       exists e, In e entries
                 /\ textEq collate (ProjectStatsDto.project e) (project r) = true)
      /\ Forall (fun e => 1 <= ProjectStatsDto.count e) entries
      /\ fold_right Z.add 0 (map ProjectStatsDto.count entries)
         = ApartmentStatsDto.availableApartments stats).
Proof.
  cbv zeta. destruct (statistics_counts repo now) as [_ ->].
  exact (projectStatsQuery_groups repo).
Qed.

Lemma invisible_not_selected searchDto r :
  visibleb r = false -> selectedBy collate searchDto r = false.
Proof.
  unfold visibleb, selectedBy, Repo.matches. cbn. intros H.
  destruct (isAvailable r), (Repo.isNull (deletedAt r)); try discriminate;
    cbn; now rewrite ?andb_false_r.
Qed.

(** When no stored row is available and not deleted, and so on an empty
    table, the statistics, the featured list, the by-project list and the
    filter options report emptiness rather than an error: the statistics
    show 0 available apartments, an average price and price bounds of 0 and
    no project or bedroom entries; the featured list (for a limit that is
    not negative), the by-project list and all filter options are empty. *)
Theorem nothing_visible repo now projectName limit textLeb :
  Forall (fun r => visibleb r = false) (rows repo) ->
  let stats := getStatistics collate avgNumber repo now in
  let options := getFilterOptions collate textLeb repo in
  ApartmentStatsDto.availableApartments stats = 0
  /\ ApartmentStatsDto.averagePrice stats = 0%Q
  /\ ApartmentStatsDto.priceRange stats = {| PriceRangeDto.min := 0; PriceRangeDto.max := 0 |}
  /\ ApartmentStatsDto.projectStats stats = []
  /\ ApartmentStatsDto.bedroomDistribution stats = []
  /\ (0 <= limit -> getFeaturedApartments collate repo limit = [])
  /\ ApartmentsController.getFeatured collate repo None = []
  /\ findByProject collate repo projectName = []
  /\ FilterOptions.projects options = []
  /\ FilterOptions.locations options = []
  /\ FilterOptions.bedroomOptions options = []
  /\ FilterOptions.bathroomOptions options = []
  /\ FilterOptions.priceRange options
     = {| PriceRangeDto.min := 0; PriceRangeDto.max := 0 |}.
Proof.
  intros Hnone. cbv zeta.
  assert (Hsel : availableRows repo = []).
  { rewrite availableRows_visibleb. now apply filter_none. }
  assert (Hwhere : forall w,
             FindOptionsWhere.isAvailable w = Some true ->
             FindOptionsWhere.deletedAtIsNull w = true ->
             List.filter (Repo.matches collate w) (rows repo) = []).
  { intros w Ha Hd. apply filter_none. eapply Forall_impl; [exact Hnone|].
    intros r Hr. cbv beta in Hr. unfold Repo.matches. rewrite Ha, Hd. cbn.
    unfold visibleb in Hr.
    destruct (isAvailable r), (Repo.isNull (deletedAt r)); try discriminate;
      cbn; now rewrite ?andb_false_r. }
  destruct (statistics_counts repo now) as [_ Havail].
  repeat match goal with |- _ /\ _ => split end.
  - rewrite Havail. now rewrite <- availableRows_visibleb, Hsel.
  - unfold getStatistics. cbn. now rewrite Hsel.
  - unfold getStatistics. cbn. now rewrite Hsel.
  - unfold getStatistics, projectStatsQuery. cbn. now rewrite Hsel.
  - unfold getStatistics, bedroomStatsQuery. cbn. now rewrite Hsel.
  - intros _. unfold getFeaturedApartments, Repo.find. cbn.
    rewrite Hwhere by reflexivity. cbn. destruct (0 <? limit); [apply take_nil | reflexivity].
  - unfold ApartmentsController.getFeatured, getFeaturedApartments, Repo.find. cbn.
    now rewrite Hwhere.
  - unfold findByProject, Repo.find. cbn. now rewrite Hwhere.
  - unfold getFilterOptions. cbn. now rewrite Hsel.
  - unfold getFilterOptions. cbn. now rewrite Hsel.
  - unfold getFilterOptions. cbn. now rewrite Hsel.
  - unfold getFilterOptions. cbn. now rewrite Hsel.
  - unfold getFilterOptions. cbn. now rewrite Hsel.
Qed.

Lemma filter_map_commute {B} (f : B -> bool) (g : B -> B) l :
  (forall x, f (g x) = f x) -> List.filter f (map g l) = map g (List.filter f l).
Proof.
  intros Hfg. induction l as [|x l IH]; [reflexivity|]. cbn. rewrite Hfg.
  destruct (f x); cbn; now rewrite IH.
Qed.

Lemma matches_viewed w i n s r :
  Repo.matches collate w (viewed i n s r) = Repo.matches collate w r.
Proof. unfold viewed. now destruct (id r =? i). Qed.

Lemma availableRows_increment repo i n s :
  availableRows (Repo.increment repo i n s) = map (viewed i n s) (availableRows repo).
Proof.
  unfold availableRows. cbn. apply (filter_map_commute _ (viewed i n s)).
  intros r. unfold viewed. now destruct (id r =? i).
Qed.

Lemma count_increment repo i n s w :
  Repo.count collate (Repo.increment repo i n s) w = Repo.count collate repo w.
Proof.
  unfold Repo.count. cbn. f_equal.
  rewrite (filter_map_commute _ (viewed i n s)) by (intros r; apply matches_viewed).
  apply length_map.
Qed.

Lemma column_viewed {B} (column : Apartment -> B) i n s l :
  (forall r v t, column (withUpdatedAt t (withViewCount v r)) = column r) ->
  map column (map (viewed i n s) l) = map column l.
Proof.
  intros H. rewrite map_map. apply map_ext. intros r. unfold viewed.
  destruct (id r =? i); [apply H | reflexivity].
Qed.

Lemma group_viewed {B} (column : Apartment -> B) (p : B -> bool) i n s l :
  (forall r v t, column (withUpdatedAt t (withViewCount v r)) = column r) ->
  List.filter (fun r => p (column r)) (map (viewed i n s) l)
  = map (viewed i n s) (List.filter (fun r => p (column r)) l).
Proof.
  intros H. apply filter_map_commute. intros r. unfold viewed.
  destruct (id r =? i); [now rewrite H | reflexivity].
Qed.

(** Viewing a record changes no statistic and no filter option: the report
    and the options after [GET /apartments/:id] are those before it. *)
Theorem fetch_keeps_statistics repo i stamp now textLeb :
  let repo' := fst (ApartmentsController.findOne collate repo i stamp) in
  getStatistics collate avgNumber repo' now = getStatistics collate avgNumber repo now
  /\ getFilterOptions collate textLeb repo' = getFilterOptions collate textLeb repo.
Proof.
  cbv zeta. unfold ApartmentsController.findOne.
  destruct (findOneWithDetails collate repo i); [|split; reflexivity].
  cbn [fst]. unfold incrementViewCount.
  assert (Hprice : map price (availableRows (Repo.increment repo i 1 stamp))
                   = map price (availableRows repo)).
  { rewrite availableRows_increment. now apply column_viewed. }
  split.
  - unfold getStatistics, projectStatsQuery, bedroomStatsQuery.
    rewrite !count_increment, Hprice, availableRows_increment.
    rewrite (column_viewed project), (column_viewed bedrooms) by reflexivity.
    f_equal.
    + f_equal. apply map_ext. intros key.
      rewrite (group_viewed project (textEq collate key)) by reflexivity.
      rewrite length_map, (column_viewed price) by reflexivity. reflexivity.
    + f_equal. apply map_ext. intros key.
      rewrite (group_viewed bedrooms (Z.eqb key)) by reflexivity.
      now rewrite length_map.
  - unfold getFilterOptions. rewrite Hprice, availableRows_increment.
    rewrite (column_viewed project), (column_viewed bedrooms),
      (column_viewed bathrooms), (column_viewed location) by reflexivity.
    reflexivity.
Qed.

(** A successful creation raises [totalApartments] by 1, and
    [availableApartments] by 1 unless the record is created as unavailable,
    in which case [unavailableApartments] rises by 1. *)
Theorem create_counts repo dto now later repo' saved :
  ApartmentsController.create collate repo dto now = (repo', inr saved) ->
  let before := getStatistics collate avgNumber repo later in
  let after := getStatistics collate avgNumber repo' later in
  ApartmentStatsDto.totalApartments after = ApartmentStatsDto.totalApartments before + 1
  /\ match CreateApartmentDto.isAvailable dto with
     | Some false =>
         ApartmentStatsDto.availableApartments after
         = ApartmentStatsDto.availableApartments before
         /\ ApartmentStatsDto.unavailableApartments after
            = ApartmentStatsDto.unavailableApartments before + 1
     | _ =>
         ApartmentStatsDto.availableApartments after
         = ApartmentStatsDto.availableApartments before + 1
         /\ ApartmentStatsDto.unavailableApartments after
            = ApartmentStatsDto.unavailableApartments before
     end.
Proof.
  intros Hcreate. unfold ApartmentsController.create in Hcreate.
  destruct (create collate repo dto now) as [[]|[repo1 saved1]] eqn:Hc;
    try discriminate.
  injection Hcreate as <- <-.
  destruct (create_success collate repo dto now repo1 saved1 Hc)
    as (Hrows & _ & _ & _ & Hav & Hdel & _).
  cbv zeta.
  change (ApartmentStatsDto.unavailableApartments (getStatistics collate avgNumber repo1 later))
    with (ApartmentStatsDto.totalApartments (getStatistics collate avgNumber repo1 later)
          - ApartmentStatsDto.availableApartments (getStatistics collate avgNumber repo1 later)).
  change (ApartmentStatsDto.unavailableApartments (getStatistics collate avgNumber repo later))
    with (ApartmentStatsDto.totalApartments (getStatistics collate avgNumber repo later)
          - ApartmentStatsDto.availableApartments (getStatistics collate avgNumber repo later)).
  destruct (statistics_counts repo later) as [-> ->].
  destruct (statistics_counts repo1 later) as [-> ->].
  assert (Hv : visibleb saved1
               = match CreateApartmentDto.isAvailable dto with
                 | Some b => b
                 | None => true
                 end)
    by (unfold visibleb; rewrite Hdel, Hav; apply andb_true_r).
  rewrite Hrows, !List.filter_app, !length_app. cbn [List.filter].
  rewrite Hv, Hdel. cbn [Repo.isNull].
  destruct (CreateApartmentDto.isAvailable dto) as [[|]|]; cbn [length]; lia.
Qed.

Lemma one_row_with_key (f : Apartment -> bool) (l : list Apartment) r :
  NoDup (map id l) -> In r l ->
  length (List.filter (fun x => (id x =? id r) && f x) l) = if f r then 1%nat else 0%nat.
Proof.
  induction l as [|y l IH]; intros Hnd Hin; [destruct Hin|].
  cbn in Hnd. apply NoDup_cons in Hnd as [Hnot Hnd]. cbn [List.filter].
  destruct Hin as [->|Hin].
  - rewrite Z.eqb_refl. cbn [andb].
    assert (Hrest : List.filter (fun x => (id x =? id r) && f x) l = []).
    { apply filter_none, Forall_forall. intros x Hx.
      destruct (Z.eqb_spec (id x) (id r)) as [He|]; [|reflexivity].
      exfalso. apply Hnot. rewrite <- He. apply list_elem_of_In, in_map.
      now apply list_elem_of_In. }
    rewrite Hrest. now destruct (f r).
  - destruct (Z.eqb_spec (id y) (id r)) as [He|Hne].
    + exfalso. apply Hnot. rewrite He. now apply list_elem_of_In, in_map.
    + cbn [andb]. now apply IH.
Qed.

Lemma count_after_write (f : Apartment -> bool) (g : Apartment -> Apartment)
    (l : list Apartment) r :
  NoDup (map id l) -> In r l -> f r = true ->
  (forall x, id x = id r -> f (g x) = false) ->
  Z.of_nat (length (List.filter f
                      (map (fun x => if id x =? id r then g x else x) l)))
  = Z.of_nat (length (List.filter f l)) - 1.
Proof.
  intros Hnd Hin Hfr Hg.
  pose proof (one_row_with_key f l r Hnd Hin) as Hone. rewrite Hfr in Hone.
  pose proof (length_filter_split (fun x => id x =? id r) f l) as Hsplit.
  cbv beta in Hsplit. rewrite Hone in Hsplit.
  assert (Hafter : length (List.filter f (map (fun x => if id x =? id r then g x else x) l))
                   = length (List.filter (fun x => negb (id x =? id r) && f x) l)).
  { clear - Hg. induction l as [|x l IH]; [reflexivity|]. cbn.
    destruct (Z.eqb_spec (id x) (id r)) as [He|Hne]; cbn.
    - now rewrite (Hg x He).
    - destruct (f x); cbn; now rewrite IH. }
  lia.
Qed.

(** With distinct primary keys, the soft delete of an available, non-deleted
    record lowers [totalApartments] and [availableApartments] by 1 each and
    leaves [unavailableApartments] as it was. *)
Theorem softDelete_counts repo i now stamp later r :
  keysFresh repo ->
  findOneWithDetails collate repo i = Some r ->
  let before := getStatistics collate avgNumber repo later in
  let after :=
    getStatistics collate avgNumber (fst (softDelete collate repo i now stamp)) later in
  ApartmentStatsDto.totalApartments after = ApartmentStatsDto.totalApartments before - 1
  /\ ApartmentStatsDto.availableApartments after
     = ApartmentStatsDto.availableApartments before - 1
  /\ ApartmentStatsDto.unavailableApartments after
     = ApartmentStatsDto.unavailableApartments before.
Proof.
  intros [Hnd _] Hfound. cbv zeta.
  rewrite (softDelete_found collate repo i now stamp r Hfound). cbn [fst].
  destruct (findOneWithDetails_Some collate repo i r Hfound) as (Hin & Hid & Ha & Hd).
  set (repo' := {| rows := _; nextId := _ |}).
  change (ApartmentStatsDto.unavailableApartments (getStatistics collate avgNumber repo' later))
    with (ApartmentStatsDto.totalApartments (getStatistics collate avgNumber repo' later)
          - ApartmentStatsDto.availableApartments (getStatistics collate avgNumber repo' later)).
  change (ApartmentStatsDto.unavailableApartments (getStatistics collate avgNumber repo later))
    with (ApartmentStatsDto.totalApartments (getStatistics collate avgNumber repo later)
          - ApartmentStatsDto.availableApartments (getStatistics collate avgNumber repo later)).
  destruct (statistics_counts repo later) as [-> ->].
  destruct (statistics_counts repo' later) as [-> ->].
  unfold repo'. cbn [rows]. rewrite <- Hid.
  rewrite (count_after_write (fun x => Repo.isNull (deletedAt x)) (softDeleted now stamp))
    by (auto; now rewrite Hd).
  rewrite (count_after_write visibleb (softDeleted now stamp))
    by (auto; unfold visibleb; now rewrite Ha, Hd).
  lia.
Qed.

End GroupFacts.

Lemma nothing_visible_witness :
  let stats :=
    ApartmentsService.getStatistics Ascii.eqb mysqlAvg {| rows := []; nextId := 1 |} 4000 in
  ApartmentStatsDto.availableApartments stats = 0
  /\ ApartmentStatsDto.averagePrice stats = 0%Q
  /\ ApartmentStatsDto.projectStats stats = [].
Proof.
  cbv zeta.
  destruct (nothing_visible Ascii.eqb mysqlAvg {| rows := []; nextId := 1 |} 4000
              "Marina" 6 String.leb (List.Forall_nil _))
    as (Havail & Havg & _ & Hprojects & _).
  repeat split; assumption.
Defined.

Lemma create_counts_witness :
  let first := ApartmentsController.create Ascii.eqb seeded newStudio 3000 in
  ApartmentStatsDto.totalApartments
    (ApartmentsService.getStatistics Ascii.eqb mysqlAvg (fst first) 4000)
  = ApartmentStatsDto.totalApartments
      (ApartmentsService.getStatistics Ascii.eqb mysqlAvg seeded 4000) + 1.
Proof.
  cbv zeta.
  destruct (ApartmentsController.create Ascii.eqb seeded newStudio 3000)
    as [repo' [status|saved]] eqn:Hfirst.
  - vm_compute in Hfirst. discriminate.
  - apply (create_counts Ascii.eqb mysqlAvg seeded newStudio 3000 4000 repo' saved Hfirst).
Defined.

Lemma softDelete_counts_witness :
  ApartmentStatsDto.availableApartments
    (ApartmentsService.getStatistics Ascii.eqb mysqlAvg
       (fst (ApartmentsService.softDelete Ascii.eqb seeded 1 2000 2001)) 4000)
  = ApartmentStatsDto.availableApartments
      (ApartmentsService.getStatistics Ascii.eqb mysqlAvg seeded 4000) - 1.
Proof.
  apply (softDelete_counts Ascii.eqb mysqlAvg seeded 1 2000 2001 4000
           (seedRow 1 "Luxury Studio A1" "A1-001" "Marina Heights" 1200 1 1 (91 # 2)
              "Downtown Marina District" 45)
           seeded_keysFresh eq_refl).
Defined.

Lemma binary_collation_equivalence : equivalenceCollation Ascii.eqb.
Proof.
  split; [|split].
  - intros c. apply Ascii.eqb_refl.
  - intros c d H. apply Ascii.eqb_eq in H. subst. apply Ascii.eqb_refl.
  - intros c d e H1 H2. apply Ascii.eqb_eq in H1, H2. subst. apply Ascii.eqb_refl.
Qed.

Lemma projectStats_result_witness :
  fold_right Z.add 0
    (map ProjectStatsDto.count
       (ApartmentStatsDto.projectStats
          (ApartmentsService.getStatistics Ascii.eqb mysqlAvg seededWithHidden 4000)))
  = ApartmentStatsDto.availableApartments
      (ApartmentsService.getStatistics Ascii.eqb mysqlAvg seededWithHidden 4000).
Proof.
  apply (projectStats_result Ascii.eqb mysqlAvg seededWithHidden 4000).
  apply binary_collation_equivalence.
Defined.

(** ** The list editors of the add-apartment form *)

Section FormFacts.

Import AddApartment.

Lemma trimStart_head s :
  match trimStart s with
  | EmptyString => True
  | String c _ => isSpace c = false
  end.
Proof.
  induction s as [|c s IH]; cbn; [exact I|].
  destruct (isSpace c) eqn:E; [exact IH | exact E].
Qed.

Lemma trimEnd_cons c s :
  trimEnd (String c s)
  = match trimEnd s with
    | EmptyString => if isSpace c then EmptyString else String c EmptyString
    | String d rest => String c (String d rest)
    end.
Proof. reflexivity. Qed.

Lemma trimEnd_idempotent s : trimEnd (trimEnd s) = trimEnd s.
Proof.
  induction s as [|c s IH]; [reflexivity|]. rewrite (trimEnd_cons c s).
  destruct (trimEnd s) as [|d rest] eqn:E.
  - destruct (isSpace c) eqn:Ec; [reflexivity|]. cbn. now rewrite Ec.
  - rewrite trimEnd_cons, IH. reflexivity.
Qed.

Lemma trimEnd_keeps_head c s :
  isSpace c = false -> exists rest, trimEnd (String c s) = String c rest.
Proof.
  intros Hc. cbn. destruct (trimEnd s); [rewrite Hc|]; eauto.
Qed.

Lemma trim_idempotent s : trim (trim s) = trim s.
Proof.
  unfold trim. pose proof (trimStart_head s) as Hh.
  destruct (trimStart s) as [|c t] eqn:E; [reflexivity|].
  destruct (trimEnd_keeps_head c t Hh) as (rest & Hrest).
  rewrite Hrest. cbn [trimStart]. rewrite Hh. rewrite <- Hrest.
  apply trimEnd_idempotent.
Qed.

Lemma includes_In l s : includes l s = true <-> In s l.
Proof.
  unfold includes. rewrite existsb_exists. split.
  - intros (x & Hx & He). apply String.eqb_eq in He. now subst.
  - intros H. exists s. split; [exact H | apply String.eqb_refl].
Qed.

Lemma filterOtherIndex_splice {A} (l : list A) at_ index :
  filterOtherIndex at_ index l
  = if Nat.leb at_ index then take (index - at_) l ++ drop (S (index - at_)) l else l.
Proof.
  revert at_. induction l as [|x l IH]; intros at_.
  - cbn [filterOtherIndex]. destruct (Nat.leb at_ index); [|reflexivity].
    now destruct (index - at_)%nat.
  - cbn [filterOtherIndex]. rewrite IH.
    destruct (Nat.eqb_spec at_ index) as [->|Hne].
    + destruct (Nat.leb_spec (S index) index) as [H|H]; [lia|].
      rewrite Nat.leb_refl, Nat.sub_diag. reflexivity.
    + destruct (Nat.leb_spec at_ index), (Nat.leb_spec (S at_) index); try lia.
      * replace (index - at_)%nat with (S (index - S at_)) by lia. reflexivity.
      * reflexivity.
Qed.

Lemma removeAt_splice {A} (l : list A) index :
  filterOtherIndex 0 index l = take index l ++ drop (S index) l.
Proof. rewrite filterOtherIndex_splice. cbn. now rewrite Nat.sub_0_r. Qed.

Lemma tidy_splice (l : list string) index :
  tidy l -> tidy (take index l ++ drop (S index) l).
Proof.
  intros [Hnd Hall].
  assert (Hd : drop (S index) l = drop 1 (drop index l))
    by (rewrite drop_drop; f_equal; lia).
  split.
  - rewrite <- (take_drop index l) in Hnd.
    apply NoDup_app in Hnd as (H1 & H2 & H3).
    rewrite Hd. apply NoDup_app. repeat split; [exact H1| |].
    + intros x Hx Hx'. apply (H2 x Hx).
      apply list_elem_of_In. apply list_elem_of_In in Hx'. now apply In_drop in Hx'.
    + destruct (drop index l) as [|y rest]; [constructor|].
      cbn. now apply NoDup_cons in H3 as [_ H3].
  - apply Forall_forall. intros x Hx. rewrite Forall_forall in Hall.
    apply Hall. apply list_elem_of_In. apply list_elem_of_In in Hx.
    apply in_app_or in Hx as [Hx|Hx]; [now apply In_take in Hx|].
    now apply In_drop in Hx.
Qed.

Lemma tidy_append (l : list string) input :
  tidy l ->
  truthyText (trim input) && negb (includes l (trim input)) = true ->
  tidy (l ++ [trim input]).
Proof.
  intros [Hnd Hall] H. apply andb_true_iff in H as [Hne Hnew].
  apply negb_true_iff in Hnew.
  split.
  - apply NoDup_app. repeat split; [exact Hnd| |apply NoDup_singleton].
    intros x Hx Hx'. apply list_elem_of_In in Hx, Hx'. destruct Hx' as [<-|[]].
    apply includes_In in Hx. congruence.
  - apply Forall_app. split; [exact Hall|]. constructor; [|constructor].
    split; [now apply truthyText_true | apply trim_idempotent].
Qed.

(** Whatever a user does with the two list editors, starting from the empty
    form, the images and the amenities held by the form never contain an
    entry twice, a blank entry or an entry with surrounding white space. *)
Theorem form_lists_stay_tidy (actions : list EditorAction) :
  let st := performAll actions initial in
  tidy (ApartmentFormData.images (formData st))
  /\ tidy (ApartmentFormData.amenities (formData st)).
Proof.
  cbv zeta. unfold performAll.
  assert (Hstart : tidy (ApartmentFormData.images (formData initial))
                   /\ tidy (ApartmentFormData.amenities (formData initial))).
  { split; (split; [apply NoDup_nil_2 | constructor]). }
  revert Hstart. generalize initial as st.
  induction actions as [|a actions IH]; intros st Hst; [exact Hst|].
  cbn [fold_left]. apply IH. destruct Hst as [Hi Ha].
  destruct a as [text| |index|text| |index]; cbn [perform].
  - now split.
  - unfold addImage.
    destruct (truthyText (trim (imageInput st))
              && negb (includes (ApartmentFormData.images (formData st))
                         (trim (imageInput st)))) eqn:E; [|now split].
    cbn. split; [now apply tidy_append | exact Ha].
  - cbn. rewrite removeAt_splice. split; [now apply tidy_splice | exact Ha].
  - now split.
  - unfold addAmenity.
    destruct (truthyText (trim (amenityInput st))
              && negb (includes (ApartmentFormData.amenities (formData st))
                         (trim (amenityInput st)))) eqn:E; [|now split].
    cbn. split; [exact Hi | now apply tidy_append].
  - cbn. rewrite removeAt_splice. split; [exact Hi | now apply tidy_splice].
Qed.

(** Removing the entry at an index keeps the entries before and after it in
    order: an index inside the list removes exactly that entry, an index
    past the end removes nothing.  The other list, every other field of the
    form and the two entry fields are not touched.  The same holds for
    amenities. *)
Theorem remove_entry_at_index (index : nat) (st : State) :
  let images := ApartmentFormData.images (formData st) in
  let amenities := ApartmentFormData.amenities (formData st) in
  ApartmentFormData.images (formData (removeImage index st))
  = take index images ++ drop (S index) images
  /\ ApartmentFormData.amenities (formData (removeImage index st)) = amenities
  /\ ApartmentFormData.amenities (formData (removeAmenity index st))
     = take index amenities ++ drop (S index) amenities
  /\ ApartmentFormData.images (formData (removeAmenity index st)) = images
  /\ ((length images <= index)%nat ->
      ApartmentFormData.images (formData (removeImage index st)) = images)
  /\ ((index < length images)%nat ->
      length (ApartmentFormData.images (formData (removeImage index st)))
      = (length images - 1)%nat)
  /\ imageInput (removeImage index st) = imageInput st
  /\ amenityInput (removeImage index st) = amenityInput st
  /\ imageInput (removeAmenity index st) = imageInput st
  /\ amenityInput (removeAmenity index st) = amenityInput st
  /\ formData (removeImage index st)
     = withImages (take index images ++ drop (S index) images) (formData st)
  /\ formData (removeAmenity index st)
     = withAmenities (take index amenities ++ drop (S index) amenities) (formData st).
Proof.
  cbv zeta. cbn. rewrite !removeAt_splice.
  repeat match goal with |- _ /\ _ => split end; try reflexivity.
  - intros Hlen. rewrite take_ge by lia. rewrite drop_ge by lia. apply app_nil_r.
  - intros Hlen. rewrite length_app, length_take, length_drop. lia.
Qed.

End FormFacts.

(** ** The shape of a slug *)

Section SlugShape.

Import JsString SlugSpec.

Lemma lettersAndDigits_append a b :
  lettersAndDigits (a +:+ b) = lettersAndDigits a && lettersAndDigits b.
Proof.
  induction a as [|c a IH]; [reflexivity|].
  rewrite append_cons. cbn. now rewrite IH, andb_assoc.
Qed.

Lemma pieces_words word s :
  noUpper s = true ->
  word = EmptyString \/ slugWord word ->
  Forall slugWord (pieces word s).
Proof.
  revert word. induction s as [|c s IH]; intros word Hs Hword.
  - cbn. destruct Hword as [->|Hw]; [constructor|].
    destruct word; [now destruct Hw|]. now constructor.
  - cbn in Hs. apply andb_prop in Hs as [Hc Hs]. apply negb_true_iff in Hc.
    cbn [pieces]. rewrite (isAlnum_lower c Hc). destruct (in_a_z_0_9 c) eqn:Ec.
    + apply IH; [exact Hs|]. right. split.
      * destruct word; discriminate.
      * rewrite lettersAndDigits_append. cbn. rewrite Ec. cbn.
        destruct Hword as [->|[_ Hw]]; [reflexivity | now rewrite Hw].
    + apply Forall_app. split.
      * destruct Hword as [->|Hw]; [constructor|].
        destruct word; [now destruct Hw|]. now constructor.
      * apply IH; [exact Hs | now left].
Qed.

Lemma slugText_append a b : slugText (a +:+ b) = slugText a && slugText b.
Proof.
  induction a as [|c a IH]; [reflexivity|].
  rewrite append_cons. cbn. now rewrite IH, andb_assoc.
Qed.

Lemma word_slugText w : lettersAndDigits w = true -> slugText w = true.
Proof.
  induction w as [|c w IH]; [reflexivity|]. cbn.
  rewrite !andb_true_iff. intros [Hc Hw]. split; [now rewrite Hc | auto].
Qed.

Lemma word_no_dash_start w : slugWord w -> startsWithDash w = false.
Proof.
  intros [Hne Hw]. destruct w as [|c w]; [contradiction|]. cbn in *.
  apply andb_true_iff in Hw as [Hc _]. now apply class_not_dash.
Qed.

Lemma startsWithDash_append w rest :
  w <> EmptyString -> startsWithDash (w +:+ rest) = startsWithDash w.
Proof. destruct w; [contradiction | reflexivity]. Qed.

Lemma endsWithDash_cons c s :
  s <> EmptyString -> endsWithDash (String c s) = endsWithDash s.
Proof. destruct s; [contradiction | reflexivity]. Qed.

Lemma endsWithDash_append a b :
  b <> EmptyString -> endsWithDash (a +:+ b) = endsWithDash b.
Proof.
  intros Hb. induction a as [|c a IH]; [reflexivity|].
  rewrite append_cons, endsWithDash_cons; [exact IH|].
  destruct a; [exact Hb | discriminate].
Qed.

Lemma word_no_dash_end w : slugWord w -> endsWithDash w = false.
Proof.
  intros [Hne Hw]. induction w as [|c w IH]; [contradiction|].
  cbn in Hw. apply andb_true_iff in Hw as [Hc Hw].
  destruct w as [|d w]; [cbn; now apply class_not_dash|].
  rewrite endsWithDash_cons by discriminate. apply IH; [discriminate | exact Hw].
Qed.

Lemma hasDoubleDash_cons c s :
  hasDoubleDash (String c s)
  = (Ascii.eqb c dash && startsWithDash s) || hasDoubleDash s.
Proof. destruct s; [cbn; now rewrite andb_false_r | reflexivity]. Qed.

Lemma word_then_rest w rest :
  lettersAndDigits w = true ->
  startsWithDash rest = false -> hasDoubleDash rest = false ->
  hasDoubleDash (w +:+ "-" +:+ rest) = false.
Proof.
  intros Hw Hstart Hrest. induction w as [|c w IH].
  - change ("" +:+ "-" +:+ rest) with (String dash rest).
    rewrite hasDoubleDash_cons, Hstart, Hrest. now rewrite andb_false_r.
  - cbn in Hw. apply andb_true_iff in Hw as [Hc Hw].
    rewrite append_cons, hasDoubleDash_cons, (class_not_dash c Hc). cbn.
    now apply IH.
Qed.

Lemma joined_words_shape ws :
  Forall slugWord ws ->
  slugText (String.concat "-" ws) = true
  /\ startsWithDash (String.concat "-" ws) = false
  /\ endsWithDash (String.concat "-" ws) = false
  /\ hasDoubleDash (String.concat "-" ws) = false.
Proof.
  induction 1 as [|w ws Hw Hws IH]; [repeat split|].
  destruct ws as [|w' ws].
  - cbn. destruct Hw as [Hne Hl]. repeat split.
    + now apply word_slugText.
    + now apply word_no_dash_start.
    + now apply word_no_dash_end.
    + rewrite <- (append_empty_r w).
      clear Hne. induction w as [|c w IHw]; [reflexivity|].
      cbn in Hl. apply andb_true_iff in Hl as [Hc Hl].
      rewrite append_cons, hasDoubleDash_cons, (class_not_dash c Hc). cbn. auto.
  - rewrite concat_cons by discriminate.
    destruct IH as (Ht & Hs & He & Hd). destruct Hw as [Hne Hl].
    assert (Hrest : String.concat "-" (w' :: ws) <> EmptyString).
    { apply Forall_cons in Hws as [[Hne' _] _].
      destruct ws; cbn; [exact Hne'|].
      destruct w'; [contradiction | discriminate]. }
    repeat split.
    + rewrite !slugText_append, Ht, (word_slugText w Hl). reflexivity.
    + rewrite startsWithDash_append by exact Hne.
      now apply word_no_dash_start.
    + rewrite endsWithDash_append.
      * rewrite endsWithDash_append by exact Hrest. exact He.
      * discriminate.
    + now apply word_then_rest.
Qed.

Lemma isAlnum_lowerChar c : isAlnum (lowerChar c) = isAlnum c.
Proof.
  destruct c as [b0 b1 b2 b3 b4 b5 b6 b7].
  destruct b0, b1, b2, b3, b4, b5, b6, b7; reflexivity.
Qed.

Lemma no_sign_at_plain_step c s :
  toLowerCase (String c s) = String (lowerChar c) (toLowerCase s) ->
  startsWithLetterSign (String c s) = false.
Proof.
  intros Heq. destruct (startsWithLetterSign (String c s)) eqn:E; [exfalso|reflexivity].
  destruct s as [|d s]; [discriminate|]. cbn [startsWithLetterSign] in E.
  apply orb_prop in E as [E|E].
  - apply andb_prop in E as [Hc Hd].
    apply code_eqb in Hc; [|reflexivity]. apply code_eqb in Hd; [|reflexivity].
    subst. rewrite toLowerCase_dotted_I in Heq. discriminate Heq.
  - destruct s as [|e s]; [discriminate|].
    apply andb_prop in E as [E He]. apply andb_prop in E as [Hc Hd].
    apply code_eqb in Hc; [|reflexivity]. apply code_eqb in Hd; [|reflexivity].
    apply code_eqb in He; [|reflexivity].
    subst. rewrite toLowerCase_kelvin in Heq. discriminate Heq.
Qed.

Lemma anyLetterOrDigit_lower s :
  anyLetterOrDigit (toLowerCase s) = yieldsLetterOrDigit s.
Proof.
  induction s as [|s IH|s IH|c s Heq IH] using toLowerCase_ind.
  - reflexivity.
  - rewrite toLowerCase_dotted_I. reflexivity.
  - rewrite toLowerCase_kelvin. reflexivity.
  - rewrite Heq. cbn [anyLetterOrDigit yieldsLetterOrDigit].
    now rewrite isAlnum_lowerChar, IH, (no_sign_at_plain_step c s Heq), orb_false_r.
Qed.

Lemma startsWithLetterSign_before_dash c a b :
  startsWithLetterSign (String c (a +:+ "-" +:+ b)) = startsWithLetterSign (String c a).
Proof.
  destruct a as [|d [|e a]]; [| |reflexivity].
  - change ("" +:+ "-" +:+ b) with (String "-" b).
    cbn. destruct b; now rewrite ?andb_false_r.
  - change (String d "" +:+ "-" +:+ b) with (String d (String "-" b)).
    cbn. now rewrite andb_false_r.
Qed.

Lemma yieldsLetterOrDigit_joined a b :
  yieldsLetterOrDigit (a +:+ "-" +:+ b) = yieldsLetterOrDigit a || yieldsLetterOrDigit b.
Proof.
  induction a as [|c a IH].
  - change ("" +:+ "-" +:+ b) with (String "-" b). cbn [yieldsLetterOrDigit].
    destruct b as [|d [|e b]]; reflexivity.
  - rewrite append_cons. cbn [yieldsLetterOrDigit].
    now rewrite startsWithLetterSign_before_dash, IH, orb_assoc.
Qed.

Lemma pieces_none word s :
  pieces word s = [] <-> word = EmptyString /\ anyLetterOrDigit s = false.
Proof.
  revert word. induction s as [|c s IH]; intros word.
  - cbn. destruct word; split; try tauto; try discriminate.
    intros [H _]. discriminate.
  - cbn [pieces anyLetterOrDigit]. destruct (isAlnum c); cbn [orb].
    + rewrite IH. split.
      * intros [H _]. destruct word; discriminate.
      * intros [_ H]. discriminate.
    + destruct word as [|d word]; cbn [flush app].
      * rewrite IH. tauto.
      * split; [discriminate|]. intros [H _]. discriminate.
Qed.

(** A slug is made of lower-case letters, digits and dashes only; it neither
    starts nor ends with a dash and has no two dashes in a row.  It is empty
    exactly when neither the unit name nor the unit number holds an ASCII
    letter or digit, a dotted capital I or a Kelvin sign (the two characters
    outside ASCII that lower-casing turns into text with a letter). *)
Theorem slug_shape unitName unitNumber :
  let slug := generateSlug unitName unitNumber in
  slugText slug = true
  /\ startsWithDash slug = false
  /\ endsWithDash slug = false
  /\ hasDoubleDash slug = false
  /\ (slug = EmptyString
      <-> yieldsLetterOrDigit unitName = false /\ yieldsLetterOrDigit unitNumber = false).
Proof.
  cbv zeta. rewrite generateSlug_spec. unfold slug_spec.
  pose proof (pieces_words EmptyString
                (toLowerCase (unitName +:+ "-" +:+ unitNumber))
                (toLowerCase_noUpper _) (or_introl eq_refl)) as Hwords.
  destruct (joined_words_shape _ Hwords) as (Ht & Hs & He & Hd).
  repeat match goal with |- _ /\ _ => split end; auto.
  assert (Hnone : pieces EmptyString (toLowerCase (unitName +:+ "-" +:+ unitNumber)) = []
                  <-> yieldsLetterOrDigit unitName = false
                      /\ yieldsLetterOrDigit unitNumber = false).
  { rewrite pieces_none, anyLetterOrDigit_lower, yieldsLetterOrDigit_joined.
    rewrite orb_false_iff. tauto. }
  rewrite <- Hnone. split.
  - intros Hempty.
    destruct (pieces _ _) as [|w ws]; [reflexivity|]. exfalso.
    apply Forall_cons in Hwords as [[Hne _] Hws].
    destruct ws as [|w' ws]; [now apply Hne|].
    rewrite concat_cons in Hempty by discriminate.
    destruct w; [now apply Hne | discriminate].
  - now intros ->.
Qed.

End SlugShape.

(** ** Sequences of requests *)

Section ApiFacts.

Variable collate : ascii -> ascii -> bool.

Import ApartmentsService.

Lemma keeps_refl r : keeps r r.
Proof. unfold keeps. repeat split; auto; lia. Qed.

Lemma keeps_trans a b c : keeps a b -> keeps b c -> keeps a c.
Proof.
  unfold keeps. intros (H1 & H2 & H3 & H4 & H5) (G1 & G2 & G3 & G4 & G5).
  repeat match goal with |- _ /\ _ => split end; try congruence; try lia; auto.
Qed.

Lemma keeps_patch i p stamp r :
  keeps r (if id r =? i then Repo.stampUpdate stamp p (patch p r) else r).
Proof.
  destruct (id r =? i); [|apply keeps_refl]. unfold keeps, Repo.stampUpdate.
  destruct (PartialEntity.updatedAt p); cbn;
    (repeat match goal with |- _ /\ _ => split end; try reflexivity; try lia;
     destruct (PartialEntity.deletedAt p); [discriminate | auto]).
Qed.

(** What one request does to the table: each stored row is rewritten in
    place, then at most one row, with the next key, is appended. *)
Lemma served_rows call repo :
  exists (g : Apartment -> Apartment) (added : list Apartment),
    rows (served collate call repo) = map g (rows repo) ++ added
    /\ (forall r, keeps r (g r))
    /\ Forall (fun r => id r = nextId repo) added
    /\ nextId repo <= nextId (served collate call repo).
Proof.
  assert (Hsame : exists (g : Apartment -> Apartment) (added : list Apartment),
             rows repo = map g (rows repo) ++ added
             /\ (forall r, keeps r (g r))
             /\ Forall (fun r => id r = nextId repo) added
             /\ nextId repo <= nextId repo).
  { exists (fun r => r), []. rewrite map_id, app_nil_r.
    split; [reflexivity|]. split; [apply keeps_refl|]. split; [constructor | lia]. }
  destruct call as [dto now|i dto now|i now stamp|i stamp]; cbn [served].
  - unfold ApartmentsController.create, create, Repo.save.
    destruct (negb _); cbn [fst]; [exact Hsame|].
    destruct (existsb _ _); cbn [fst]; [exact Hsame|].
    eexists (fun r => r), [_]. cbn [rows nextId]. rewrite map_id.
    split; [reflexivity|]. split; [apply keeps_refl|].
    split; [|lia]. constructor; [reflexivity | constructor].
  - destruct (updateAccepted collate repo i dto); [|exact Hsame].
    unfold ApartmentsController.update.
    change (update collate repo i dto now)
      with (Repo.update repo i (updatePartial dto now) now,
            findOneWithDetails collate (Repo.update repo i (updatePartial dto now) now) i).
    exists (fun r => if id r =? i
                     then Repo.stampUpdate now (updatePartial dto now)
                            (patch (updatePartial dto now) r)
                     else r), [].
    rewrite app_nil_r.
    destruct (findOneWithDetails collate _ i); cbn [fst rows nextId Repo.update];
      (split; [reflexivity|]; split; [intros r; apply keeps_patch|];
       split; [constructor | lia]).
  - unfold ApartmentsController.remove, softDelete.
    destruct (findOneWithDetails collate repo i); cbn [fst]; [|exact Hsame].
    exists (fun r => if id r =? i
                     then Repo.stampUpdate stamp (softDeletePartial now)
                            (patch (softDeletePartial now) r)
                     else r), [].
    rewrite app_nil_r. cbn [rows nextId Repo.update].
    split; [reflexivity|]. split; [intros r; apply keeps_patch|].
    split; [constructor | lia].
  - unfold ApartmentsController.findOne.
    destruct (findOneWithDetails collate repo i); cbn [fst]; [|exact Hsame].
    exists (fun r => if id r =? i
                     then withUpdatedAt stamp (withViewCount (viewCount r + 1) r)
                     else r), [].
    rewrite app_nil_r. cbn [rows nextId incrementViewCount Repo.increment].
    split; [reflexivity|]. split; [|split; [constructor | lia]].
    intros r. destruct (id r =? i); [|apply keeps_refl].
    unfold keeps. cbn. repeat match goal with |- _ /\ _ => split end; auto; lia.
Qed.

Lemma servedAll_cons call calls repo :
  servedAll collate (call :: calls) repo
  = servedAll collate calls (served collate call repo).
Proof. reflexivity. Qed.

(** Whatever requests are served, in whatever order, no stored row is
    removed or moved: the table afterwards starts with the rows it had, each
    with the same id, slug and creation time, a view count that is at least
    the old one and, if it was marked deleted, still marked deleted. *)
Theorem stored_rows_persist calls repo :
  exists later added,
    rows (servedAll collate calls repo) = later ++ added
    /\ Forall2 (fun old new =>
                  id new = id old /\ slug new = slug old
                  /\ createdAt new = createdAt old
                  /\ viewCount old <= viewCount new
                  /\ (deletedAt old <> None -> deletedAt new <> None))
         (rows repo) later.
Proof.
  revert repo. induction calls as [|call calls IH]; intros repo.
  - exists (rows repo), []. rewrite app_nil_r. split; [reflexivity|].
    apply Forall2_same_length_lookup_2; [reflexivity|].
    intros k old new Ho Hn. assert (old = new) as -> by congruence.
    apply (keeps_refl new).
  - rewrite servedAll_cons.
    destruct (served_rows call repo) as (g & added & Hrows & Hg & _ & _).
    destruct (IH (served collate call repo)) as (later & added' & Hlater & Hall).
    rewrite Hrows in Hall. apply Forall2_app_inv_l in Hall
      as (later1 & later2 & H1 & _ & ->).
    exists later1, (later2 ++ added'). split; [now rewrite Hlater, <- app_assoc|].
    apply Forall2_fmap_l in H1.
    eapply Forall2_impl; [exact H1|]. intros old new Hk. cbv beta in Hk.
    exact (keeps_trans old (g old) new (Hg old) Hk).
Qed.

(** After a successful [DELETE] of an id, no later sequence of requests
    brings the record back: [GET] and [DELETE] for that id answer NotFound,
    and so does every [PUT] for it that the store accepts; no listing query
    selects a row of that id, and the by-project list, the featured list
    and the lists of similar records (for limits that are not negative)
    contain none. *)
Theorem deletion_is_permanent repo i now stamp calls :
  keysFresh repo ->
  snd (ApartmentsController.remove collate repo i now stamp) = inr now ->
  let repo' :=
    servedAll collate calls (fst (ApartmentsController.remove collate repo i now stamp)) in
  (forall stamp', snd (ApartmentsController.findOne collate repo' i stamp') = inl NOT_FOUND)
  /\ (forall dto now',
         updateAccepted collate repo' i dto = true ->
         snd (ApartmentsController.update collate repo' i dto now') = inl NOT_FOUND)
  /\ (forall now' stamp',
         snd (ApartmentsController.remove collate repo' i now' stamp') = inl NOT_FOUND)
  /\ (forall searchDto,
         Forall (fun r => id r = i -> selectedBy collate searchDto r = false) (rows repo'))
  /\ (forall projectName,
         Forall (fun r => id r <> i) (findByProject collate repo' projectName))
  /\ (forall limit,
         0 <= limit ->
         Forall (fun r => id r <> i) (getFeaturedApartments collate repo' limit))
  /\ (forall j limit,
         0 <= limit ->
         Forall (fun r => id r <> i) (findSimilar collate repo' j limit)).
Proof.
  intros [_ Hlt] Hremoved repo'.
  set (gone := fun repo0 : Repository =>
                 i < nextId repo0
                 /\ Forall (fun r => id r = i -> deletedAt r <> None) (rows repo0)).
  assert (Hstart : gone (fst (ApartmentsController.remove collate repo i now stamp))).
  { unfold ApartmentsController.remove, softDelete in *.
    rewrite (findOneWithDetails_head collate repo) in *.
    destruct (head (List.filter (byIdVisible i) (rows repo))) as [r|] eqn:Hh;
      [|discriminate].
    assert (Hin : In r (List.filter (byIdVisible i) (rows repo))).
    { destruct (List.filter (byIdVisible i) (rows repo)); [discriminate|].
      injection Hh as ->. now left. }
    apply filter_In in Hin as [Hin Hvis].
    unfold byIdVisible in Hvis. apply andb_prop in Hvis as [Hvis _].
    apply andb_prop in Hvis as [Hid _]. apply Z.eqb_eq in Hid.
    split; cbn.
    - rewrite Forall_forall in Hlt. apply list_elem_of_In in Hin.
      specialize (Hlt r Hin). cbv beta in Hlt. lia.
    - apply Forall_forall. intros y Hy. apply list_elem_of_In in Hy.
      apply in_map_iff in Hy as (x & <- & _).
      destruct (Z.eqb_spec (id x) i) as [E|E]; cbn; [discriminate | congruence]. }
  assert (Hstep : forall call repo0, gone repo0 -> gone (served collate call repo0)).
  { intros call repo0 [Hnext Hrows].
    destruct (served_rows call repo0) as (g & added & Hr & Hg & Hadded & Hle).
    split; [lia|]. rewrite Hr. apply Forall_app. split.
    - apply Forall_forall. intros y Hy. apply list_elem_of_In in Hy.
      apply in_map_iff in Hy as (x & <- & Hx).
      destruct (Hg x) as (Hid & _ & _ & _ & Hdel).
      rewrite Forall_forall in Hrows. apply list_elem_of_In in Hx.
      intros Hi. apply Hdel, (Hrows x Hx). congruence.
    - eapply Forall_impl; [exact Hadded|]. intros y Hy Hi. cbv beta in Hy. lia. }
  assert (Hall : forall calls0 repo0, gone repo0 -> gone (servedAll collate calls0 repo0)).
  { induction calls0 as [|call calls0 IH]; intros repo0 H0; [exact H0|].
    rewrite servedAll_cons. apply IH, Hstep, H0. }
  specialize (Hall calls _ Hstart). fold repo' in Hall. destruct Hall as [_ Hgone].
  assert (Hhidden : forall (g : Apartment -> Apartment),
             (forall r, id (g r) = id r) ->
             (forall r, deletedAt r <> None -> deletedAt (g r) <> None) ->
             findOneWithDetails collate
               {| rows := map g (rows repo'); nextId := nextId repo' |} i = None).
  { intros g Hid Hdel. apply findOneWithDetails_hidden. cbn.
    apply Forall_forall. intros y Hy. apply list_elem_of_In in Hy.
    apply in_map_iff in Hy as (x & <- & Hx).
    rewrite Forall_forall in Hgone. apply list_elem_of_In in Hx.
    specialize (Hgone x Hx). cbv beta in Hgone.
    unfold byIdVisible. rewrite Hid.
    destruct (Z.eqb_spec (id x) i) as [E|E]; [|reflexivity].
    specialize (Hdel x (Hgone E)).
    destruct (deletedAt (g x)); [|congruence]. cbn. now rewrite andb_false_r. }
  assert (Hnone : findOneWithDetails collate repo' i = None).
  { specialize (Hhidden (fun r => r) (fun r => eq_refl) (fun r H => H)).
    rewrite map_id in Hhidden. now rewrite repository_eta in Hhidden. }
  assert (Hinvisible : forall r, In r (rows repo') -> id r = i -> visibleb r = false).
  { intros r Hin Hi. rewrite Forall_forall in Hgone. apply list_elem_of_In in Hin.
    specialize (Hgone r Hin Hi). unfold visibleb.
    destruct (deletedAt r); [|congruence]. cbn. apply andb_false_r. }
  assert (Hfind : forall o,
             FindOptionsWhere.isAvailable (FindManyOptions.where_ o) = Some true ->
             FindOptionsWhere.deletedAtIsNull (FindManyOptions.where_ o) = true ->
             Forall (fun r => id r <> i) (Repo.find collate repo' o)).
  { intros o Hav Hdel. apply Forall_forall. intros r Hr Hi.
    apply list_elem_of_In in Hr. apply find_In in Hr as [Hin Hm].
    pose proof (Hinvisible r Hin Hi) as Hv.
    rewrite (hidden_not_matched collate i _ r) in Hm; try assumption; [discriminate|].
    unfold byIdVisible. unfold visibleb in Hv.
    destruct (isAvailable r), (Repo.isNull (deletedAt r)); try discriminate;
      cbn; now rewrite ?andb_false_r. }
  repeat match goal with |- _ /\ _ => split end.
  - intros stamp'. now rewrite (controller_findOne_missing collate repo' i stamp' Hnone).
  - intros dto now' _. unfold ApartmentsController.update.
    change (update collate repo' i dto now')
      with (Repo.update repo' i (updatePartial dto now') now',
            findOneWithDetails collate
              (Repo.update repo' i (updatePartial dto now') now') i).
    unfold Repo.update.
    rewrite (Hhidden (fun r => if id r =? i
                               then Repo.stampUpdate now' (updatePartial dto now')
                                      (patch (updatePartial dto now') r)
                               else r));
      [reflexivity | |].
    + intros r. now destruct (id r =? i).
    + intros r Hd. destruct (id r =? i); [|exact Hd]. cbn.
      destruct (deletedAt r); [discriminate | congruence].
  - intros now' stamp'. unfold ApartmentsController.remove, softDelete. now rewrite Hnone.
  - intros searchDto. apply Forall_forall. intros r Hr Hi. apply list_elem_of_In in Hr.
    apply invisible_not_selected. now apply Hinvisible.
  - intros projectName. now apply Hfind.
  - intros limit _. now apply Hfind.
  - intros j limit _. unfold findSimilar.
    destruct (findOneWithDetails collate repo' j); [|constructor]. now apply Hfind.
Qed.

End ApiFacts.

Lemma deletion_is_permanent_witness :
  snd (ApartmentsController.findOne Ascii.eqb
         (servedAll Ascii.eqb
            [PutApartment 1 makeAvailable 3000; GetApartment 1 3500;
             PostApartment newStudio 4000]
            (fst (ApartmentsController.remove Ascii.eqb seeded 1 2000 2001))) 1 5000)
  = inl NOT_FOUND.
Proof.
  apply (deletion_is_permanent Ascii.eqb seeded 1 2000 2001
           [PutApartment 1 makeAvailable 3000; GetApartment 1 3500;
            PostApartment newStudio 4000]
           seeded_keysFresh eq_refl).
Defined.

(** ** The price summary of the statistics *)

Section AverageFacts.

Lemma roundHalfAway_monotone a b :
  (a <= b)%Q -> roundHalfAway a <= roundHalfAway b.
Proof.
  intros Hab. unfold roundHalfAway.
  destruct (Qle_bool 0 a) eqn:Ea; destruct (Qle_bool 0 b) eqn:Eb.
  - apply Qfloor_resp_le. lra.
  - apply Qle_bool_iff in Ea.
    assert (Hb : ~ (0 <= b)%Q) by (rewrite <- Qle_bool_iff; congruence).
    exfalso. apply Hb. lra.
  - assert (Ha : ~ (0 <= a)%Q) by (rewrite <- Qle_bool_iff; congruence).
    apply Qle_bool_iff in Eb.
    assert (H1 : 0 <= Qfloor (- a + (1 # 2))).
    { change 0 with (Qfloor 0). apply Qfloor_resp_le. lra. }
    assert (H2 : 0 <= Qfloor (b + (1 # 2))).
    { change 0 with (Qfloor 0). apply Qfloor_resp_le. lra. }
    lia.
  - assert (H : Qfloor (- b + (1 # 2)) <= Qfloor (- a + (1 # 2)))
      by (apply Qfloor_resp_le; lra).
    lia.
Qed.

Lemma mysqlAvg_monotone : monotoneNumber mysqlAvg.
Proof.
  intros a b Hab. unfold mysqlAvg.
  assert (H : roundHalfAway (a * 1000000) <= roundHalfAway (b * 1000000))
    by (apply roundHalfAway_monotone; lra).
  rewrite Zle_Qle in H. unfold Qdiv.
  apply Qmult_le_compat_r; [exact H | discriminate].
Qed.

Lemma Qfloor_half (n : Z) : Qfloor (inject_Z n + (1 # 2)) = n.
Proof.
  pose proof (Qfloor_le (inject_Z n + (1 # 2))) as Hle.
  pose proof (Qlt_floor (inject_Z n + (1 # 2))) as Hlt.
  set (f := Qfloor (inject_Z n + (1 # 2))) in *.
  assert (H1 : (inject_Z f < inject_Z (n + 1))%Q)
    by (rewrite inject_Z_plus; change (inject_Z 1) with 1%Q; lra).
  assert (H2 : (inject_Z n < inject_Z (f + 1))%Q) by lra.
  rewrite <- Zlt_Qlt in H1, H2. lia.
Qed.

(** The mean of equal decimal prices reads as that price. *)
Lemma mysqlAvg_decimal q : decimalPrice q = true -> (mysqlAvg q == q)%Q.
Proof.
  intros Hq. apply decimalPrice_cents in Hq as (Hc & Hq0 & _).
  set (n := Qfloor (q * 100)) in *.
  assert (Hm : (q * 1000000 == inject_Z (n * 10000))%Q).
  { rewrite inject_Z_mult. change (inject_Z 10000) with 10000%Q. lra. }
  unfold mysqlAvg, roundHalfAway.
  assert (Hpos : Qle_bool 0 (q * 1000000) = true) by (apply Qle_bool_iff; lra).
  rewrite Hpos.
  assert (Hf : Qfloor (q * 1000000 + (1 # 2)) = n * 10000).
  { rewrite <- (Qfloor_half (n * 10000)). apply Qfloor_comp. now rewrite Hm. }
  rewrite Hf, <- Hm. field.
Qed.

Lemma mysqlAvg_keepsPrices repo : decimalPrices repo = true -> keepsPrices mysqlAvg repo.
Proof.
  intros H. apply Forall_forall. intros r Hr. apply list_elem_of_In in Hr.
  apply mysqlAvg_decimal. unfold decimalPrices in H. rewrite forallb_forall in H. auto.
Qed.

End AverageFacts.

Section PriceFacts.

Variable collate : ascii -> ascii -> bool.
Variable avgNumber : Q -> Q.

Import ApartmentsService.

Lemma fold_left_Qmin_In l x :
  fold_left Qmin l x = x \/ In (fold_left Qmin l x) l.
Proof.
  revert x. induction l as [|y l IH]; intros x; cbn; [now left|].
  destruct (IH (Qmin x y)) as [H|H]; [|now right; right].
  rewrite H. unfold Qmin, GenericMinMax.gmin.
  destruct (x ?= y)%Q; [now left | now left | now right; left].
Qed.

Lemma fold_left_Qmax_In l x :
  fold_left Qmax l x = x \/ In (fold_left Qmax l x) l.
Proof.
  revert x. induction l as [|y l IH]; intros x; cbn; [now left|].
  destruct (IH (Qmax x y)) as [H|H]; [|now right; right].
  rewrite H. unfold Qmax, GenericMinMax.gmax.
  destruct (x ?= y)%Q; [now left | now right; left | now left].
Qed.

Lemma sqlMin_attained p l : In (orZero (sqlMin (p :: l))) (p :: l).
Proof.
  cbn [sqlMin orZero]. destruct (fold_left_Qmin_In l p) as [->|H]; [now left | now right].
Qed.

Lemma sqlMax_attained p l : In (orZero (sqlMax (p :: l))) (p :: l).
Proof.
  cbn [sqlMax orZero]. destruct (fold_left_Qmax_In l p) as [->|H]; [now left | now right].
Qed.

Lemma sqlSum_bounds (l : list Q) (a b : Q) :
  Forall (fun p => (a <= p)%Q) l -> Forall (fun p => (p <= b)%Q) l ->
  (a * inject_Z (Z.of_nat (length l)) <= sqlSum l)%Q
  /\ (sqlSum l <= b * inject_Z (Z.of_nat (length l)))%Q.
Proof.
  induction l as [|p l IH]; intros Ha Hb.
  - cbn [length sqlSum fold_right]. change (inject_Z (Z.of_nat 0)) with 0%Q. split; lra.
  - apply Forall_cons in Ha as [Hap Ha]. apply Forall_cons in Hb as [Hpb Hb].
    destruct (IH Ha Hb) as [H1 H2].
    cbn [length sqlSum fold_right]. fold (sqlSum l).
    rewrite Nat2Z.inj_succ. unfold Z.succ. rewrite inject_Z_plus.
    change (inject_Z 1) with 1%Q. split; lra.
Qed.

(** The exact mean of a non-empty list lies between its least and its
    greatest entry. *)
Lemma mean_bounds p l :
  (orZero (sqlMin (p :: l)) <= mean (p :: l))%Q
  /\ (mean (p :: l) <= orZero (sqlMax (p :: l)))%Q.
Proof.
  pose proof (sqlMin_lower_bound (p :: l)) as Hlow.
  pose proof (sqlMax_upper_bound (p :: l)) as Hhigh.
  destruct (sqlSum_bounds (p :: l) _ _ Hlow Hhigh) as [Hs1 Hs2].
  assert (Hn : (0 < inject_Z (Z.of_nat (length (p :: l))))%Q).
  { rewrite <- (Zlt_Qlt 0). cbn [length]. lia. }
  unfold mean. split; [apply Qle_shift_div_l | apply Qle_shift_div_r]; assumption.
Qed.

(** When some stored row is available and not deleted, the reported price
    range is attained: its minimum and its maximum are the prices of such
    rows, and the reported average lies between them.  (The number read for
    the average is assumed to grow with the mean and to read the mean of
    equal stored prices as that price.) *)
Theorem price_summary repo now r :
  monotoneNumber avgNumber ->
  keepsPrices avgNumber repo ->
  In r (rows repo) -> visible r ->
  let stats := getStatistics collate avgNumber repo now in
  let lowest := PriceRangeDto.min (ApartmentStatsDto.priceRange stats) in
  let highest := PriceRangeDto.max (ApartmentStatsDto.priceRange stats) in
  (exists cheapest, In cheapest (rows repo) /\ visible cheapest /\ price cheapest = lowest)
  /\ (exists dearest, In dearest (rows repo) /\ visible dearest /\ price dearest = highest)
  /\ (lowest <= ApartmentStatsDto.averagePrice stats)%Q
  /\ (ApartmentStatsDto.averagePrice stats <= highest)%Q.
Proof.
  intros Hmono Hkeeps Hin Hvis. cbv zeta. cbn.
  assert (Hr : In r (availableRows repo)) by now apply In_availableRows.
  set (prices := map price (availableRows repo)).
  assert (Hprice : forall p, In p prices ->
                     exists x, In x (rows repo) /\ visible x /\ price x = p).
  { intros p Hp. apply in_map_iff in Hp as (x & <- & Hx).
    apply In_availableRows in Hx as [Hx Hv]. now exists x. }
  assert (Hne : prices <> []).
  { unfold prices. destruct (availableRows repo); [destruct Hr | discriminate]. }
  destruct prices as [|p prices'] eqn:Hp; [congruence|].
  destruct (mean_bounds p prices') as [Hlow Hhigh].
  destruct (Hprice _ (sqlMin_attained p prices')) as (cheapest & Hc1 & Hc2 & Hc3).
  destruct (Hprice _ (sqlMax_attained p prices')) as (dearest & Hd1 & Hd2 & Hd3).
  unfold keepsPrices in Hkeeps. rewrite Forall_forall in Hkeeps.
  repeat match goal with |- _ /\ _ => split end.
  - now exists cheapest.
  - now exists dearest.
  - apply list_elem_of_In in Hc1. pose proof (Hkeeps cheapest Hc1) as Hk.
    cbv beta in Hk. rewrite Hc3 in Hk.
    apply (Qle_trans _ (avgNumber (orZero (sqlMin (p :: prices')))));
      [rewrite Hk; apply Qle_refl | apply Hmono; exact Hlow].
  - apply list_elem_of_In in Hd1. pose proof (Hkeeps dearest Hd1) as Hk.
    cbv beta in Hk. rewrite Hd3 in Hk.
    apply (Qle_trans _ (avgNumber (orZero (sqlMax (p :: prices')))));
      [apply Hmono; exact Hhigh | rewrite Hk; apply Qle_refl].
Qed.

(** Claim C7.  In the statistics report [totalApartments] counts the rows
    that are not deleted, available or not; [availableApartments] counts
    the rows that are available and not deleted; [unavailableApartments] is
    their difference, the number of rows that are unavailable and not
    deleted.  The average price, the price range, the per-project statistics
    and the bedroom distribution are those of the available, non-deleted
    rows.  They are unchanged when every other row is removed from the
    table.  The average is the number read for the mean of those rows'
    prices (0 when there is none).  The range bounds those rows' prices and
    is attained by two of them (0 to 0 when there is none).  The bedroom
    distribution lists, in strictly ascending order, each bedroom count of
    such a row with the number of such rows that have it.  The project
    statistics list, by count descending, projects of such rows, each with
    the number of such rows in that project and the number read for the mean
    of their prices; under a collation that is an equivalence every such row
    has an entry for its project, and the counts add up to
    [availableApartments]. *)
Theorem statistics_scopes repo now :
  let stats := getStatistics collate avgNumber repo now in
  let shown := getStatistics collate avgNumber (visibleOnly repo) now in
  let prices := map price (List.filter visibleb (rows repo)) in
  let range := ApartmentStatsDto.priceRange stats in
  let distribution := ApartmentStatsDto.bedroomDistribution stats in
  let entries := ApartmentStatsDto.projectStats stats in
  let group := fun e =>
    List.filter (fun r => visibleb r && textEq collate (ProjectStatsDto.project e) (project r))
      (rows repo) in
  ApartmentStatsDto.totalApartments stats
  = Z.of_nat (length (List.filter (fun r => Repo.isNull (deletedAt r)) (rows repo)))
  /\ ApartmentStatsDto.availableApartments stats
     = Z.of_nat (length (List.filter visibleb (rows repo)))
  /\ ApartmentStatsDto.unavailableApartments stats
     = ApartmentStatsDto.totalApartments stats
       - ApartmentStatsDto.availableApartments stats
  /\ ApartmentStatsDto.unavailableApartments stats
     = Z.of_nat (length (List.filter
                           (fun r => negb (isAvailable r) && Repo.isNull (deletedAt r))
                           (rows repo)))
  /\ ApartmentStatsDto.averagePrice stats = ApartmentStatsDto.averagePrice shown
  /\ ApartmentStatsDto.priceRange stats = ApartmentStatsDto.priceRange shown
  /\ ApartmentStatsDto.projectStats stats = ApartmentStatsDto.projectStats shown
  /\ ApartmentStatsDto.bedroomDistribution stats
     = ApartmentStatsDto.bedroomDistribution shown
  /\ ApartmentStatsDto.averagePrice stats
     = match prices with
       | [] => 0%Q
       | _ :: _ => avgNumber (mean prices)
       end
  /\ Forall (fun p => (PriceRangeDto.min range <= p)%Q /\ (p <= PriceRangeDto.max range)%Q)
       prices
  /\ match prices with
     | [] => range = {| PriceRangeDto.min := 0; PriceRangeDto.max := 0 |}
     | _ :: _ => In (PriceRangeDto.min range) prices /\ In (PriceRangeDto.max range) prices
     end
  /\ StronglySorted
       (fun a b => BedroomDistributionDto.bedrooms a < BedroomDistributionDto.bedrooms b)
       distribution
  /\ Forall (fun e =>
               BedroomDistributionDto.count e
               = Z.of_nat (length (List.filter
                                     (fun r => visibleb r
                                               && (bedrooms r =? BedroomDistributionDto.bedrooms e))
                                     (rows repo)))
               /\ 1 <= BedroomDistributionDto.count e)
       distribution
  /\ (forall r, In r (rows repo) -> visible r ->
      exists e, In e distribution /\ BedroomDistributionDto.bedrooms e = bedrooms r)
  /\ StronglySorted (fun a b => ProjectStatsDto.count b <= ProjectStatsDto.count a) entries
  /\ Forall (fun e =>
               (exists r, In r (rows repo) /\ visible r /\ project r = ProjectStatsDto.project e)
               /\ ProjectStatsDto.count e = Z.of_nat (length (group e))
               /\ ProjectStatsDto.averagePrice e
                  = match map price (group e) with
                    | [] => 0%Q
                    | groupPrices => avgNumber (mean groupPrices)
                    end)
       entries
  /\ (equivalenceCollation collate ->
      (forall r, In r (rows repo) -> visible r ->
       exists e, In e entries
                 /\ textEq collate (ProjectStatsDto.project e) (project r) = true)
      /\ Forall (fun e => 1 <= ProjectStatsDto.count e) entries
      /\ fold_right Z.add 0 (map ProjectStatsDto.count entries)
         = ApartmentStatsDto.availableApartments stats).
Proof.
  cbv zeta.
  destruct (statistics_counts collate avgNumber repo now) as [Htotal Havail].
  destruct (bedroomStatsQuery_groups repo) as (Hb1 & Hb2 & Hb3 & _).
  destruct (projectStatsQuery_groups collate avgNumber repo) as (Hp1 & Hp2 & Hp3).
  assert (Hunav : ApartmentStatsDto.unavailableApartments
                    (getStatistics collate avgNumber repo now)
                  = ApartmentStatsDto.totalApartments
                      (getStatistics collate avgNumber repo now)
                    - ApartmentStatsDto.availableApartments
                        (getStatistics collate avgNumber repo now)) by reflexivity.
  assert (Hshown : availableRows (visibleOnly repo) = availableRows repo)
    by apply availableRows_visibleOnly.
  assert (Hprices : map price (availableRows repo)
                    = map price (List.filter visibleb (rows repo)))
    by now rewrite availableRows_visibleb.
  repeat match goal with |- _ /\ _ => split end;
    try assumption.
  - rewrite Hunav, Htotal, Havail.
    rewrite (length_filter_split isAvailable (fun r => Repo.isNull (deletedAt r))).
    unfold visibleb. lia.
  - unfold getStatistics. cbn [ApartmentStatsDto.averagePrice]. now rewrite Hshown.
  - unfold getStatistics. cbn [ApartmentStatsDto.priceRange]. now rewrite Hshown.
  - unfold getStatistics, projectStatsQuery. cbn [ApartmentStatsDto.projectStats].
    now rewrite Hshown.
  - unfold getStatistics, bedroomStatsQuery. cbn [ApartmentStatsDto.bedroomDistribution].
    now rewrite Hshown.
  - unfold getStatistics. cbn [ApartmentStatsDto.averagePrice]. rewrite Hprices.
    now destruct (map price (List.filter visibleb (rows repo))).
  - unfold getStatistics.
    cbn [ApartmentStatsDto.priceRange PriceRangeDto.min PriceRangeDto.max].
    rewrite Hprices.
    pose proof (sqlMin_lower_bound (map price (List.filter visibleb (rows repo)))) as Hlo.
    pose proof (sqlMax_upper_bound (map price (List.filter visibleb (rows repo)))) as Hhi.
    rewrite Forall_forall in *. intros p Hp. split; auto.
  - unfold getStatistics.
    cbn [ApartmentStatsDto.priceRange PriceRangeDto.min PriceRangeDto.max].
    rewrite Hprices.
    destruct (map price (List.filter visibleb (rows repo))) as [|p l]; [reflexivity|].
    split; [apply sqlMin_attained | apply sqlMax_attained].
  - intros Heq. destruct (Hp3 Heq) as (Hc1 & Hc2 & Hc3).
    split; [exact Hc1|]. split; [exact Hc2|]. now rewrite Havail.
Qed.

End PriceFacts.

Lemma seeded_decimalPrices : decimalPrices seeded = true.
Proof. reflexivity. Qed.

Lemma price_summary_witness :
  (PriceRangeDto.min (ApartmentStatsDto.priceRange
                        (ApartmentsService.getStatistics Ascii.eqb mysqlAvg seeded 5000))
   <= ApartmentStatsDto.averagePrice
        (ApartmentsService.getStatistics Ascii.eqb mysqlAvg seeded 5000))%Q.
Proof.
  apply (price_summary Ascii.eqb mysqlAvg seeded 5000
           (seedRow 1 "Luxury Studio A1" "A1-001" "Marina Heights" 1200 1 1 (91 # 2)
              "Downtown Marina District" 45)
           mysqlAvg_monotone (mysqlAvg_keepsPrices seeded seeded_decimalPrices)).
  - now left.
  - split; reflexivity.
Defined.

Lemma statistics_scopes_witness :
  fold_right Z.add 0
    (map ProjectStatsDto.count
       (ApartmentStatsDto.projectStats
          (ApartmentsService.getStatistics Ascii.eqb mysqlAvg seededWithHidden 4000)))
  = ApartmentStatsDto.availableApartments
      (ApartmentsService.getStatistics Ascii.eqb mysqlAvg seededWithHidden 4000).
Proof.
  pose proof (statistics_scopes Ascii.eqb mysqlAvg seededWithHidden 4000) as H.
  cbv zeta in H.
  destruct H as (_ & _ & _ & _ & _ & _ & _ & _ & _ & _ & _ & _ & _ & _ & _ & _ & H).
  apply H. apply binary_collation_equivalence.
Defined.

(** The two count scopes differ on a table with a soft-deleted row and an
    unavailable row; the average is the one MySQL shows for 7250/3. *)
Example statistics_scopes_differ :
  let stats := ApartmentsService.getStatistics Ascii.eqb mysqlAvg seededWithHidden 4000 in
  length (rows seededWithHidden) = 5%nat
  /\ ApartmentStatsDto.totalApartments stats = 4
  /\ ApartmentStatsDto.availableApartments stats = 3
  /\ ApartmentStatsDto.unavailableApartments stats = 1
  /\ Qeq (ApartmentStatsDto.averagePrice stats) (2416666667 # 1000000).
Proof. cbv zeta. repeat split. Qed.

(** With a store whose [AVG] is the double nearest to the mean, the same
    average reads 2416.6666666666665. *)
Example statistics_average_as_double :
  let stats :=
    ApartmentsService.getStatistics Ascii.eqb JsNumber.toDouble seededWithHidden 4000 in
  Qeq (ApartmentStatsDto.averagePrice stats) (5314306200917333 # 2199023255552)
  /\ (24166666666666664 # 10000000000000 < 5314306200917333 # 2199023255552)%Q
  /\ (5314306200917333 # 2199023255552 < 24166666666666666 # 10000000000000)%Q.
Proof. cbv zeta. repeat split; vm_compute; reflexivity. Qed.
